(** * ZombieFinder: the zombie-ownership correlation engine

    A shallow embedding of the three classes that make up the engine
    (AllHandlesSystemwide, ZombieHandles, ZombieOwners) together with the
    helpers they call (HeapMem, EnablePrivilege, the utility functions), and
    the properties the design document states about them.

    Conventions.
    - The x64 build is modelled: ULONG_PTR, size_t, HANDLE and PVOID are
      64-bit, ULONG and DWORD are 32-bit.  Machine integers are [Z]; every
      place where the source does arithmetic that can wrap spells the wrap
      out with [wrap32] / [wrap64].
    - std::wstring is a list of UTF-16 code units.
    - std::unordered_map is a [gmap]; its (unspecified) iteration order is the
      order of [map_to_list].
    - Everything the operating system answers is an input: each class gets a
      record holding the answers of the calls it makes, in call order. *)

From Stdlib Require Import ZArith Lia List String Ascii.
From stdpp Require Import base option list list_numbers gmap fin_maps sorting.

Local Open Scope Z_scope.

(** ** Win32 scalar types *)

Abbreviation ULONG := Z (only parsing).
Abbreviation DWORD := Z (only parsing).
Abbreviation ULONG_PTR := Z (only parsing).
Abbreviation ULONGLONG := Z (only parsing).
Abbreviation size_t := Z (only parsing).
Abbreviation HANDLE := Z (only parsing).
Abbreviation PVOID := Z (only parsing).
Abbreviation NTSTATUS := Z (only parsing).
Abbreviation wchar_t := Z (only parsing).
Abbreviation wstring := (list Z) (only parsing).

Definition wrap32 (z : Z) : Z := z mod 2 ^ 32.
Definition wrap64 (z : Z) : Z := z mod 2 ^ 64.

(** A wide string literal. *)
Definition L (s : string) : wstring :=
  (fun a => Z.of_N (N_of_ascii a)) <$> list_ascii_of_string s.

(** operator<< of a std::endl. *)
Definition endl : wstring := [10].

Definition STATUS_SUCCESS : NTSTATUS := 0.
Definition STATUS_INFO_LENGTH_MISMATCH : NTSTATUS := 0xC0000004.
Definition STATUS_NO_MORE_ENTRIES : NTSTATUS := 0x8000001A.
Definition ERROR_SUCCESS : DWORD := 0.

(** Formatting helpers that live outside the engine (SysErrorMessage.h, HEX.h,
    the stream inserters for integers): they only ever contribute to
    diagnostic text. *)
Record Formatting := {
  SysErrorMessageWithCode : Z -> wstring;
  SysErrorMessage : Z -> wstring;
  HEX : Z -> wstring;
  dec : Z -> wstring
}.

(** ** CRT: _wcsicmp

    Not part of the repository.  The CRT compares the two strings code unit by
    code unit after lower-casing each, stops at the first difference or at the
    terminating NUL of the first string (do ... while (f && f == l)), and
    returns the difference of the last pair compared.  The lower-casing
    depends on the locale and is a parameter; the end of the list is the
    terminating NUL that c_str() supplies. *)
Definition c_char (s : wstring) : wchar_t := hd 0 s.

Fixpoint _wcsicmp (towlower : wchar_t -> wchar_t) (a b : wstring) : Z :=
  let f := towlower (c_char a) in
  let l := towlower (c_char b) in
  match a with
  | [] => f - l
  | _ :: a' =>
      if (f =? 0) || negb (f =? l) then f - l
      else _wcsicmp towlower a' (tl b)
  end.

(** towlower of the "C" locale: only 'A'..'Z' change. *)
Definition towlower_C (c : wchar_t) : wchar_t :=
  if (65 <=? c) && (c <=? 90) then c + 32 else c.

(** ** NtInternal.h *)

Module NtInternal.

Record SYSTEM_HANDLE_TABLE_ENTRY_INFO_EX := {
Object : PVOID;
UniqueProcessId : ULONG_PTR;
HandleValue : ULONG_PTR;
GrantedAccess : ULONG;
CreatorBackTraceIndex : Z;
ObjectTypeIndex : Z;
HandleAttributes : ULONG;
Reserved : ULONG
}.

(** The header count and the entries that follow it in the buffer.  The count
  is a field of its own, as in the structure: the kernel writes it, and
  nothing in the structure ties it to the room the buffer has. *)
Record SYSTEM_HANDLE_INFORMATION_EX := {
NumberOfHandles : ULONG_PTR;
Reserved0 : ULONG_PTR;
Handles : list SYSTEM_HANDLE_TABLE_ENTRY_INFO_EX
}.

End NtInternal.

Abbreviation SYSTEM_HANDLE_TABLE_ENTRY_INFO_EX :=
  NtInternal.SYSTEM_HANDLE_TABLE_ENTRY_INFO_EX (only parsing).
Abbreviation SYSTEM_HANDLE_INFORMATION_EX :=
  NtInternal.SYSTEM_HANDLE_INFORMATION_EX (only parsing).

(** ** HeapMem *)

Module HeapMem.

(** [m_pMem] is [None] for nullptr, otherwise the block's current contents. *)
Record t := {
  m_pMem : option SYSTEM_HANDLE_INFORMATION_EX;
  m_nSize : size_t
}.

Definition fresh : t := {| m_pMem := None; m_nSize := 0 |}.

(** What the heap functions answer during one call. *)
Record Heap := {
  GetProcessHeap : option DWORD;   (* None: a heap handle; Some e: NULL, last error e *)
  HeapFree : option DWORD          (* None: TRUE; Some e: FALSE, last error e *)
}.

Definition ProcessHeap (F : Formatting) (h : Heap) (sErrorInfo : wstring)
  : bool * wstring :=
  match GetProcessHeap h with
  | None => (true, sErrorInfo)
  | Some dwLastErr =>
      (false, L "GetProcessHeap failed: " ++ SysErrorMessageWithCode F dwLastErr)
  end.

Definition Dealloc (F : Formatting) (h : Heap) (m : t) : bool * wstring * t :=
  let sErrorInfo := [] in
  match m_pMem m with
  | Some _ =>
      match ProcessHeap F h sErrorInfo with
      | (false, sErrorInfo) => (false, sErrorInfo, m)
      | (true, sErrorInfo) =>
          let m := {| m_pMem := None; m_nSize := 0 |} in
          match HeapFree h with
          | Some dwLastErr =>
              (false, L "HeapFree failed: " ++ SysErrorMessageWithCode F dwLastErr, m)
          | None => (true, sErrorInfo, m)
          end
      end
  | None => (true, sErrorInfo, m)
  end.

(** [HeapAlloc] is the answer of the allocator: [None] for a failed
    allocation, otherwise the (uninitialised) contents of the new block. *)
Definition Alloc (F : Formatting) (h : Heap)
    (HeapAlloc : option SYSTEM_HANDLE_INFORMATION_EX)
    (nBytes : size_t) (m : t) : bool * wstring * t :=
  match Dealloc F h m with
  | (false, sErrorInfo, m) => (false, sErrorInfo, m)
  | (true, sErrorInfo, m) =>
      match ProcessHeap F h sErrorInfo with
      | (false, sErrorInfo) => (false, sErrorInfo, m)
      | (true, sErrorInfo) =>
          match HeapAlloc with
          | Some block => (true, sErrorInfo, {| m_pMem := Some block; m_nSize := nBytes |})
          | None =>
              (false,
               L "HeapAlloc failed to allocate " ++ dec F nBytes ++ L " bytes",
               {| m_pMem := None; m_nSize := m_nSize m |})
          end
      end
  end.

Definition Get (m : t) : option SYSTEM_HANDLE_INFORMATION_EX := m_pMem m.
Definition Size (m : t) : size_t := m_nSize m.

End HeapMem.

(** ** AllHandlesSystemwide *)

Module AllHandlesSystemwide.

Record t := { m_Mem : HeapMem.t }.

Definition fresh : t := {| m_Mem := HeapMem.fresh |}.

(** One data query of the retry loop: what HeapAlloc answers for the buffer,
    and what NtQuerySystemInformation answers when handed that buffer
    (status, ReturnLength, and the contents of the buffer afterwards). *)
Record DataCall := {
  q_HeapAlloc : option SYSTEM_HANDLE_INFORMATION_EX;
  q_status : NTSTATUS;
  q_returnLength : ULONG;
  q_written : SYSTEM_HANDLE_INFORMATION_EX
}.

Record Kernel := {
  ntdll : bool;                         (* GetModuleHandleW(L"ntdll.dll") != nullptr *)
  NtQuerySystemInformation : bool;      (* GetProcAddress found the entry point *)
  heap : HeapMem.Heap;
  first_status : NTSTATUS;              (* the size probe with the dummy buffer *)
  first_returnLength : ULONG;
  data_calls : list DataCall            (* the calls made from the loop, in order *)
}.

(** Ghost record of one data query: the size of the buffer handed to the
    kernel, and the requirement the kernel had reported last before it. *)
Record Query := { allocated : ULONG; required : ULONG }.

Definition Clear (F : Formatting) (h : HeapMem.Heap) (a : t) : t :=
  {| m_Mem := (HeapMem.Dealloc F h (m_Mem a)).2 |}.

Definition Get (a : t) : option SYSTEM_HANDLE_INFORMATION_EX :=
  HeapMem.Get (m_Mem a).

(** The result of a run: return value, sErrorInfo, the object, and the
    ghost record of the data queries made. *)
Definition Result : Type := bool * wstring * t * list Query.

(** The while loop.  It runs for as long as the kernel answers
    STATUS_INFO_LENGTH_MISMATCH; [None] means that the recorded answers ran
    out while the loop was still going. *)
Fixpoint Update_loop (F : Formatting) (h : HeapMem.Heap) (calls : list DataCall)
    (returnLength : ULONG) (a : t) (queries : list Query) : option Result :=
  let a := Clear F h a in
  let sysInfoLength := wrap32 (returnLength + returnLength / 4) in
  if sysInfoLength <? returnLength then
    Some (false, L "Unable to allocate memory: integer overflow", a, queries)
  else
    match calls with
    | [] => None
    | call :: calls =>
        match HeapMem.Alloc F h (q_HeapAlloc call) sysInfoLength (m_Mem a) with
        | (false, sErrorInfo, m) => Some (false, sErrorInfo, {| m_Mem := m |}, queries)
        | (true, sErrorInfo, m) =>
            let queries :=
              queries ++ [{| allocated := sysInfoLength; required := returnLength |}] in
            let a := {| m_Mem := {| HeapMem.m_pMem := Some (q_written call);
                                    HeapMem.m_nSize := HeapMem.m_nSize m |} |} in
            let ntStat := q_status call in
            let returnLength := q_returnLength call in
            if ntStat =? STATUS_SUCCESS then Some (true, sErrorInfo, a, queries)
            else if ntStat =? STATUS_INFO_LENGTH_MISMATCH then
              Update_loop F h calls returnLength a queries
            else
              Some (false,
                    L "NtQuerySystemInformation second call failed: "
                      ++ SysErrorMessageWithCode F ntStat ++ endl
                      ++ L "returnLength = " ++ dec F returnLength ++ endl
                      ++ L "had allocated  " ++ dec F sysInfoLength,
                    a, queries)
        end
    end.

Definition Update (F : Formatting) (k : Kernel) (a : t) : option Result :=
  let a := Clear F (heap k) a in
  if negb (ntdll k) then
    Some (false, L "Couldn't get module ntdll.dll", a, [])
  else if negb (NtQuerySystemInformation k) then
    Some (false, L "Couldn't get function NtQuerySystemInformation", a, [])
  else if negb (first_status k =? STATUS_INFO_LENGTH_MISMATCH) then
    Some (false,
          L "NtQuerySystemInformation first call failed: "
            ++ SysErrorMessageWithCode F (first_status k),
          a, [])
  else Update_loop F (heap k) (data_calls k) (first_returnLength k) a [].

Definition NumberOfHandles (a : t) : ULONG_PTR :=
  match Get a with
  | None => 0
  | Some pHandleCollection => NtInternal.NumberOfHandles pHandleCollection
  end.

(** A pointer to an entry of the held buffer is modelled by the index of the
    slot it points at; [None] is nullptr. *)
Definition HandleInfo (a : t) (ix : ULONG_PTR) : option ULONG_PTR :=
  match Get a with
  | None => None
  | Some pHandleCollection =>
      if ix >=? NtInternal.NumberOfHandles pHandleCollection then None
      else Some ix
  end.

(** Reading through such a pointer.  A slot that lies past the entries the
    buffer holds has nothing to read: [None]. *)
Definition deref (a : t) (pHandleInfo : ULONG_PTR)
  : option SYSTEM_HANDLE_TABLE_ENTRY_INFO_EX :=
  match Get a with
  | None => None
  | Some pHandleCollection => NtInternal.Handles pHandleCollection !! Z.to_nat pHandleInfo
  end.

(** What a caller that checks the pointer against nullptr and then reads its
    fields gets to see at index [ix]. *)
Definition read (a : t) (ix : ULONG_PTR) : option SYSTEM_HANDLE_TABLE_ENTRY_INFO_EX :=
  match HandleInfo a ix with
  | None => None
  | Some pHandleInfo => deref a pHandleInfo
  end.

End AllHandlesSystemwide.

(** ** ZombieProcessThreadInfo.h *)

Module ZombieInfo.

Record ZombieProcessThreadInfo := {
  PID : ULONG_PTR;
  TID : DWORD;
  sImagePath : wstring;
  createTime : ULONGLONG;     (* the FILETIME viewed as a ULONGLONG *)
  exitTime : ULONGLONG;
  nThreads : ULONG;
  ParentPID : ULONG_PTR;
  sParentImagePath : wstring
}.

End ZombieInfo.

Abbreviation ZombieProcessThreadInfo := ZombieInfo.ZombieProcessThreadInfo (only parsing).
Abbreviation ZombieHandleLookup_t := (gmap Z ZombieInfo.ZombieProcessThreadInfo) (only parsing).
Abbreviation ZombieObjectAddrLookup_t := (gmap Z ZombieInfo.ZombieProcessThreadInfo) (only parsing).
Abbreviation ZombiePidLookup_t := (gmap Z ZombieInfo.ZombieProcessThreadInfo) (only parsing).
Abbreviation ZombieProcessThreadInfoList_t := (list ZombieInfo.ZombieProcessThreadInfo) (only parsing).
Abbreviation ProcessEnumErrorInfoList_t := (list (list Z)) (only parsing).

(** ** UtilityFunctions *)

Module UtilityFunctions.

(** OpenProcess on the parent, and what the two queries on that handle
    answer. *)
Record ParentQuery := {
  hProcess : HANDLE;
  ftCreateTime : option ULONGLONG;     (* GetProcessTimes; None if it fails *)
  szImagePath : option wstring         (* QueryFullProcessImageNameW; None if it fails *)
}.

(** [parent] is [None] when OpenProcess returns nullptr.  The last component
    is the log of CloseHandle calls. *)
Definition GetParentProcessImagePathIfStillRunning
    (parent : option ParentQuery) (ftChildStartTime : ULONGLONG)
    (closed : list HANDLE) : bool * wstring * list HANDLE :=
  match parent with
  | Some q =>
      let '(retval, sProcessImagePath) :=
        match ftCreateTime q with
        | Some ulStartTime =>
            if ulStartTime <? ftChildStartTime then
              (true, match szImagePath q with Some path => path | None => [] end)
            else (false, [])
        | None => (false, [])
        end in
      (retval, sProcessImagePath, closed ++ [hProcess q])
  | None => (false, [], closed)
  end.

(** [query] is OpenProcess plus QueryFullProcessImageNameW for a DWORD process
    id: [inl path] on success, [inr e] with the last error otherwise. *)
Definition GetImagePathFromPID (F : Formatting)
    (query : DWORD -> wstring + DWORD) (pid : ULONG_PTR) : bool * wstring :=
  match query (wrap32 pid) with
  | inl szImagePath => (true, szImagePath)
  | inr dwLastError => (false, SysErrorMessageWithCode F dwLastError)
  end.

End UtilityFunctions.

(** ** ZombieHandles *)

Module ZombieHandles.

Record t := {
  m_ZombieHandleLookup : ZombieHandleLookup_t;
  m_nZombieProcesses : size_t;
  m_nTotalProcesses : size_t
}.

Definition fresh : t :=
  {| m_ZombieHandleLookup := ∅; m_nZombieProcesses := 0; m_nTotalProcesses := 0 |}.

(** OpenProcess(PROCESS_QUERY_INFORMATION) on a zombie, and the threads that
    NtGetNextThread then yields: a new handle and its GetThreadId, each. *)
Record ThreadQuery := {
  hProcessQI : HANDLE;
  threads : list (HANDLE * DWORD)
}.

(** One process yielded by NtGetNextProcess, with the answers to every
    question the loop body may ask about it. *)
Record KProcess := {
  hThisProcess : HANDLE;
  ntStat : NTSTATUS;                      (* NtQueryInformationProcess, ProcessBasicInformation *)
  IsProcessDeleting : bool;
  UniqueProcessId : ULONG_PTR;
  InheritedFromUniqueProcessId : ULONG_PTR;
  GetProcessTimes : option (ULONGLONG * ULONGLONG);  (* create, exit; None: the call fails *)
  OpenParent : option UtilityFunctions.ParentQuery;
  ProcessImageFileName : option wstring;  (* None: status other than STATUS_SUCCESS *)
  OpenProcessQI : option ThreadQuery      (* None: OpenProcess returns nullptr *)
}.

Record Kernel := {
  ntdll : bool;
  NtGetNextProcess : bool;                (* the three GetProcAddress results *)
  NtGetNextThread : bool;
  NtQueryInformationProcess : bool;
  ulNow : ULONGLONG;                      (* GetSystemTimeAsFileTime *)
  processes : list KProcess;              (* the enumeration, in order *)
  ntGNP : NTSTATUS                        (* the status that ends the enumeration *)
}.

(** ReleaseAcquiredHandles; [closed] is the log of CloseHandle calls. *)
Definition ReleaseAcquiredHandles (z : t) (closed : list HANDLE) : t * list HANDLE :=
  ({| m_ZombieHandleLookup := ∅;
      m_nZombieProcesses := m_nZombieProcesses z;
      m_nTotalProcesses := m_nTotalProcesses z |},
   closed ++ (map_to_list (m_ZombieHandleLookup z)).*1).

(** The destructor. *)
Definition destroy (z : t) (closed : list HANDLE) : list HANDLE :=
  (ReleaseAcquiredHandles z closed).2.

(** The variables the enumeration loop carries. *)
Record Loop := {
  self : t;
  zombiePidLookup : ZombiePidLookup_t;
  processEnumErrors : ProcessEnumErrorInfoList_t;
  hPrevProcess : HANDLE;
  bClosePrevProcess : bool;
  closed : list HANDLE
}.

(** The age test of the loop body. *)
Definition old_enough (nAgeInSeconds ulNow ulExitTime : ULONGLONG) : bool :=
  (nAgeInSeconds =? 0)
  || ((ulNow >? ulExitTime)
      && (wrap64 (ulNow - ulExitTime) / 10000000 >=? nAgeInSeconds)).

(** The NtGetNextThread loop: one lookup entry per thread handle. *)
Definition add_threads (zombieInfo : ZombieProcessThreadInfo)
    (ths : list (HANDLE * DWORD)) (lookup : ZombieHandleLookup_t) (nThreads : ULONG)
  : ZombieHandleLookup_t * ULONG :=
  fold_left
    (fun '(lookup, nThreads) '(hThread, tid) =>
       (<[hThread :=
            {| ZombieInfo.PID := ZombieInfo.PID zombieInfo;
               ZombieInfo.TID := tid;
               ZombieInfo.sImagePath := ZombieInfo.sImagePath zombieInfo;
               ZombieInfo.createTime := ZombieInfo.createTime zombieInfo;
               ZombieInfo.exitTime := ZombieInfo.exitTime zombieInfo;
               ZombieInfo.nThreads := ZombieInfo.nThreads zombieInfo;
               ZombieInfo.ParentPID := ZombieInfo.ParentPID zombieInfo;
               ZombieInfo.sParentImagePath := ZombieInfo.sParentImagePath zombieInfo |}]>
          lookup,
        wrap32 (nThreads + 1)))
    ths (lookup, nThreads).

(** One iteration of the NtGetNextProcess loop. *)
Definition visit (F : Formatting) (nAgeInSeconds ulNow : ULONGLONG)
    (s : Loop) (p : KProcess) : Loop :=
  let closed :=
    if bClosePrevProcess s && negb (hPrevProcess s =? 0)
    then closed s ++ [hPrevProcess s] else closed s in
  let nTotal := wrap64 (m_nTotalProcesses (self s) + 1) in
  let counted :=
    {| m_ZombieHandleLookup := m_ZombieHandleLookup (self s);
       m_nZombieProcesses := m_nZombieProcesses (self s);
       m_nTotalProcesses := nTotal |} in
  let skip errors :=
    {| self := counted; zombiePidLookup := zombiePidLookup s;
       processEnumErrors := errors; hPrevProcess := hThisProcess p;
       bClosePrevProcess := true; closed := closed |} in
  if negb (ntStat p =? STATUS_SUCCESS) then
    skip (processEnumErrors s ++
            [L "NtQueryInformationProcess failed during enumeration "
               ++ dec F nTotal ++ L ": " ++ SysErrorMessageWithCode F (ntStat p)])
  else if negb (IsProcessDeleting p) then skip (processEnumErrors s)
  else
    let '(ftCreate, ulExitTime) :=
      match GetProcessTimes p with Some t => t | None => (0, 0) end in
    if ulExitTime =? 0 then skip (processEnumErrors s)
    else if negb (old_enough nAgeInSeconds ulNow ulExitTime) then skip (processEnumErrors s)
    else
      let '(_, sParent, closed) :=
        UtilityFunctions.GetParentProcessImagePathIfStillRunning
          (OpenParent p) ftCreate closed in
      let zombieInfo :=
        {| ZombieInfo.PID := UniqueProcessId p;
           ZombieInfo.TID := 0;
           ZombieInfo.sImagePath :=
             match ProcessImageFileName p with Some path => path | None => [] end;
           ZombieInfo.createTime := ftCreate;
           ZombieInfo.exitTime := ulExitTime;
           ZombieInfo.nThreads := 0;
           ZombieInfo.ParentPID := InheritedFromUniqueProcessId p;
           ZombieInfo.sParentImagePath := sParent |} in
      let '(lookup, nThreads, closed) :=
        match OpenProcessQI p with
        | Some q =>
            let '(lookup, nThreads) :=
              add_threads zombieInfo (threads q) (m_ZombieHandleLookup (self s)) 0 in
            (lookup, nThreads, closed ++ [hProcessQI q])
        | None => (m_ZombieHandleLookup (self s), 0, closed)
        end in
      let zombieInfo :=
        {| ZombieInfo.PID := ZombieInfo.PID zombieInfo;
           ZombieInfo.TID := 0;
           ZombieInfo.sImagePath := ZombieInfo.sImagePath zombieInfo;
           ZombieInfo.createTime := ftCreate;
           ZombieInfo.exitTime := ulExitTime;
           ZombieInfo.nThreads := nThreads;
           ZombieInfo.ParentPID := ZombieInfo.ParentPID zombieInfo;
           ZombieInfo.sParentImagePath := sParent |} in
      {| self :=
           {| m_ZombieHandleLookup := <[hThisProcess p := zombieInfo]> lookup;
              m_nZombieProcesses := wrap64 (m_nZombieProcesses (self s) + 1);
              m_nTotalProcesses := nTotal |};
         zombiePidLookup := <[ZombieInfo.PID zombieInfo := zombieInfo]> (zombiePidLookup s);
         processEnumErrors := processEnumErrors s;
         hPrevProcess := hThisProcess p;
         bClosePrevProcess := false;
         closed := closed |}.

(** What a call hands back: the return value, the three output parameters,
    the object, and the log of CloseHandle calls. *)
Record Acquired := {
  retval : bool;
  sErrorInfo : wstring;
  object : t;
  out_zombiePidLookup : ZombiePidLookup_t;
  out_processEnumErrors : ProcessEnumErrorInfoList_t;
  out_closed : list HANDLE
}.

Definition AcquireNewHandlesToExistingZombies (F : Formatting) (k : Kernel)
    (nAgeInSeconds : ULONGLONG) (z : t) (closed : list HANDLE) : Acquired :=
  let z := {| m_ZombieHandleLookup := m_ZombieHandleLookup z;
              m_nZombieProcesses := 0; m_nTotalProcesses := 0 |} in
  let '(z, closed) := ReleaseAcquiredHandles z closed in
  let failed msg :=
    {| retval := false; sErrorInfo := msg; object := z;
       out_zombiePidLookup := ∅; out_processEnumErrors := []; out_closed := closed |} in
  if negb (ntdll k) then failed (L "Couldn't get module ntdll.dll")
  else if negb (NtGetNextProcess k && NtGetNextThread k && NtQueryInformationProcess k)
  then failed (L "ERROR: Unable to load functions from ntdll.dll")
  else
    let s :=
      fold_left (visit F nAgeInSeconds (ulNow k)) (processes k)
        {| self := z; zombiePidLookup := ∅; processEnumErrors := [];
           hPrevProcess := 0; bClosePrevProcess := false; closed := closed |} in
    let closed :=
      if bClosePrevProcess s && negb (hPrevProcess s =? 0)
      then ZombieHandles.closed s ++ [hPrevProcess s] else ZombieHandles.closed s in
    let errors :=
      if negb (ntGNP k =? STATUS_NO_MORE_ENTRIES) then
        processEnumErrors s ++
          [L "Process enumeration failed: NtGetNextProcess returned "
             ++ HEX F (ntGNP k) ++ L " after "
             ++ dec F (m_nTotalProcesses (self s)) ++ L " iterations: "
             ++ SysErrorMessage F (ntGNP k)]
      else processEnumErrors s in
    {| retval := true; sErrorInfo := []; object := self s;
       out_zombiePidLookup := zombiePidLookup s;
       out_processEnumErrors := errors; out_closed := closed |}.

Definition ZombieHandleLookup (z : t) : ZombieHandleLookup_t := m_ZombieHandleLookup z.
Definition ZombieProcessCount (z : t) : size_t := m_nZombieProcesses z.
Definition TotalProcessCount (z : t) : size_t := m_nTotalProcesses z.

End ZombieHandles.

(** ** SecurityUtils and the calling thread *)

Module SecurityUtils.

(** The part of the calling thread this code changes: whether it runs on an
    impersonation token of its own, whether the Debug Programs privilege is
    enabled on that token, and the handles it has closed so far. *)
Record Thread := {
  impersonating : bool;
  debug_enabled : bool;
  closed : list HANDLE
}.

Record Token := {
  OpenThreadToken : HANDLE + DWORD;          (* the token handle, or the last error *)
  LookupPrivilegeValueW : bool * DWORD;      (* return value, GetLastError *)
  AdjustTokenPrivileges : bool * DWORD
}.

Definition EnablePrivilege (F : Formatting) (tk : Token) (th : Thread)
  : bool * wstring * Thread :=
  match OpenThreadToken tk with
  | inr dwLastErr => (false, SysErrorMessageWithCode F dwLastErr, th)
  | inl hToken =>
      let '(ret, dwLastErr) :=
        if (LookupPrivilegeValueW tk).1 then AdjustTokenPrivileges tk
        else LookupPrivilegeValueW tk in
      let adjusted := (LookupPrivilegeValueW tk).1 && ret && (dwLastErr =? ERROR_SUCCESS) in
      let th := {| impersonating := impersonating th;
                   debug_enabled := debug_enabled th || adjusted;
                   closed := closed th ++ [hToken] |} in
      if negb ret || negb (dwLastErr =? ERROR_SUCCESS)
      then (false, SysErrorMessageWithCode F dwLastErr, th)
      else (true, [], th)
  end.

Definition ImpersonateSelf (th : Thread) : Thread :=
  {| impersonating := true; debug_enabled := debug_enabled th; closed := closed th |}.

Definition RevertToSelf (th : Thread) : Thread :=
  {| impersonating := false; debug_enabled := false; closed := closed th |}.

End SecurityUtils.

(** ** ServiceLookupByPID *)

Module ServiceLookupByPID.

Record ServiceNames_t := { sServiceName : wstring; sDisplayName : wstring }.

Abbreviation ServiceList_t := (list ServiceNames_t) (only parsing).

(** [lookup] is the process-wide table once InitializeServiceLookup has
    filled it. *)
Definition LookupServicesByPID (lookup : gmap Z (list ServiceNames_t)) (pid : ULONG_PTR)
  : bool * option (list ServiceNames_t) :=
  match lookup !! pid with
  | None => (false, None)
  | Some l => (true, Some l)
  end.

(** The two file-scope statics. *)
Record Statics := {
  ServiceLookupByPID : gmap Z (list ServiceNames_t);
  bInitialized : bool
}.

Definition initial : Statics := {| ServiceLookupByPID := ∅; bInitialized := false |}.

Definition ERROR_MORE_DATA : DWORD := 234.

(** One entry of the buffer EnumServicesStatusExW fills. *)
Record ENUM_SERVICE_STATUS_PROCESSW := {
  lpServiceName : wstring;
  lpDisplayName : wstring;
  dwProcessId : DWORD
}.

(** What the service control manager answers during one initialisation. *)
Record SCM := {
  OpenSCManagerW : bool;                  (* false: NULL *)
  first_cbBytesNeeded : DWORD;            (* the sizing call *)
  first_GetLastError : DWORD;
  EnumServicesStatusExW : DWORD -> option (list ENUM_SERVICE_STATUS_PROCESSW)
                                          (* the data call, by buffer size; None: FALSE *)
}.

(** The body of the loop over the services returned. *)
Definition add_service (lookup : gmap Z (list ServiceNames_t))
    (svc : ENUM_SERVICE_STATUS_PROCESSW) : gmap Z (list ServiceNames_t) :=
  let names := {| sServiceName := lpServiceName svc; sDisplayName := lpDisplayName svc |} in
  match lookup !! dwProcessId svc with
  | None => <[dwProcessId svc := [names]]> lookup
  | Some l => <[dwProcessId svc := l ++ [names]]> lookup
  end.

Definition InitializeServiceLookup (scm : SCM) (st : Statics) : Statics :=
  if bInitialized st then st
  else
    let lookup := ServiceLookupByPID st in
    let lookup :=
      if negb (OpenSCManagerW scm) then lookup
      else if negb (first_GetLastError scm =? ERROR_MORE_DATA) then lookup
      else
        let cbBytesNeeded :=
          wrap32 (first_cbBytesNeeded scm + first_cbBytesNeeded scm / 2) in
        match EnumServicesStatusExW scm cbBytesNeeded with
        | None => lookup
        | Some services => fold_left add_service services lookup
        end in
    {| ServiceLookupByPID := lookup; bInitialized := true |}.

(** LookupServicesByPID as called: it initialises the table first. *)
Definition LookupServicesByPID_call (scm : SCM) (st : Statics) (pid : ULONG_PTR)
  : bool * option (list ServiceNames_t) * Statics :=
  let st := InitializeServiceLookup scm st in
  (LookupServicesByPID (ServiceLookupByPID st) pid, st).

End ServiceLookupByPID.

(** ** ZombieOwners *)

Module ZombieOwners.

Record ZombieOwningInfo := {
  handleValue : ULONG_PTR;
  zombieInfo : ZombieProcessThreadInfo
}.

Record ZombieOwner_t := {
  PID : ULONG_PTR;
  sProcessImagePath : wstring;
  sExeName : wstring;
  pServiceList : option (list ServiceLookupByPID.ServiceNames_t);
  zombieOwningInfo : list ZombieOwningInfo
}.

Abbreviation ZombieOwnersCollection_t := (gmap Z ZombieOwner_t) (only parsing).

(** The sorted view is a vector of pointers to the nodes of [m_owners].  A
    pointer is modelled by the node contents read through it.  Within a run
    the nodes do not change once the pointers are taken.  A pointer left over
    from an earlier run dangles, its node destroyed by m_owners.clear(); the
    model reads it as the node it once pointed at. *)
Abbreviation ZombieOwnersCollectionSorted_t := (list ZombieOwner_t) (only parsing).

Record t := {
  m_owners : ZombieOwnersCollection_t;
  m_ownersSorted : ZombieOwnersCollectionSorted_t;
  m_unexplained : ZombieProcessThreadInfoList_t;
  m_processEnumErrors : ProcessEnumErrorInfoList_t;
  m_nZombieProcessesAndThreads : size_t;
  m_nZombieProcesses : size_t;
  m_nTotalProcesses : size_t
}.

(** A default-constructed object. *)
Definition fresh : t :=
  {| m_owners := ∅; m_ownersSorted := []; m_unexplained := [];
     m_processEnumErrors := [];
     m_nZombieProcessesAndThreads := 0; m_nZombieProcesses := 0; m_nTotalProcesses := 0 |}.

Definition OwnersCollection (o : t) := m_owners o.
Definition OwnersCollectionSorted (o : t) := m_ownersSorted o.
Definition UnexplainedZombies (o : t) := m_unexplained o.
Definition ProcessEnumErrors (o : t) := m_processEnumErrors o.
Definition ZombieProcessAndThreadCount (o : t) := m_nZombieProcessesAndThreads o.
Definition ZombieProcessCount (o : t) := m_nZombieProcesses o.
Definition TotalProcessCount (o : t) := m_nTotalProcesses o.

Definition held (p : ZombieOwner_t) : Z := Z.of_nat (length (zombieOwningInfo p)).

Definition ZombieOwnerComparator (towlower : wchar_t -> wchar_t)
    (pA pB : ZombieOwner_t) : bool :=
  if held pA =? held pB then
    let cmpResult := _wcsicmp towlower (sExeName pA) (sExeName pB) in
    if cmpResult =? 0 then PID pA <? PID pB
    else cmpResult <? 0
  else held pA >? held pB.

(** std::sort with a comparator: the result is a rearrangement in which no
    element is followed by one that the comparator puts before it.  The
    model merges, keeping [a] in front of [b] unless [comp b a]. *)
Definition std_sort {A} (comp : A -> A -> bool) (v : list A) : list A :=
  @merge_sort A (fun a b => comp b a = false)
    (fun a b => decide (comp b a = false)) v.

(** Everything a run asks of the system. *)
Record System := {
  towlower : wchar_t -> wchar_t;
  ImpersonateSelf : option DWORD;            (* None: TRUE; Some e: FALSE, last error e *)
  token : SecurityUtils.Token;
  GetCurrentProcessId : DWORD;
  zombies : ZombieHandles.Kernel;
  handles : AllHandlesSystemwide.Kernel;
  QueryFullProcessImageName : DWORD -> wstring + DWORD;
  GetFileNameFromFilePath : wstring -> wstring;
  services : gmap Z (list ServiceLookupByPID.ServiceNames_t);
  szTimestamp : wstring;
  CreateFileOutput : wstring -> bool
}.

(** The body of the first loop over the snapshot. *)
Definition self_resolution_step (a : AllHandlesSystemwide.t) (dwCurrPID : DWORD)
    (zombieHandleLookup : ZombieHandleLookup_t)
    (zombieObjectAddrLookup : ZombieObjectAddrLookup_t) (ix : ULONG_PTR)
  : ZombieObjectAddrLookup_t :=
  match AllHandlesSystemwide.read a ix with
  | Some pHandleInfo =>
      if NtInternal.UniqueProcessId pHandleInfo =? dwCurrPID then
        match zombieHandleLookup !! NtInternal.HandleValue pHandleInfo with
        | Some z => <[NtInternal.Object pHandleInfo := z]> zombieObjectAddrLookup
        | None => zombieObjectAddrLookup
        end
      else zombieObjectAddrLookup
  | None => zombieObjectAddrLookup
  end.

(** Pass 1: the object addresses behind the handles that ZombieHandles
    opened in this process. *)
Definition self_resolution (a : AllHandlesSystemwide.t) (dwCurrPID : DWORD)
    (zombieHandleLookup : ZombieHandleLookup_t) : ZombieObjectAddrLookup_t :=
  fold_left (self_resolution_step a dwCurrPID zombieHandleLookup)
    (seqZ 0 (AllHandlesSystemwide.NumberOfHandles a)) ∅.

(** The test of pass 2 that keeps an entry pointing at a zombie object. *)
Definition kept (dwCurrPID : DWORD) (zombieHandleLookup : ZombieHandleLookup_t)
    (pHandleInfo : SYSTEM_HANDLE_TABLE_ENTRY_INFO_EX) : bool :=
  negb (NtInternal.UniqueProcessId pHandleInfo =? dwCurrPID)
  || bool_decide (zombieHandleLookup !! NtInternal.HandleValue pHandleInfo = None).

(** The body of that test: record the handle under its owner. *)
Definition attribute (F : Formatting) (sys : System)
    (pHandleInfo : SYSTEM_HANDLE_TABLE_ENTRY_INFO_EX) (z : ZombieProcessThreadInfo)
    (st : ZombieOwnersCollection_t * ZombiePidLookup_t)
  : ZombieOwnersCollection_t * ZombiePidLookup_t :=
  let '(owners, zombiePidLookup) := st in
  let pid := NtInternal.UniqueProcessId pHandleInfo in
  let owners :=
    match owners !! pid with
    | None =>
        let path := (UtilityFunctions.GetImagePathFromPID F
                       (QueryFullProcessImageName sys) pid).2 in
        <[pid := {| PID := pid;
                    sProcessImagePath := path;
                    sExeName := GetFileNameFromFilePath sys path;
                    pServiceList :=
                      (ServiceLookupByPID.LookupServicesByPID (services sys) pid).2;
                    zombieOwningInfo := [] |}]> owners
    | Some _ => owners
    end in
  let owningInfo :=
    {| handleValue := NtInternal.HandleValue pHandleInfo; zombieInfo := z |} in
  let owners :=
    alter (fun o => {| PID := PID o;
                       sProcessImagePath := sProcessImagePath o;
                       sExeName := sExeName o;
                       pServiceList := pServiceList o;
                       zombieOwningInfo := zombieOwningInfo o ++ [owningInfo] |})
          pid owners in
  (owners, delete (ZombieInfo.PID z) zombiePidLookup).

(** The body of the second loop over the snapshot. *)
Definition attribution_step (F : Formatting) (sys : System) (a : AllHandlesSystemwide.t)
    (dwCurrPID : DWORD) (zombieHandleLookup : ZombieHandleLookup_t)
    (zombieObjectAddrLookup : ZombieObjectAddrLookup_t)
    (st : ZombieOwnersCollection_t * ZombiePidLookup_t) (ix : ULONG_PTR)
  : ZombieOwnersCollection_t * ZombiePidLookup_t :=
  match AllHandlesSystemwide.read a ix with
  | Some pHandleInfo =>
      match zombieObjectAddrLookup !! NtInternal.Object pHandleInfo with
      | Some z =>
          if kept dwCurrPID zombieHandleLookup pHandleInfo
          then attribute F sys pHandleInfo z st
          else st
      | None => st
      end
  | None => st
  end.

(** Pass 2. *)
Definition attribution (F : Formatting) (sys : System) (a : AllHandlesSystemwide.t)
    (dwCurrPID : DWORD) (zombieHandleLookup : ZombieHandleLookup_t)
    (zombieObjectAddrLookup : ZombieObjectAddrLookup_t)
    (st : ZombieOwnersCollection_t * ZombiePidLookup_t)
  : ZombieOwnersCollection_t * ZombiePidLookup_t :=
  fold_left
    (attribution_step F sys a dwCurrPID zombieHandleLookup zombieObjectAddrLookup)
    (seqZ 0 (AllHandlesSystemwide.NumberOfHandles a)) st.

(** The three diagnostic dumps: each one that cannot open its file leaves
    its message in sErrorInfo. *)
Definition diagnostic_dump (sys : System) (sDiagDirectory sErrorInfo : wstring) : wstring :=
  if Z.of_nat (length sDiagDirectory) >? 0 then
    let file (suffix : wstring) :=
      sDiagDirectory ++ L "\ZombieFinder_" ++ szTimestamp sys ++ suffix in
    let dump (who : wstring) szOutFile (sErrorInfo : wstring) :=
      if CreateFileOutput sys szOutFile then sErrorInfo
      else who ++ szOutFile ++ L " fails" in
    dump (L "DumpPIDtoServiceLookupInfo to ") (file (L "_Services.txt"))
      (dump (L "AllHandlesSystemwide::Dump to ") (file (L "_AllHandles.txt"))
         (dump (L "ZombieHandles::Dump to ") (file (L "_ZombieHandles.txt")) sErrorInfo))
  else sErrorInfo.

(** What a call hands back: the return value, sErrorInfo, the object and
    the calling thread. *)
Record Outcome := {
  retval : bool;
  sErrorInfo : wstring;
  object : t;
  thread : SecurityUtils.Thread
}.

Definition closing (th : SecurityUtils.Thread) (closed : list HANDLE) : SecurityUtils.Thread :=
  {| SecurityUtils.impersonating := SecurityUtils.impersonating th;
     SecurityUtils.debug_enabled := SecurityUtils.debug_enabled th;
     SecurityUtils.closed := closed |}.

(** [None] only when the handle snapshot's retry loop outlives the recorded
    answers of the kernel. *)
Definition Update_Impl (F : Formatting) (sys : System) (nAgeInSeconds : ULONGLONG)
    (sDiagDirectory : wstring) (o : t) (th : SecurityUtils.Thread) : option Outcome :=
  let acq :=
    ZombieHandles.AcquireNewHandlesToExistingZombies F (zombies sys) nAgeInSeconds
      ZombieHandles.fresh (SecurityUtils.closed th) in
  let zombieHandles := ZombieHandles.object acq in
  (* every return destroys the local ZombieHandles *)
  let th := closing th (ZombieHandles.destroy zombieHandles (ZombieHandles.out_closed acq)) in
  if negb (ZombieHandles.retval acq) then
    Some {| retval := false; sErrorInfo := ZombieHandles.sErrorInfo acq;
            object := {| m_owners := ∅; m_ownersSorted := m_ownersSorted o;
                         m_unexplained := [];
                         m_processEnumErrors := ZombieHandles.out_processEnumErrors acq;
                         m_nZombieProcessesAndThreads := 0;
                         m_nZombieProcesses := 0; m_nTotalProcesses := 0 |};
            thread := th |}
  else
    let zombieHandleLookup := ZombieHandles.ZombieHandleLookup zombieHandles in
    let counted owners sorted unexplained :=
      {| m_owners := owners; m_ownersSorted := sorted; m_unexplained := unexplained;
         m_processEnumErrors := ZombieHandles.out_processEnumErrors acq;
         m_nZombieProcessesAndThreads := Z.of_nat (size zombieHandleLookup);
         m_nZombieProcesses := ZombieHandles.ZombieProcessCount zombieHandles;
         m_nTotalProcesses := ZombieHandles.TotalProcessCount zombieHandles |} in
    match AllHandlesSystemwide.Update F (handles sys) AllHandlesSystemwide.fresh with
    | None => None
    | Some (false, sErrorInfo, _, _) =>
        Some {| retval := false; sErrorInfo := sErrorInfo;
                object := counted ∅ (m_ownersSorted o) []; thread := th |}
    | Some (true, sErrorInfo, allHandlesSystemwide, _) =>
        let dwCurrPID := GetCurrentProcessId sys in
        let zombieObjectAddrLookup :=
          self_resolution allHandlesSystemwide dwCurrPID zombieHandleLookup in
        let '(owners, zombiePidLookup) :=
          attribution F sys allHandlesSystemwide dwCurrPID zombieHandleLookup
            zombieObjectAddrLookup (∅, ZombieHandles.out_zombiePidLookup acq) in
        let sorted :=
          std_sort (ZombieOwnerComparator (towlower sys))
            (m_ownersSorted o ++ (map_to_list owners).*2) in
        let unexplained :=
          if Z.of_nat (size zombiePidLookup) >? 0
          then (map_to_list zombiePidLookup).*2 else [] in
        Some {| retval := true;
                sErrorInfo := diagnostic_dump sys sDiagDirectory sErrorInfo;
                object := counted owners sorted unexplained; thread := th |}
    end.

Definition Update (F : Formatting) (sys : System) (nAgeInSeconds : ULONGLONG)
    (sDiagDirectory : wstring) (o : t) (th : SecurityUtils.Thread) : option Outcome :=
  match ImpersonateSelf sys with
  | Some dwLastErr =>
      Some {| retval := false;
              sErrorInfo := L "ImpersonateSelf failed: " ++ SysErrorMessageWithCode F dwLastErr;
              object := o; thread := th |}
  | None =>
      let th := SecurityUtils.ImpersonateSelf th in
      match SecurityUtils.EnablePrivilege F (token sys) th with
      | (false, sPrivError, th) =>
          Some {| retval := false;
                  sErrorInfo :=
                    L "Cannot enable Debug Programs privilege. This program must be executed with administrative privileges."
                      ++ endl ++ sPrivError;
                  object := o; thread := th |}
      | (true, _, th) =>
          match Update_Impl F sys nAgeInSeconds sDiagDirectory o th with
          | None => None
          | Some r =>
              Some {| retval := retval r; sErrorInfo := sErrorInfo r; object := object r;
                      thread := SecurityUtils.RevertToSelf (thread r) |}
          end
      end
  end.

End ZombieOwners.

(** ** FullThreadReport *)

Module FullThreadReport.

Definition WAIT_OBJECT_0 : DWORD := 0.
Definition WAIT_TIMEOUT : DWORD := 258.

(** HasExited: the return value and the output parameter.  [dwRet] is what
    WaitForSingleObject answers; when the function fails, the output
    parameter keeps the value the caller gave it. *)
Definition HasExited (dwRet : DWORD) (bHasExited : bool) : bool * bool :=
  if dwRet =? WAIT_OBJECT_0 then (true, true)
  else if dwRet =? WAIT_TIMEOUT then (true, false)
  else (false, bHasExited).

(** OpenProcess(PROCESS_QUERY_INFORMATION) and the NtGetNextThread
    enumeration it allows: each thread handle with the answer of
    WaitForSingleObject on it. *)
Record ThreadQuery := {
  hProcessQI : HANDLE;
  threads : list (HANDLE * DWORD)
}.

(** One process yielded by NtGetNextProcess, with the answers to every
    question the loop body asks about it. *)
Record KProcess := {
  hThisProcess : HANDLE;
  ntStat : NTSTATUS;                            (* ProcessBasicInformation *)
  UniqueProcessId : ULONG_PTR;
  ProcessImageFileName : NTSTATUS * option wstring;  (* status; Buffer, None if null *)
  GetProcessHandleCount : option DWORD;         (* None: the call fails *)
  WaitForSingleObject : DWORD;
  OpenProcessQI : option ThreadQuery            (* None: OpenProcess returns nullptr *)
}.

Record Kernel := {
  ntdll : bool;
  NtGetNextProcess : bool;
  NtGetNextThread : bool;
  NtQueryInformationProcess : bool;
  processes : list KProcess;
  ntGNP : NTSTATUS
}.

(** A line of the report after the header, field by field; [counts] is
    [None] where the line shows "-" for the three thread counts. *)
Record Row := {
  PID : ULONG_PTR;
  sExeImagePath : wstring;
  bProcessHasExited : bool;
  counts : option (size_t * size_t * size_t);   (* active, exited, total *)
  dwHandleCount : DWORD
}.

(** The variables of the thread loop. *)
Record Threads := {
  nActiveThreads : size_t;
  nExitedThreads : size_t;
  nTotalThreads : size_t;
  hPrevThread : HANDLE;
  closed_threads : list HANDLE
}.

Definition count_thread (s : Threads) (t : HANDLE * DWORD) : Threads :=
  let '(hThisThread, dwRet) := t in
  let closed :=
    if negb (hPrevThread s =? 0) then closed_threads s ++ [hPrevThread s]
    else closed_threads s in
  let '(ok, bThreadHasExited) := HasExited dwRet false in
  {| nActiveThreads :=
       if ok && negb bThreadHasExited then wrap64 (nActiveThreads s + 1)
       else nActiveThreads s;
     nExitedThreads :=
       if ok && bThreadHasExited then wrap64 (nExitedThreads s + 1)
       else nExitedThreads s;
     nTotalThreads := wrap64 (nTotalThreads s + 1);
     hPrevThread := hThisThread;
     closed_threads := closed |}.

(** The variables of the process loop: the report so far, what went to
    std::wcerr, and the log of CloseHandle calls. *)
Record Loop := {
  nTotalProcesses : size_t;
  rows : list Row;
  wcerr : list wstring;
  hPrevProcess : HANDLE;
  closed : list HANDLE
}.

Definition visit (F : Formatting) (s : Loop) (p : KProcess) : Loop :=
  let closed :=
    if negb (hPrevProcess s =? 0) then closed s ++ [hPrevProcess s] else closed s in
  let nTotal := wrap64 (nTotalProcesses s + 1) in
  if negb (ntStat p =? STATUS_SUCCESS) then
    {| nTotalProcesses := nTotal;
       rows := rows s;
       wcerr := wcerr s ++
         [L "NtQueryInformationProcess returned " ++ HEX F (ntStat p)
            ++ L " during enumeration " ++ dec F nTotal ++ endl
            ++ SysErrorMessage F (ntStat p) ++ endl];
       hPrevProcess := hThisProcess p;
       closed := closed |}
  else
    let sExeImagePath :=
      if (ProcessImageFileName p).1 =? STATUS_SUCCESS then
        match (ProcessImageFileName p).2 with Some path => path | None => [] end
      else SysErrorMessageWithCode F (ProcessImageFileName p).1 in
    let dwHandleCount :=
      match GetProcessHandleCount p with Some n => n | None => 0 end in
    let bProcessHasExited := (HasExited (WaitForSingleObject p) false).2 in
    match OpenProcessQI p with
    | Some q =>
        let t :=
          fold_left count_thread (threads q)
            {| nActiveThreads := 0; nExitedThreads := 0; nTotalThreads := 0;
               hPrevThread := 0; closed_threads := closed |} in
        let closed :=
          if negb (hPrevThread t =? 0) then closed_threads t ++ [hPrevThread t]
          else closed_threads t in
        {| nTotalProcesses := nTotal;
           rows := rows s ++
             [{| PID := UniqueProcessId p; sExeImagePath := sExeImagePath;
                 bProcessHasExited := bProcessHasExited;
                 counts := Some (nActiveThreads t, nExitedThreads t, nTotalThreads t);
                 dwHandleCount := dwHandleCount |}];
           wcerr := wcerr s;
           hPrevProcess := hThisProcess p;
           closed := closed ++ [hProcessQI q] |}
    | None =>
        {| nTotalProcesses := nTotal;
           rows := rows s ++
             [{| PID := UniqueProcessId p; sExeImagePath := sExeImagePath;
                 bProcessHasExited := bProcessHasExited;
                 counts := None;
                 dwHandleCount := dwHandleCount |}];
           wcerr := wcerr s;
           hPrevProcess := hThisProcess p;
           closed := closed |}
    end.

(** What a call hands back: the return value, the lines of the report after
    the header, what went to std::wcerr, and the log of CloseHandle calls. *)
Record Report := {
  retval : bool;
  out_rows : list Row;
  out_wcerr : list wstring;
  out_closed : list HANDLE
}.

Definition FullThreadReport (F : Formatting) (k : Kernel) (closed : list HANDLE)
  : Report :=
  if negb (ntdll k) then
    {| retval := false; out_rows := [];
       out_wcerr := [L "Couldn't get module ntdll.dll" ++ endl];
       out_closed := closed |}
  else if negb (NtGetNextProcess k && NtGetNextThread k && NtQueryInformationProcess k)
  then
    {| retval := false; out_rows := [];
       out_wcerr := [L "ERROR: Unable to load functions from ntdll.dll" ++ endl];
       out_closed := closed |}
  else
    let s :=
      fold_left (visit F) (processes k)
        {| nTotalProcesses := 0; rows := []; wcerr := [];
           hPrevProcess := 0; closed := closed |} in
    let closed :=
      if negb (hPrevProcess s =? 0) then FullThreadReport.closed s ++ [hPrevProcess s]
      else FullThreadReport.closed s in
    let wcerr :=
      if negb (ntGNP k =? STATUS_NO_MORE_ENTRIES) then
        wcerr s ++
          [L "Process enumeration failed: NtGetNextProcess returned "
             ++ HEX F (ntGNP k) ++ L " after " ++ dec F (nTotalProcesses s)
             ++ L " iterations" ++ endl ++ SysErrorMessage F (ntGNP k) ++ endl]
      else wcerr s in
    {| retval := true; out_rows := rows s; out_wcerr := wcerr; out_closed := closed |}.

End FullThreadReport.

(** ** Sample systems

    Concrete answers of the operating system, used to run the model. *)

Module Samples.

Definition plain : Formatting :=
  {| SysErrorMessageWithCode := fun _ => L "error";
     SysErrorMessage := fun _ => L "error";
     HEX := fun _ => L "0x";
     dec := fun _ => L "n" |}.

Definition entry (pid handle object : Z) : SYSTEM_HANDLE_TABLE_ENTRY_INFO_EX :=
  {| NtInternal.Object := object;
     NtInternal.UniqueProcessId := pid;
     NtInternal.HandleValue := handle;
     NtInternal.GrantedAccess := 0x1000;
     NtInternal.CreatorBackTraceIndex := 0;
     NtInternal.ObjectTypeIndex := 7;
     NtInternal.HandleAttributes := 0;
     NtInternal.Reserved := 0 |}.

Definition table (es : list SYSTEM_HANDLE_TABLE_ENTRY_INFO_EX)
  : SYSTEM_HANDLE_INFORMATION_EX :=
  {| NtInternal.NumberOfHandles := Z.of_nat (length es);
     NtInternal.Reserved0 := 0;
     NtInternal.Handles := es |}.

Definition heap_ok : HeapMem.Heap :=
  {| HeapMem.GetProcessHeap := None; HeapMem.HeapFree := None |}.

(** A snapshot that needs [size] bytes and is delivered at the first data
    query. *)
Definition snapshot (size : ULONG) (es : list SYSTEM_HANDLE_TABLE_ENTRY_INFO_EX)
  : AllHandlesSystemwide.Kernel :=
  {| AllHandlesSystemwide.ntdll := true;
     AllHandlesSystemwide.NtQuerySystemInformation := true;
     AllHandlesSystemwide.heap := heap_ok;
     AllHandlesSystemwide.first_status := STATUS_INFO_LENGTH_MISMATCH;
     AllHandlesSystemwide.first_returnLength := size;
     AllHandlesSystemwide.data_calls :=
       [{| AllHandlesSystemwide.q_HeapAlloc := Some (table []);
           AllHandlesSystemwide.q_status := STATUS_SUCCESS;
           AllHandlesSystemwide.q_returnLength := size;
           AllHandlesSystemwide.q_written := table es |}] |}.

(** A snapshot whose size probe fails with STATUS_ACCESS_DENIED. *)
Definition snapshot_denied : AllHandlesSystemwide.Kernel :=
  {| AllHandlesSystemwide.ntdll := true;
     AllHandlesSystemwide.NtQuerySystemInformation := true;
     AllHandlesSystemwide.heap := heap_ok;
     AllHandlesSystemwide.first_status := 0xC0000022;
     AllHandlesSystemwide.first_returnLength := 0;
     AllHandlesSystemwide.data_calls := [] |}.

(** A snapshot whose size probe reports a requirement of 0xF0000000 bytes. *)
Definition snapshot_huge : AllHandlesSystemwide.Kernel :=
  {| AllHandlesSystemwide.ntdll := true;
     AllHandlesSystemwide.NtQuerySystemInformation := true;
     AllHandlesSystemwide.heap := heap_ok;
     AllHandlesSystemwide.first_status := STATUS_INFO_LENGTH_MISMATCH;
     AllHandlesSystemwide.first_returnLength := 0xF0000000;
     AllHandlesSystemwide.data_calls :=
       [{| AllHandlesSystemwide.q_HeapAlloc := Some (table []);
           AllHandlesSystemwide.q_status := STATUS_SUCCESS;
           AllHandlesSystemwide.q_returnLength := 0xF0000000;
           AllHandlesSystemwide.q_written := table [] |}] |}.

(** A snapshot whose data query fails with STATUS_ACCESS_DENIED, leaving in
    the buffer a header that counts five entries and no entry. *)
Definition snapshot_query_denied : AllHandlesSystemwide.Kernel :=
  {| AllHandlesSystemwide.ntdll := true;
     AllHandlesSystemwide.NtQuerySystemInformation := true;
     AllHandlesSystemwide.heap := heap_ok;
     AllHandlesSystemwide.first_status := STATUS_INFO_LENGTH_MISMATCH;
     AllHandlesSystemwide.first_returnLength := 400;
     AllHandlesSystemwide.data_calls :=
       [{| AllHandlesSystemwide.q_HeapAlloc := Some (table []);
           AllHandlesSystemwide.q_status := 0xC0000022;
           AllHandlesSystemwide.q_returnLength := 400;
           AllHandlesSystemwide.q_written :=
             {| NtInternal.NumberOfHandles := 5;
                NtInternal.Reserved0 := 0;
                NtInternal.Handles := [] |} |}] |}.

(** A snapshot that grows between the probe and the first data query. *)
Definition snapshot_growing : AllHandlesSystemwide.Kernel :=
  {| AllHandlesSystemwide.ntdll := true;
     AllHandlesSystemwide.NtQuerySystemInformation := true;
     AllHandlesSystemwide.heap := heap_ok;
     AllHandlesSystemwide.first_status := STATUS_INFO_LENGTH_MISMATCH;
     AllHandlesSystemwide.first_returnLength := 400;
     AllHandlesSystemwide.data_calls :=
       [{| AllHandlesSystemwide.q_HeapAlloc := Some (table []);
           AllHandlesSystemwide.q_status := STATUS_INFO_LENGTH_MISMATCH;
           AllHandlesSystemwide.q_returnLength := 1000;
           AllHandlesSystemwide.q_written := table [] |};
        {| AllHandlesSystemwide.q_HeapAlloc := Some (table []);
           AllHandlesSystemwide.q_status := STATUS_SUCCESS;
           AllHandlesSystemwide.q_returnLength := 1000;
           AllHandlesSystemwide.q_written := table [entry 4 8 0xAAAA] |}] |}.

(** An object holding a snapshot of one entry. *)
Definition held : AllHandlesSystemwide.t :=
  {| AllHandlesSystemwide.m_Mem :=
       {| HeapMem.m_pMem := Some (table [entry 4 8 0xAAAA]);
          HeapMem.m_nSize := 1250 |} |}.

(** An object holding a snapshot of two handles to the object at 0xAAAA:
    0x10 in process 7 and 0x44 in process 200. *)
Definition held_two : AllHandlesSystemwide.t :=
  {| AllHandlesSystemwide.m_Mem :=
       {| HeapMem.m_pMem := Some (table [entry 7 0x10 0xAAAA; entry 200 0x44 0xAAAA]);
          HeapMem.m_nSize := 5120 |} |}.

Definition second : Z := 10000000.
Definition now : ULONGLONG := 133000000000000000.

(** A process that is still running. *)
Definition running (h pid : Z) : ZombieHandles.KProcess :=
  {| ZombieHandles.hThisProcess := h;
     ZombieHandles.ntStat := STATUS_SUCCESS;
     ZombieHandles.IsProcessDeleting := false;
     ZombieHandles.UniqueProcessId := pid;
     ZombieHandles.InheritedFromUniqueProcessId := 4;
     ZombieHandles.GetProcessTimes := Some (now - 1000 * second, 0);
     ZombieHandles.OpenParent := None;
     ZombieHandles.ProcessImageFileName := None;
     ZombieHandles.OpenProcessQI := None |}.

(** A process that exited [ago] seconds ago and has no thread left. *)
Definition exited (h pid ago : Z) : ZombieHandles.KProcess :=
  {| ZombieHandles.hThisProcess := h;
     ZombieHandles.ntStat := STATUS_SUCCESS;
     ZombieHandles.IsProcessDeleting := true;
     ZombieHandles.UniqueProcessId := pid;
     ZombieHandles.InheritedFromUniqueProcessId := 4;
     ZombieHandles.GetProcessTimes := Some (now - 1000 * second, now - ago * second);
     ZombieHandles.OpenParent := None;
     ZombieHandles.ProcessImageFileName := Some (L "\Device\HarddiskVolume3\p.exe");
     ZombieHandles.OpenProcessQI :=
       Some {| ZombieHandles.hProcessQI := h + 4; ZombieHandles.threads := [] |} |}.

(** A process that exited [ago] seconds ago and has the threads [ths] left;
    its parent, opened as handle [h + 8], is still running. *)
Definition lingering (h pid ago : Z) (ths : list (HANDLE * DWORD))
  : ZombieHandles.KProcess :=
  {| ZombieHandles.hThisProcess := h;
     ZombieHandles.ntStat := STATUS_SUCCESS;
     ZombieHandles.IsProcessDeleting := true;
     ZombieHandles.UniqueProcessId := pid;
     ZombieHandles.InheritedFromUniqueProcessId := 4;
     ZombieHandles.GetProcessTimes := Some (now - 1000 * second, now - ago * second);
     ZombieHandles.OpenParent :=
       Some {| UtilityFunctions.hProcess := h + 8;
               UtilityFunctions.ftCreateTime := Some (now - 2000 * second);
               UtilityFunctions.szImagePath := Some (L "C:\Windows\explorer.exe") |};
     ZombieHandles.ProcessImageFileName := Some (L "\Device\HarddiskVolume3\p.exe");
     ZombieHandles.OpenProcessQI :=
       Some {| ZombieHandles.hProcessQI := h + 4; ZombieHandles.threads := ths |} |}.

(** An enumeration of three processes, the second a zombie with two threads. *)
Definition three_processes : list ZombieHandles.KProcess :=
  [running 0xC 7; lingering 0x10 100 10 [(0x20, 501); (0x24, 502)]; running 0x30 9].

Definition enumeration (ps : list ZombieHandles.KProcess) : ZombieHandles.Kernel :=
  {| ZombieHandles.ntdll := true;
     ZombieHandles.NtGetNextProcess := true;
     ZombieHandles.NtGetNextThread := true;
     ZombieHandles.NtQueryInformationProcess := true;
     ZombieHandles.ulNow := now;
     ZombieHandles.processes := ps;
     ZombieHandles.ntGNP := STATUS_NO_MORE_ENTRIES |}.

(** The record discovery makes of process 100 as [exited] describes it. *)
Definition zombie100 (ago : Z) : ZombieProcessThreadInfo :=
  {| ZombieInfo.PID := 100;
     ZombieInfo.TID := 0;
     ZombieInfo.sImagePath := L "\Device\HarddiskVolume3\p.exe";
     ZombieInfo.createTime := now - 1000 * second;
     ZombieInfo.exitTime := now - ago * second;
     ZombieInfo.nThreads := 0;
     ZombieInfo.ParentPID := 4;
     ZombieInfo.sParentImagePath := [] |}.

(** Discovery's handle lookup, and the address lookup of pass 1, when
    handle 0x10 is discovery's handle to process 100 at 0xAAAA. *)
Definition lookup100 : gmap Z ZombieProcessThreadInfo := {[ 0x10 := zombie100 10 ]}.
Definition addr100 : gmap Z ZombieProcessThreadInfo := {[ 0xAAAA := zombie100 10 ]}.

Definition token_ok : SecurityUtils.Token :=
  {| SecurityUtils.OpenThreadToken := inl 0x30;
     SecurityUtils.LookupPrivilegeValueW := (true, 0);
     SecurityUtils.AdjustTokenPrivileges := (true, 0) |}.

(** AdjustTokenPrivileges answers ERROR_NOT_ALL_ASSIGNED: the caller is not
    an administrator. *)
Definition token_not_admin : SecurityUtils.Token :=
  {| SecurityUtils.OpenThreadToken := inl 0x30;
     SecurityUtils.LookupPrivilegeValueW := (true, 0);
     SecurityUtils.AdjustTokenPrivileges := (true, 1300) |}.

Definition system (tk : SecurityUtils.Token) (zs : ZombieHandles.Kernel)
    (hs : AllHandlesSystemwide.Kernel) : ZombieOwners.System :=
  {| ZombieOwners.towlower := towlower_C;
     ZombieOwners.ImpersonateSelf := None;
     ZombieOwners.token := tk;
     ZombieOwners.GetCurrentProcessId := 7;
     ZombieOwners.zombies := zs;
     ZombieOwners.handles := hs;
     ZombieOwners.QueryFullProcessImageName := fun pid => inl (L "C:\bin\q.exe");
     ZombieOwners.GetFileNameFromFilePath := fun path => L "q.exe";
     ZombieOwners.services := ∅;
     ZombieOwners.szTimestamp := L "20240101_000000";
     ZombieOwners.CreateFileOutput := fun _ => true |}.

Definition thread0 : SecurityUtils.Thread :=
  {| SecurityUtils.impersonating := false;
     SecurityUtils.debug_enabled := false;
     SecurityUtils.closed := [] |}.

(** Process 100 exited ten seconds ago; discovery (process 7) opens handle
    0x10 to it; process 200 holds handle 0x44 to the same object. *)
Definition one_owner : ZombieOwners.System :=
  system token_ok
    (enumeration [running 0xC 7; exited 0x10 100 10; running 0x18 200])
    (snapshot 4096 [entry 7 0x10 0xAAAA; entry 200 0x44 0xAAAA; entry 200 0x48 0xBBBB]).

(** The same zombie, but nobody else holds a handle to its object. *)
Definition no_owner : ZombieOwners.System :=
  system token_ok
    (enumeration [running 0xC 7; exited 0x10 100 10; running 0x18 200])
    (snapshot 4096 [entry 7 0x10 0xAAAA; entry 200 0x48 0xBBBB]).


(** Discovery succeeds, the handle snapshot does not. *)
Definition snapshot_fails : ZombieOwners.System :=
  system token_ok
    (enumeration [running 0xC 7; exited 0x10 100 10; running 0x18 200])
    snapshot_denied.

(** The Debug Programs privilege cannot be enabled. *)
Definition not_admin : ZombieOwners.System :=
  system token_not_admin (enumeration []) (snapshot 4096 []).

(** A service control manager reporting three active services, two of them
    hosted by process 500. *)
Definition service (name : string) (pid : Z)
  : ServiceLookupByPID.ENUM_SERVICE_STATUS_PROCESSW :=
  {| ServiceLookupByPID.lpServiceName := L name;
     ServiceLookupByPID.lpDisplayName := L name;
     ServiceLookupByPID.dwProcessId := pid |}.

Definition names (name : string) : ServiceLookupByPID.ServiceNames_t :=
  {| ServiceLookupByPID.sServiceName := L name;
     ServiceLookupByPID.sDisplayName := L name |}.

Definition scm : ServiceLookupByPID.SCM :=
  {| ServiceLookupByPID.OpenSCManagerW := true;
     ServiceLookupByPID.first_cbBytesNeeded := 3000;
     ServiceLookupByPID.first_GetLastError := ServiceLookupByPID.ERROR_MORE_DATA;
     ServiceLookupByPID.EnumServicesStatusExW := fun cb =>
       if cb <? 3000 then None
       else Some [service "Dhcp" 500; service "Spooler" 600; service "Dnscache" 500] |}.

(** Two processes for the thread report: process 7 with a running and an
    exited thread, and process 9, which cannot be opened for its threads. *)
Definition reported : FullThreadReport.Kernel :=
  {| FullThreadReport.ntdll := true;
     FullThreadReport.NtGetNextProcess := true;
     FullThreadReport.NtGetNextThread := true;
     FullThreadReport.NtQueryInformationProcess := true;
     FullThreadReport.processes :=
       [{| FullThreadReport.hThisProcess := 0xC;
           FullThreadReport.ntStat := STATUS_SUCCESS;
           FullThreadReport.UniqueProcessId := 7;
           FullThreadReport.ProcessImageFileName := (STATUS_SUCCESS, Some (L "a.exe"));
           FullThreadReport.GetProcessHandleCount := Some 40;
           FullThreadReport.WaitForSingleObject := FullThreadReport.WAIT_TIMEOUT;
           FullThreadReport.OpenProcessQI :=
             Some {| FullThreadReport.hProcessQI := 0x10;
                     FullThreadReport.threads :=
                       [(0x14, FullThreadReport.WAIT_TIMEOUT);
                        (0x18, FullThreadReport.WAIT_OBJECT_0)] |} |};
        {| FullThreadReport.hThisProcess := 0x1C;
           FullThreadReport.ntStat := STATUS_SUCCESS;
           FullThreadReport.UniqueProcessId := 9;
           FullThreadReport.ProcessImageFileName := (STATUS_SUCCESS, None);
           FullThreadReport.GetProcessHandleCount := None;
           FullThreadReport.WaitForSingleObject := FullThreadReport.WAIT_OBJECT_0;
           FullThreadReport.OpenProcessQI := None |}];
     FullThreadReport.ntGNP := STATUS_NO_MORE_ENTRIES |}.

End Samples.

(** ** Vocabulary of the properties *)

Module Props.

(** The header count of the buffer (if one is held) does not exceed the
    entries the buffer has room for: what the kernel guarantees for a
    snapshot it has written. *)
Definition consistent (a : AllHandlesSystemwide.t) : Prop :=
  forall b, AllHandlesSystemwide.Get a = Some b ->
    0 <= NtInternal.NumberOfHandles b <= Z.of_nat (length (NtInternal.Handles b)).

(** Every length the kernel reports fits a ULONG. *)
Definition ulong (r : Z) : Prop := 0 <= r < 2 ^ 32.

Definition ulong_answers (k : AllHandlesSystemwide.Kernel) : Prop :=
  ulong (AllHandlesSystemwide.first_returnLength k)
  /\ Forall (fun c => ulong (AllHandlesSystemwide.q_returnLength c))
            (AllHandlesSystemwide.data_calls k).

(** A data query whose buffer is exactly 25% larger than the requirement
    reported before it, without wrap-around. *)
Definition roomy (q : AllHandlesSystemwide.Query) : Prop :=
  AllHandlesSystemwide.required q <= AllHandlesSystemwide.allocated q
  /\ AllHandlesSystemwide.allocated q
     = AllHandlesSystemwide.required q + AllHandlesSystemwide.required q / 4
  /\ AllHandlesSystemwide.allocated q < 2 ^ 32.

(** The requirement in force at each data query: the size probe's answer
    for the first, the previous data query's answer for the others. *)
Definition reported (k : AllHandlesSystemwide.Kernel) : list Z :=
  AllHandlesSystemwide.first_returnLength k
    :: (AllHandlesSystemwide.q_returnLength <$> AllHandlesSystemwide.data_calls k).

(** Owner [owner] holds the pair [i] in the collection [owners]. *)
Definition holds (owners : gmap Z ZombieOwners.ZombieOwner_t)
    (owner : Z) (i : ZombieOwners.ZombieOwningInfo) : Prop :=
  exists o, owners !! owner = Some o /\ i ∈ ZombieOwners.zombieOwningInfo o.

(** The pair that pass 2 records for snapshot entry [e] pointing at the
    object of zombie [z]. *)
Definition pair_of (e : SYSTEM_HANDLE_TABLE_ENTRY_INFO_EX) (z : ZombieProcessThreadInfo)
  : ZombieOwners.ZombieOwningInfo :=
  {| ZombieOwners.handleValue := NtInternal.HandleValue e;
     ZombieOwners.zombieInfo := z |}.

(** Entry [e], one of those at the indices [ixs] of the snapshot, points at
    the object of zombie [z] and passes the test of pass 2. *)
Definition kept_entry (a : AllHandlesSystemwide.t) (dwCurrPID : Z)
    (zombieHandleLookup zombieObjectAddrLookup : gmap Z ZombieProcessThreadInfo)
    (ixs : list Z) (e : SYSTEM_HANDLE_TABLE_ENTRY_INFO_EX)
    (z : ZombieProcessThreadInfo) : Prop :=
  exists ix, ix ∈ ixs
    /\ AllHandlesSystemwide.read a ix = Some e
    /\ zombieObjectAddrLookup !! NtInternal.Object e = Some z
    /\ ZombieOwners.kept dwCurrPID zombieHandleLookup e = true.

(** Discovery's own reference: held by the discovery process under a handle
    value that is in discovery's handle lookup. *)
Definition own_reference (dwCurrPID : Z)
    (zombieHandleLookup : gmap Z ZombieProcessThreadInfo)
    (e : SYSTEM_HANDLE_TABLE_ENTRY_INFO_EX) : Prop :=
  NtInternal.UniqueProcessId e = dwCurrPID
  /\ is_Some (zombieHandleLookup !! NtInternal.HandleValue e).

(** Zombie process [pid] is the zombie of some pair of some owner. *)
Definition attributed (owners : gmap Z ZombieOwners.ZombieOwner_t) (pid : Z) : Prop :=
  exists owner i, holds owners owner i
    /\ ZombieInfo.PID (ZombieOwners.zombieInfo i) = pid.

(** Zombie process [pid] is in the unexplained list. *)
Definition unexplained (l : list ZombieProcessThreadInfo) (pid : Z) : Prop :=
  exists z, z ∈ l /\ ZombieInfo.PID z = pid.

(** The zombie process ids that discovery finds. *)
Definition discovered (F : Formatting) (sys : ZombieOwners.System)
    (nAgeInSeconds : Z) : gset Z :=
  dom (ZombieHandles.out_zombiePidLookup
         (ZombieHandles.AcquireNewHandlesToExistingZombies F
            (ZombieOwners.zombies sys) nAgeInSeconds ZombieHandles.fresh [])).

(** A property of every record in the two lookups of the enumeration loop. *)
Definition lookups (P : ZombieProcessThreadInfo -> Prop) (s : ZombieHandles.Loop) : Prop :=
  map_Forall (fun _ z => P z) (ZombieHandles.m_ZombieHandleLookup (ZombieHandles.self s))
  /\ map_Forall (fun _ z => P z) (ZombieHandles.zombiePidLookup s).

(** Each discovered process id is the key of its own record, and every
    handle in the handle lookup belongs to a discovered process. *)
Definition keyed (s : ZombieHandles.Loop) : Prop :=
  (forall pid z, ZombieHandles.zombiePidLookup s !! pid = Some z -> ZombieInfo.PID z = pid)
  /\ (forall h z,
        ZombieHandles.m_ZombieHandleLookup (ZombieHandles.self s) !! h = Some z ->
        is_Some (ZombieHandles.zombiePidLookup s !! ZombieInfo.PID z)).

(** The state in which pass 2 ends when it is given what discovery finds
    and the snapshot [a]. *)
Definition correlated (F : Formatting) (sys : ZombieOwners.System) (nAgeInSeconds : Z)
    (a : AllHandlesSystemwide.t)
  : gmap Z ZombieOwners.ZombieOwner_t * gmap Z ZombieProcessThreadInfo :=
  let acq :=
    ZombieHandles.AcquireNewHandlesToExistingZombies F (ZombieOwners.zombies sys)
      nAgeInSeconds ZombieHandles.fresh [] in
  let zhl := ZombieHandles.m_ZombieHandleLookup (ZombieHandles.object acq) in
  ZombieOwners.attribution F sys a (ZombieOwners.GetCurrentProcessId sys) zhl
    (ZombieOwners.self_resolution a (ZombieOwners.GetCurrentProcessId sys) zhl)
    (∅, ZombieHandles.out_zombiePidLookup acq).



(** Nothing of a run can be observed. *)
Definition no_results (o : ZombieOwners.t) : Prop :=
  ZombieOwners.OwnersCollection o = ∅
  /\ ZombieOwners.OwnersCollectionSorted o = []
  /\ ZombieOwners.UnexplainedZombies o = []
  /\ ZombieOwners.TotalProcessCount o = 0
  /\ ZombieOwners.ZombieProcessCount o = 0
  /\ ZombieOwners.ZombieProcessAndThreadCount o = 0.

(** The age requirement on a discovered record. *)
Definition aged (nAgeInSeconds ulNow : Z) (z : ZombieProcessThreadInfo) : Prop :=
  ZombieInfo.exitTime z <> 0
  /\ (nAgeInSeconds = 0
      \/ (ZombieInfo.exitTime z < ulNow
          /\ nAgeInSeconds <= (ulNow - ZombieInfo.exitTime z) / 10000000)).

(** Times as the kernel hands them out: unsigned 64-bit. *)
Definition ulonglong (t : Z) : Prop := 0 <= t < 2 ^ 64.

Definition ulonglong_times (k : ZombieHandles.Kernel) : Prop :=
  ulonglong (ZombieHandles.ulNow k)
  /\ Forall (fun p => forall c e, ZombieHandles.GetProcessTimes p = Some (c, e) -> ulonglong e)
            (ZombieHandles.processes k).

(** ** Vocabulary of the further properties *)

(** No block held means no size recorded. *)
Definition tidy (m : HeapMem.t) : Prop :=
  HeapMem.m_pMem m = None -> HeapMem.m_nSize m = 0.

(** The loop body of discovery records process [p] as a zombie. *)
Definition is_zombie (nAgeInSeconds ulNow : Z) (p : ZombieHandles.KProcess) : bool :=
  (ZombieHandles.ntStat p =? STATUS_SUCCESS)
  && ZombieHandles.IsProcessDeleting p
  && match ZombieHandles.GetProcessTimes p with
     | Some (_, ulExitTime) =>
         negb (ulExitTime =? 0)
         && ZombieHandles.old_enough nAgeInSeconds ulNow ulExitTime
     | None => false
     end.

(** The basic-information query of process [p] fails. *)
Definition query_fails (p : ZombieHandles.KProcess) : bool :=
  negb (ZombieHandles.ntStat p =? STATUS_SUCCESS).

(** The thread handles discovery gets for a zombie. *)
Definition thread_handles (p : ZombieHandles.KProcess) : list Z :=
  match ZombieHandles.OpenProcessQI p with
  | Some q => (ZombieHandles.threads q).*1
  | None => []
  end.

(** The handles discovery opens for a zombie only to close them again. *)
Definition scratch_handles (p : ZombieHandles.KProcess) : list Z :=
  match ZombieHandles.OpenParent p with
  | Some q => [UtilityFunctions.hProcess q]
  | None => []
  end
  ++ match ZombieHandles.OpenProcessQI p with
     | Some q => [ZombieHandles.hProcessQI q]
     | None => []
     end.

(** The record discovery files under the process handle of zombie [p]. *)
Definition describes (p : ZombieHandles.KProcess) (z : ZombieProcessThreadInfo) : Prop :=
  ZombieInfo.PID z = ZombieHandles.UniqueProcessId p
  /\ ZombieInfo.TID z = 0
  /\ ZombieInfo.ParentPID z = ZombieHandles.InheritedFromUniqueProcessId p
  /\ ZombieHandles.GetProcessTimes p
     = Some (ZombieInfo.createTime z, ZombieInfo.exitTime z)
  /\ ZombieInfo.nThreads z = wrap32 (Z.of_nat (length (thread_handles p)))
  /\ ZombieInfo.sImagePath z
     = match ZombieHandles.ProcessImageFileName p with Some path => path | None => [] end.

(** An owner record as pass 2 builds it for process [pid]. *)
Definition owner_of (F : Formatting) (sys : ZombieOwners.System) (pid : Z)
    (o : ZombieOwners.ZombieOwner_t) : Prop :=
  ZombieOwners.PID o = pid
  /\ ZombieOwners.sProcessImagePath o
     = (UtilityFunctions.GetImagePathFromPID F
          (ZombieOwners.QueryFullProcessImageName sys) pid).2
  /\ ZombieOwners.sExeName o
     = ZombieOwners.GetFileNameFromFilePath sys (ZombieOwners.sProcessImagePath o)
  /\ ZombieOwners.pServiceList o = ZombieOwners.services sys !! pid.

(** The threads NtGetNextThread yields for process [p]. *)
Definition threads_of (p : ZombieHandles.KProcess) : list (Z * Z) :=
  match ZombieHandles.OpenProcessQI p with
  | Some q => ZombieHandles.threads q
  | None => []
  end.

(** The process handle that the next iteration of the enumeration loop (or
    the code after the loop) closes. *)
Definition pending (s : ZombieHandles.Loop) : list Z :=
  if ZombieHandles.bClosePrevProcess s && negb (ZombieHandles.hPrevProcess s =? 0)
  then [ZombieHandles.hPrevProcess s] else [].

(** The handles discovery is handed while it visits process [p], and those
    of them it means to keep. *)
Definition opened_by (nAgeInSeconds ulNow : Z) (p : ZombieHandles.KProcess) : list Z :=
  ZombieHandles.hThisProcess p
    :: (if is_zombie nAgeInSeconds ulNow p
        then scratch_handles p ++ thread_handles p else []).

Definition retained_by (nAgeInSeconds ulNow : Z) (p : ZombieHandles.KProcess) : list Z :=
  if is_zombie nAgeInSeconds ulNow p
  then thread_handles p ++ [ZombieHandles.hThisProcess p] else [].

(** The record discovery files under the handle of thread [tid] of zombie
    [p]; the record it starts from, before the thread loop, has [tid = 0]. *)
Definition thread_of (p : ZombieHandles.KProcess) (tid : Z)
    (z : ZombieProcessThreadInfo) : Prop :=
  ZombieInfo.PID z = ZombieHandles.UniqueProcessId p
  /\ ZombieInfo.TID z = tid
  /\ ZombieInfo.ParentPID z = ZombieHandles.InheritedFromUniqueProcessId p
  /\ ZombieHandles.GetProcessTimes p
     = Some (ZombieInfo.createTime z, ZombieInfo.exitTime z)
  /\ ZombieInfo.nThreads z = 0
  /\ ZombieInfo.sImagePath z
     = match ZombieHandles.ProcessImageFileName p with Some path => path | None => [] end.

(** The names of the services of [services] hosted by process [pid], in
    the order of the enumeration. *)
Definition hosted (services : list ServiceLookupByPID.ENUM_SERVICE_STATUS_PROCESSW)
    (pid : Z) : list ServiceLookupByPID.ServiceNames_t :=
  (fun svc => {| ServiceLookupByPID.sServiceName := ServiceLookupByPID.lpServiceName svc;
                 ServiceLookupByPID.sDisplayName := ServiceLookupByPID.lpDisplayName svc |})
    <$> List.filter (fun svc => ServiceLookupByPID.dwProcessId svc =? pid) services.

(** Neither of two owners is put before the other. *)
Definition tied (towlower : Z -> Z) (pA pB : ZombieOwners.ZombieOwner_t) : Prop :=
  ZombieOwners.ZombieOwnerComparator towlower pA pB = false
  /\ ZombieOwners.ZombieOwnerComparator towlower pB pA = false.

(** The handles FullThreadReport is given while it visits process [p], in
    the order in which it closes them. *)
Definition report_handles (p : FullThreadReport.KProcess) : list Z :=
  (if FullThreadReport.ntStat p =? STATUS_SUCCESS then
     match FullThreadReport.OpenProcessQI p with
     | Some q => (FullThreadReport.threads q).*1 ++ [FullThreadReport.hProcessQI q]
     | None => []
     end
   else [])
  ++ [FullThreadReport.hThisProcess p].

(** The threads of [q] on which WaitForSingleObject answers [dwRet]. *)
Definition waiting (dwRet : Z) (q : FullThreadReport.ThreadQuery) : list (Z * Z) :=
  List.filter (fun t => t.2 =? dwRet) (FullThreadReport.threads q).

(** The line of the report for process [p] shows the thread counts [c]. *)
Definition counted (p : FullThreadReport.KProcess) (c : option (Z * Z * Z)) : Prop :=
  match FullThreadReport.OpenProcessQI p with
  | None => c = None
  | Some q =>
      c = Some (wrap64 (Z.of_nat (length (waiting FullThreadReport.WAIT_TIMEOUT q))),
                wrap64 (Z.of_nat (length (waiting FullThreadReport.WAIT_OBJECT_0 q))),
                wrap64 (Z.of_nat (length (FullThreadReport.threads q))))
  end.

(** Row [r] is the line of the report for process [p]. *)
Definition row_for (p : FullThreadReport.KProcess) (r : FullThreadReport.Row) : Prop :=
  FullThreadReport.PID r = FullThreadReport.UniqueProcessId p
  /\ counted p (FullThreadReport.counts r)
  /\ FullThreadReport.bProcessHasExited r
     = (FullThreadReport.WaitForSingleObject p =? FullThreadReport.WAIT_OBJECT_0)
  /\ FullThreadReport.dwHandleCount r
     = match FullThreadReport.GetProcessHandleCount p with Some n => n | None => 0 end.

(** The handles given for process [p] are not null. *)
Definition report_nonnull (p : FullThreadReport.KProcess) : Prop :=
  FullThreadReport.hThisProcess p <> 0
  /\ forall q, FullThreadReport.OpenProcessQI p = Some q ->
       Forall (fun h => h <> 0) (FullThreadReport.threads q).*1.

End Props.

(** * Properties *)

(** ** The handle snapshot *)

Section Snapshot.

Import AllHandlesSystemwide.
Variable F : Formatting.


Lemma next_size_exact r :
  Props.ulong r -> (wrap32 (r + r / 4) <? r) = false ->
  wrap32 (r + r / 4) = r + r / 4 /\ r + r / 4 < 2 ^ 32.
Proof.
  unfold Props.ulong, wrap32. intros Hr Hcmp. apply Z.ltb_ge in Hcmp.
  assert (Hq : 0 <= r / 4 < 2 ^ 30).
  { split; [apply Z.div_pos; lia | apply Z.div_lt_upper_bound; lia]. }
  destruct (Z_lt_ge_dec (r + r / 4) (2 ^ 32)) as [Hlt | Hge].
  - split; [apply Z.mod_small; lia | lia].
  - exfalso.
    assert (Hm : (r + r / 4) mod 2 ^ 32 = r + r / 4 - 2 ^ 32).
    { symmetry. apply (Z.mod_unique _ _ 1); lia. }
    lia.
Qed.

Lemma next_size_wraps r :
  Props.ulong r -> 2 ^ 32 <= r + r / 4 -> (wrap32 (r + r / 4) <? r) = true.
Proof.
  unfold Props.ulong, wrap32. intros Hr Hge. apply Z.ltb_lt.
  assert (Hq : 0 <= r / 4 < 2 ^ 30).
  { split; [apply Z.div_pos; lia | apply Z.div_lt_upper_bound; lia]. }
  assert (Hm : (r + r / 4) mod 2 ^ 32 = r + r / 4 - 2 ^ 32).
  { symmetry. apply (Z.mod_unique _ _ 1); lia. }
  lia.
Qed.

Lemma Alloc_succeeds h ha n m e m' :
  HeapMem.Alloc F h ha n m = (true, e, m') ->
  HeapMem.m_nSize m' = n /\ HeapMem.m_pMem m' = ha /\ ha <> None.
Proof.
  unfold HeapMem.Alloc.
  destruct (HeapMem.Dealloc F h m) as [[[] e1] m1]; [|discriminate].
  destruct (HeapMem.ProcessHeap F h e1) as [[] e2]; [|discriminate].
  destruct ha; [|discriminate].
  intros H. inversion H; subst. simpl. repeat split; discriminate.
Qed.

(** What one run of the loop adds to the record of data queries. *)
Lemma Update_loop_queries h calls : forall r a qs ret err a' qs',
  Props.ulong r ->
  Forall (fun c => Props.ulong (q_returnLength c)) calls ->
  Update_loop F h calls r a qs = Some (ret, err, a', qs') ->
  exists new,
    qs' = qs ++ new
    /\ Forall Props.roomy new
    /\ required <$> new = take (length new) (r :: (q_returnLength <$> calls))
    /\ (ret = true ->
        exists q, last new = Some q
          /\ HeapMem.Size (m_Mem a') = allocated q).
Proof.
  induction calls as [|call calls IH]; intros r a qs ret err a' qs' Hr Hcalls;
    cbn [Update_loop].
  - destruct (wrap32 (r + r / 4) <? r); [|discriminate].
    intros [= <- <- <- <-]. exists []. rewrite app_nil_r.
    repeat split; [constructor | discriminate].
  - destruct (wrap32 (r + r / 4) <? r) eqn:Hcmp.
    { intros [= <- <- <- <-]. exists []. rewrite app_nil_r.
      repeat split; [constructor | discriminate]. }
    destruct (next_size_exact r Hr Hcmp) as [Hexact Hsmall].
    apply Z.ltb_ge in Hcmp.
    destruct (HeapMem.Alloc F h (q_HeapAlloc call) (wrap32 (r + r / 4))
                (m_Mem (Clear F h a))) as [[[] e] m] eqn:Halloc.
    2:{ intros [= <- <- <- <-]. exists []. rewrite app_nil_r.
        repeat split; [constructor | discriminate]. }
    apply Alloc_succeeds in Halloc as (Hsize & _ & _).
    set (q := {| allocated := wrap32 (r + r / 4); required := r |}).
    assert (Hq : Props.roomy q) by (unfold Props.roomy, q; simpl; lia).
    inversion Hcalls as [|? ? Hcall Hrest]; subst.
    destruct (q_status call =? STATUS_SUCCESS).
    { intros [= <- <- <- <-]. exists [q].
      repeat split; [by constructor|].
      intros _. exists q. by split. }
    destruct (q_status call =? STATUS_INFO_LENGTH_MISMATCH).
    2:{ intros [= <- <- <- <-]. exists [q].
        repeat split; [by constructor | discriminate]. }
    intros Hloop.
    destruct (IH _ _ _ _ _ _ _ Hcall Hrest Hloop) as (new & -> & Hnew & Hreq & Hlast).
    exists (q :: new). split; [by rewrite <- app_assoc|].
    split; [by constructor|]. split.
    { rewrite !fmap_cons. cbn [length take]. f_equal.
      exact Hreq. }
    intros Hret. destruct (Hlast Hret) as (q' & Hq' & Hsz).
    exists q'. split; [|done].
    destruct new; [discriminate|]. done.
Qed.

(** The loop stops with the overflow error, and no new buffer, whenever the
    next size does not fit a ULONG. *)
Lemma Update_loop_overflow h calls r a qs :
  Props.ulong r -> 2 ^ 32 <= r + r / 4 ->
  Update_loop F h calls r a qs
  = Some (false, L "Unable to allocate memory: integer overflow", Clear F h a, qs).
Proof.
  intros Hr Hge. destruct calls; cbn [Update_loop]; by rewrite (next_size_wraps r Hr Hge).
Qed.



End Snapshot.

(** C8.  In the retry loop of AllHandlesSystemwide::Update every data query
    is made with a buffer that is at least as large as the requirement the
    kernel reported last (the size probe's answer for the first query, the
    previous query's answer afterwards): it is exactly that requirement plus a
    quarter, never a wrapped-around value.  So the buffer held after a
    successful run is at least the last reported requirement.  And when the
    size computation does not fit a ULONG, the loop returns failure with the
    message "Unable to allocate memory: integer overflow". *)
Theorem retry_loop_buffer_size (F : Formatting) (k : AllHandlesSystemwide.Kernel)
    (a : AllHandlesSystemwide.t) ret err a' qs :
  Props.ulong_answers k ->
  AllHandlesSystemwide.Update F k a = Some (ret, err, a', qs) ->
  Forall Props.roomy qs
  /\ AllHandlesSystemwide.required <$> qs = take (length qs) (Props.reported k)
  /\ (ret = true ->
      exists q, last qs = Some q
        /\ HeapMem.Size (AllHandlesSystemwide.m_Mem a') = AllHandlesSystemwide.allocated q
        /\ AllHandlesSystemwide.required q <= HeapMem.Size (AllHandlesSystemwide.m_Mem a'))
  /\ (forall calls r a0 qs0,
        Props.ulong r -> 2 ^ 32 <= r + r / 4 ->
        AllHandlesSystemwide.Update_loop F (AllHandlesSystemwide.heap k) calls r a0 qs0
        = Some (false, L "Unable to allocate memory: integer overflow",
                AllHandlesSystemwide.Clear F (AllHandlesSystemwide.heap k) a0, qs0)).
Proof.
  intros [Hfirst Hcalls] Hrun.
  cut (Forall Props.roomy qs
    /\ AllHandlesSystemwide.required <$> qs = take (length qs) (Props.reported k)
    /\ (ret = true ->
        exists q, last qs = Some q
          /\ HeapMem.Size (AllHandlesSystemwide.m_Mem a') = AllHandlesSystemwide.allocated q
          /\ AllHandlesSystemwide.required q <= HeapMem.Size (AllHandlesSystemwide.m_Mem a'))).
  { intros (HA & HB & HC). repeat split; try done.
    intros. by apply Update_loop_overflow. }
  assert (Hempty : forall P : Prop, ret = false /\ qs = [] ->
    Forall Props.roomy qs
    /\ AllHandlesSystemwide.required <$> qs = take (length qs) (Props.reported k)
    /\ (ret = true -> P)).
  { intros P [-> ->]. repeat split; [constructor | discriminate]. }
  unfold AllHandlesSystemwide.Update in Hrun.
  destruct (negb (AllHandlesSystemwide.ntdll k));
    [injection Hrun as <- <- <- <-; by apply Hempty|].
  destruct (negb (AllHandlesSystemwide.NtQuerySystemInformation k));
    [injection Hrun as <- <- <- <-; by apply Hempty|].
  destruct (negb (AllHandlesSystemwide.first_status k =? STATUS_INFO_LENGTH_MISMATCH));
    [injection Hrun as <- <- <- <-; by apply Hempty|].
  destruct (Update_loop_queries F _ _ _ _ _ _ _ _ _ Hfirst Hcalls Hrun)
    as (new & Hqs & Hroomy & Hreq & Hlast).
  rewrite app_nil_l in Hqs. subst new.
  split; [done|]. split; [done|].
  intros Hret. destruct (Hlast Hret) as (q & Hq & Hsize).
  exists q. split; [done|]. split; [done|].
  rewrite Hsize.
  assert (Hin : q ∈ qs) by (eapply last_Some_elem_of, Hq).
  rewrite Forall_forall in Hroomy. by destruct (Hroomy q Hin).
Qed.

Lemma retry_loop_buffer_size_witness :
  Props.ulong_answers Samples.snapshot_growing
  /\ Forall Props.roomy
       [ {| AllHandlesSystemwide.allocated := 500; AllHandlesSystemwide.required := 400 |};
         {| AllHandlesSystemwide.allocated := 1250; AllHandlesSystemwide.required := 1000 |} ].
Proof.
  assert (H : Props.ulong_answers Samples.snapshot_growing).
  { split; [|repeat constructor]; unfold Props.ulong; simpl; lia. }
  split; [exact H|].
  eapply (retry_loop_buffer_size Samples.plain Samples.snapshot_growing
            AllHandlesSystemwide.fresh); [exact H|].
  vm_compute. reflexivity.
Defined.

(** A requirement of 0xF0000000 bytes: the next size wraps, and the run fails
    without a buffer and without having asked the kernel for data. *)
Example Update_overflow_run :
  AllHandlesSystemwide.Update Samples.plain Samples.snapshot_huge AllHandlesSystemwide.fresh
  = Some (false, L "Unable to allocate memory: integer overflow",
          AllHandlesSystemwide.fresh, []).
Proof. vm_compute. reflexivity. Qed.


(** A data query that fails with another status is the one exit of Update
    that leaves a buffer behind; what it holds is whatever the failed call
    left there, and nothing bounds its header count by its contents. *)
Example failed_query_keeps_buffer :
  exists e a qs,
    AllHandlesSystemwide.Update Samples.plain Samples.snapshot_query_denied
      AllHandlesSystemwide.fresh = Some (false, e, a, qs)
    /\ AllHandlesSystemwide.NumberOfHandles a = 5
    /\ AllHandlesSystemwide.HandleInfo a 0 = Some 0
    /\ AllHandlesSystemwide.deref a 0 = None
    /\ ~ Props.consistent a.
Proof.
  eexists _, _, _. split; [vm_compute; reflexivity|]. repeat split.
  intros H. specialize (H _ eq_refl). simpl in H. lia.
Qed.

(** The second slot of a one-entry snapshot: nullptr. *)
Example HandleInfo_past_the_end :
  AllHandlesSystemwide.HandleInfo Samples.held 0 = Some 0
  /\ AllHandlesSystemwide.read Samples.held 0 = Some (Samples.entry 4 8 0xAAAA)
  /\ AllHandlesSystemwide.HandleInfo Samples.held 1 = None.
Proof. by repeat split. Qed.

(** ** Zombie discovery *)

Section Discovery.

Import ZombieHandles.
Variable F : Formatting.

(** Every entry the thread loop adds describes the zombie it was given. *)
Lemma add_threads_lookup zi ths : forall lookup n h z,
  (add_threads zi ths lookup n).1 !! h = Some z ->
  lookup !! h = Some z
  \/ (ZombieInfo.PID z = ZombieInfo.PID zi
      /\ ZombieInfo.exitTime z = ZombieInfo.exitTime zi).
Proof.
  unfold add_threads.
  induction ths as [|[hThread tid] ths IH]; intros lookup n h z; simpl; [by left|].
  intros Hz. apply IH in Hz as [Hz|Hz]; [|by right].
  destruct (decide (hThread = h)) as [->|Hne].
  - rewrite lookup_insert_eq in Hz. injection Hz as <-. by right.
  - rewrite lookup_insert_ne in Hz by done. by left.
Qed.

(** One iteration either leaves both lookups alone or records one zombie:
    a process with a non-zero exit time that passed the age test. *)
Lemma visit_cases nAge now s p :
  (m_ZombieHandleLookup (self (visit F nAge now s p)) = m_ZombieHandleLookup (self s)
   /\ zombiePidLookup (visit F nAge now s p) = zombiePidLookup s)
  \/ exists zi zi' ths c e,
       GetProcessTimes p = Some (c, e)
       /\ e <> 0 /\ old_enough nAge now e = true
       /\ ZombieInfo.PID zi = UniqueProcessId p /\ ZombieInfo.exitTime zi = e
       /\ ZombieInfo.PID zi' = UniqueProcessId p /\ ZombieInfo.exitTime zi' = e
       /\ ZombieInfo.TID zi' = 0
       /\ m_ZombieHandleLookup (self (visit F nAge now s p))
          = <[hThisProcess p := zi']>
              (add_threads zi ths (m_ZombieHandleLookup (self s)) 0).1
       /\ zombiePidLookup (visit F nAge now s p)
          = <[UniqueProcessId p := zi']> (zombiePidLookup s).
Proof.
  unfold visit.
  destruct (negb (ntStat p =? STATUS_SUCCESS)); [by left|].
  destruct (negb (IsProcessDeleting p)); [by left|].
  destruct (GetProcessTimes p) as [[c e]|] eqn:Htimes; [|by left].
  destruct (e =? 0) eqn:He; [by left|]. apply Z.eqb_neq in He.
  destruct (old_enough nAge now e) eqn:Hold; [|by left]. simpl.
  destruct (UtilityFunctions.GetParentProcessImagePathIfStillRunning _ _ _)
    as [[ok sParent] closed'].
  right. destruct (OpenProcessQI p) as [q|].
  - match goal with |- context [add_threads ?z _ _ _] => set (zi0 := z) end.
    destruct (add_threads zi0 (threads q) _ 0) as [lookup nThreads] eqn:Hadd.
    eexists zi0, _, (threads q), c, e. simpl.
    repeat split; try done. simpl. by rewrite Hadd.
  - eexists {| ZombieInfo.PID := UniqueProcessId p; ZombieInfo.TID := 0;
               ZombieInfo.sImagePath := []; ZombieInfo.createTime := c;
               ZombieInfo.exitTime := e; ZombieInfo.nThreads := 0;
               ZombieInfo.ParentPID := 0; ZombieInfo.sParentImagePath := [] |},
             _, [], c, e.
    simpl. repeat split; try done.
Qed.

Lemma old_enough_aged nAge now e :
  Props.ulonglong now -> Props.ulonglong e ->
  old_enough nAge now e = true ->
  nAge = 0 \/ (e < now /\ nAge <= (now - e) / 10000000).
Proof.
  unfold Props.ulonglong, old_enough, wrap64. intros Hnow He Hold.
  apply orb_true_iff in Hold as [Hz|Hold]; [left; lia|].
  apply andb_true_iff in Hold as [Hgt Hge]. right.
  rewrite Z.mod_small in Hge by lia. lia.
Qed.

Lemma enumeration_aged nAge now ps : forall s,
  Props.ulonglong now ->
  Forall (fun p => forall c e, GetProcessTimes p = Some (c, e) -> Props.ulonglong e) ps ->
  Props.lookups (Props.aged nAge now) s ->
  Props.lookups (Props.aged nAge now) (fold_left (visit F nAge now) ps s).
Proof.
  induction ps as [|p ps IH]; intros s Hnow Hps Hs; [done|].
  inversion Hps as [|? ? Hp Hrest]; subst.
  cbn [fold_left]. apply IH; [done..|].
  destruct Hs as [Hh Hp'].
  destruct (visit_cases nAge now s p)
    as [[Hl Hq]|(zi & zi' & ths & c & e & Ht & He & Hold & _ & Hzi & _ & Hzi' & _ & Hl & Hq)];
    unfold Props.lookups; rewrite Hl, Hq; [by split|].
  assert (Haged : forall z, ZombieInfo.exitTime z = e -> Props.aged nAge now z).
  { intros z Hz. unfold Props.aged. rewrite Hz. split; [done|].
    apply old_enough_aged; eauto. }
  split.
  - apply map_Forall_insert_2; [by apply Haged|].
    intros h z Hz. apply add_threads_lookup in Hz as [Hz|[_ Hz]]; [by eapply Hh|].
    apply Haged. by rewrite Hz.
  - apply map_Forall_insert_2; [by apply Haged | done].
Qed.

Lemma enumeration_keyed nAge now ps : forall s,
  Props.keyed s -> Props.keyed (fold_left (visit F nAge now) ps s).
Proof.
  induction ps as [|p ps IH]; intros s Hs; [done|].
  cbn [fold_left]. apply IH. destruct Hs as [Hp Hh].
  destruct (visit_cases nAge now s p)
    as [[Hl Hq]|(zi & zi' & ths & c & e & _ & _ & _ & Hzi & _ & Hzi' & _ & _ & Hl & Hq)];
    unfold Props.keyed; rewrite Hl, Hq; [by split|].
  split.
  - intros pid z. destruct (decide (UniqueProcessId p = pid)) as [<-|Hne].
    + rewrite lookup_insert_eq. by intros [= <-].
    + rewrite lookup_insert_ne by done. apply Hp.
  - intros h z Hz.
    assert (Hcases : ZombieInfo.PID z = UniqueProcessId p
                     \/ m_ZombieHandleLookup (self s) !! h = Some z).
    { destruct (decide (hThisProcess p = h)) as [<-|Hne].
      - rewrite lookup_insert_eq in Hz. injection Hz as <-. by left.
      - rewrite lookup_insert_ne in Hz by done.
        apply add_threads_lookup in Hz as [Hz|[Hz _]]; [by right|].
        left. by rewrite Hz. }
    destruct Hcases as [->|Hz']; [by rewrite lookup_insert_eq|].
    destruct (decide (UniqueProcessId p = ZombieInfo.PID z)) as [<-|Hne].
    + by rewrite lookup_insert_eq.
    + rewrite lookup_insert_ne by done. by eapply Hh.
Qed.

Lemma parent_path_same parent t c1 c2 :
  (UtilityFunctions.GetParentProcessImagePathIfStillRunning parent t c1).1
  = (UtilityFunctions.GetParentProcessImagePathIfStillRunning parent t c2).1.
Proof.
  unfold UtilityFunctions.GetParentProcessImagePathIfStillRunning.
  destruct parent as [q|]; [|done].
  destruct (UtilityFunctions.ftCreateTime q) as [st|]; [|done].
  by destruct (st <? t).
Qed.

(** What an iteration finds does not depend on the handles closed so far. *)
Lemma visit_same nAge now s1 s2 p :
  self s1 = self s2 -> zombiePidLookup s1 = zombiePidLookup s2 ->
  processEnumErrors s1 = processEnumErrors s2 ->
  self (visit F nAge now s1 p) = self (visit F nAge now s2 p)
  /\ zombiePidLookup (visit F nAge now s1 p) = zombiePidLookup (visit F nAge now s2 p)
  /\ processEnumErrors (visit F nAge now s1 p) = processEnumErrors (visit F nAge now s2 p).
Proof.
  intros H1 H2 H3. unfold visit. rewrite H1, H2, H3.
  destruct (negb (ntStat p =? STATUS_SUCCESS)); [done|].
  destruct (negb (IsProcessDeleting p)); [done|].
  destruct (match GetProcessTimes p with Some t => t | None => (0, 0) end) as [c e].
  destruct (e =? 0); [done|].
  destruct (negb (old_enough nAge now e)); [done|].
  match goal with
  | |- context [UtilityFunctions.GetParentProcessImagePathIfStillRunning ?a ?b ?c1] =>
      match goal with
      | |- context [UtilityFunctions.GetParentProcessImagePathIfStillRunning a b ?c2] =>
          assert_fails (constr_eq c1 c2);
          pose proof (parent_path_same a b c1 c2) as Hpath;
          destruct (UtilityFunctions.GetParentProcessImagePathIfStillRunning a b c1)
            as [[ok1 sP1] cl1];
          destruct (UtilityFunctions.GetParentProcessImagePathIfStillRunning a b c2)
            as [[ok2 sP2] cl2]
      end
  end.
  simpl in Hpath. injection Hpath as -> ->.
  destruct (OpenProcessQI p) as [q|]; [|done].
  by destruct (add_threads _ _ _ _).
Qed.

(** Neither the object's earlier contents nor the close log influence what
    a call finds. *)
Lemma Acquire_fresh k nAge z closed :
  out_zombiePidLookup (AcquireNewHandlesToExistingZombies F k nAge z closed)
  = out_zombiePidLookup (AcquireNewHandlesToExistingZombies F k nAge fresh [])
  /\ object (AcquireNewHandlesToExistingZombies F k nAge z closed)
     = object (AcquireNewHandlesToExistingZombies F k nAge fresh [])
  /\ retval (AcquireNewHandlesToExistingZombies F k nAge z closed)
     = retval (AcquireNewHandlesToExistingZombies F k nAge fresh [])
  /\ out_processEnumErrors (AcquireNewHandlesToExistingZombies F k nAge z closed)
     = out_processEnumErrors (AcquireNewHandlesToExistingZombies F k nAge fresh []).
Proof.
  unfold AcquireNewHandlesToExistingZombies, ReleaseAcquiredHandles.
  cbn [m_ZombieHandleLookup m_nZombieProcesses m_nTotalProcesses fresh].
  destruct (negb (ntdll k)); [done|].
  destruct (negb _); [done|].
  set (f := visit F nAge (ulNow k)).
  assert (Hindep : forall ps s1 s2,
    self s1 = self s2 -> zombiePidLookup s1 = zombiePidLookup s2 ->
    processEnumErrors s1 = processEnumErrors s2 ->
    self (fold_left f ps s1) = self (fold_left f ps s2)
    /\ zombiePidLookup (fold_left f ps s1) = zombiePidLookup (fold_left f ps s2)
    /\ processEnumErrors (fold_left f ps s1) = processEnumErrors (fold_left f ps s2)).
  { induction ps as [|p ps IH]; intros s1 s2 H1 H2 H3; [done|].
    cbn [fold_left].
    destruct (visit_same nAge (ulNow k) s1 s2 p H1 H2 H3) as (? & ? & ?).
    by apply IH. }
  cbn [retval object out_zombiePidLookup out_processEnumErrors].
  match goal with
  | |- context [fold_left f (processes k) ?s1] =>
      match goal with
      | |- context [fold_left f (processes k) ?s2] =>
          assert_fails (constr_eq s1 s2);
          destruct (Hindep (processes k) s1 s2) as (H1 & H2 & H3); [done..|]
      end
  end.
  by rewrite H1, H2, H3.
Qed.

End Discovery.

(** C6.  Every record that AcquireNewHandlesToExistingZombies produces, in
    the process-id lookup and in the handle lookup alike, has a non-zero exit
    time, and either the threshold is zero or the exit lies before the start
    of the run and the time elapsed since, in whole seconds, is at least the
    threshold. *)
Theorem discovered_zombies_are_aged (F : Formatting) (k : ZombieHandles.Kernel)
    (nAgeInSeconds : Z) (z0 : ZombieHandles.t) (closed : list Z) :
  Props.ulonglong_times k ->
  let acq := ZombieHandles.AcquireNewHandlesToExistingZombies F k nAgeInSeconds z0 closed in
  (forall pid z, ZombieHandles.out_zombiePidLookup acq !! pid = Some z ->
     Props.aged nAgeInSeconds (ZombieHandles.ulNow k) z)
  /\ (forall h z, ZombieHandles.ZombieHandleLookup (ZombieHandles.object acq) !! h = Some z ->
        Props.aged nAgeInSeconds (ZombieHandles.ulNow k) z).
Proof.
  intros [Hnow Hps]. cbv zeta.
  unfold ZombieHandles.AcquireNewHandlesToExistingZombies,
    ZombieHandles.ReleaseAcquiredHandles, ZombieHandles.ZombieHandleLookup.
  cbn [ZombieHandles.m_ZombieHandleLookup ZombieHandles.m_nZombieProcesses
       ZombieHandles.m_nTotalProcesses].
  destruct (negb (ZombieHandles.ntdll k));
    [split; intros ? ? Hz; simpl in Hz; by rewrite lookup_empty in Hz|].
  destruct (negb _);
    [split; intros ? ? Hz; simpl in Hz; by rewrite lookup_empty in Hz|].
  cbn [ZombieHandles.out_zombiePidLookup ZombieHandles.object].
  match goal with
  | |- context [fold_left ?f ?ps ?s] =>
      destruct (enumeration_aged F nAgeInSeconds (ZombieHandles.ulNow k) ps s Hnow Hps)
        as [Hh Hp]
  end.
  { split; apply map_Forall_empty. }
  split; intros i z Hz; [by eapply Hp | by eapply Hh].
Qed.

Lemma discovered_zombies_are_aged_witness :
  Props.ulonglong_times
    (Samples.enumeration [Samples.running 0xC 7; Samples.exited 0x10 100 10])
  /\ Props.aged 3 Samples.now (Samples.zombie100 10).
Proof.
  assert (H : Props.ulonglong_times
    (Samples.enumeration [Samples.running 0xC 7; Samples.exited 0x10 100 10])).
  { split; [unfold Props.ulonglong; simpl; unfold Samples.now; lia|].
    simpl. do 2 (constructor;
      [intros c e [= <- <-]; unfold Props.ulonglong, Samples.now, Samples.second; lia|]).
    constructor. }
  split; [exact H|].
  refine (proj1 (discovered_zombies_are_aged Samples.plain _ 3 ZombieHandles.fresh [] H)
            100 (Samples.zombie100 10) _).
  vm_compute. reflexivity.
Defined.

(** The threshold of zero keeps a process that exited a second ago. *)
Example no_age_filtering :
  ZombieHandles.out_zombiePidLookup
    (ZombieHandles.AcquireNewHandlesToExistingZombies Samples.plain
       (Samples.enumeration [Samples.exited 0x10 100 1]) 0 ZombieHandles.fresh []) !! 100
  = Some (Samples.zombie100 1).
Proof. vm_compute. reflexivity. Qed.

(** ** Discovery, process by process *)

Section Enumeration.

Import ZombieHandles.
Variable F : Formatting.
Variables nAge now : Z.

Lemma add_threads_count zi ths : forall lookup n,
  n = wrap32 n ->
  (add_threads zi ths lookup n).2 = wrap32 (n + Z.of_nat (length ths)).
Proof.
  unfold add_threads.
  induction ths as [|[h tid] ths IH]; intros lookup n Hn; cbn [fold_left length].
  - by rewrite Z.add_0_r.
  - rewrite IH.
    + unfold wrap32. rewrite Z.add_mod_idemp_l by lia. f_equal. lia.
    + unfold wrap32. by rewrite Z.mod_mod by lia.
Qed.

Lemma add_threads_keys zi ths : forall lookup n,
  NoDup ths.*1 ->
  (forall h, h ∈ ths.*1 -> lookup !! h = None) ->
  (map_to_list (add_threads zi ths lookup n).1).*1
  ≡ₚ (map_to_list lookup).*1 ++ ths.*1.
Proof.
  unfold add_threads.
  induction ths as [|[h tid] ths IH]; intros lookup n Hnd Hfresh; cbn [fold_left fmap];
    [by rewrite fmap_nil, app_nil_r|].
  rewrite fmap_cons in Hnd, Hfresh. cbn [fst] in Hnd, Hfresh.
  apply NoDup_cons in Hnd as [Hh Hnd].
  rewrite IH; [|done|].
  - rewrite map_to_list_insert by (apply Hfresh; by left).
    rewrite !fmap_cons. cbn [fst]. apply Permutation_middle.
  - intros h' Hh'. rewrite lookup_insert_ne by (intros ->; done).
    apply Hfresh. by right.
Qed.

Lemma add_threads_keeps zi ths : forall lookup n h,
  is_Some (lookup !! h) -> is_Some ((add_threads zi ths lookup n).1 !! h).
Proof.
  unfold add_threads.
  induction ths as [|[h' tid] ths IH]; intros lookup n h Hh; cbn [fold_left]; [done|].
  apply IH. apply lookup_insert_is_Some'. by right.
Qed.

(** What an iteration does with a process that is no zombie. *)
Lemma visit_other s p :
  Props.is_zombie nAge now p = false ->
  m_ZombieHandleLookup (self (visit F nAge now s p)) = m_ZombieHandleLookup (self s)
  /\ m_nZombieProcesses (self (visit F nAge now s p)) = m_nZombieProcesses (self s)
  /\ m_nTotalProcesses (self (visit F nAge now s p))
     = wrap64 (m_nTotalProcesses (self s) + 1)
  /\ zombiePidLookup (visit F nAge now s p) = zombiePidLookup s
  /\ length (processEnumErrors (visit F nAge now s p))
     = (length (processEnumErrors s) + if Props.query_fails p then 1 else 0)%nat
  /\ hPrevProcess (visit F nAge now s p) = hThisProcess p
  /\ bClosePrevProcess (visit F nAge now s p) = true
  /\ closed (visit F nAge now s p) = closed s ++ Props.pending s.
Proof.
  unfold Props.is_zombie, Props.query_fails, Props.pending, visit.
  assert (Hcl : (if bClosePrevProcess s && negb (hPrevProcess s =? 0)
                 then closed s ++ [hPrevProcess s] else closed s)
                = closed s ++ (if bClosePrevProcess s && negb (hPrevProcess s =? 0)
                               then [hPrevProcess s] else [])).
  { destruct (_ && _); [done | by rewrite app_nil_r]. }
  rewrite Hcl.
  destruct (ntStat p =? STATUS_SUCCESS); cbn [negb andb].
  2:{ intros _. cbn. rewrite length_app. cbn. repeat split; lia. }
  destruct (IsProcessDeleting p); cbn [negb andb].
  2:{ intros _. cbn. repeat split; lia. }
  destruct (GetProcessTimes p) as [[c e]|].
  2:{ intros _. cbn. repeat split; lia. }
  destruct (e =? 0); cbn [negb andb].
  { intros _. cbn. repeat split; lia. }
  intros ->. cbn. repeat split; lia.
Qed.

(** What an iteration does with a zombie. *)
Lemma visit_zombie s p :
  Props.is_zombie nAge now p = true ->
  exists zi z,
    Props.describes p z
    /\ Props.thread_of p 0 zi
    /\ m_ZombieHandleLookup (self (visit F nAge now s p))
       = <[hThisProcess p := z]>
           (add_threads zi (Props.threads_of p) (m_ZombieHandleLookup (self s)) 0).1
    /\ m_nZombieProcesses (self (visit F nAge now s p))
       = wrap64 (m_nZombieProcesses (self s) + 1)
    /\ m_nTotalProcesses (self (visit F nAge now s p))
       = wrap64 (m_nTotalProcesses (self s) + 1)
    /\ zombiePidLookup (visit F nAge now s p)
       = <[UniqueProcessId p := z]> (zombiePidLookup s)
    /\ processEnumErrors (visit F nAge now s p) = processEnumErrors s
    /\ hPrevProcess (visit F nAge now s p) = hThisProcess p
    /\ bClosePrevProcess (visit F nAge now s p) = false
    /\ closed (visit F nAge now s p)
       = closed s ++ Props.pending s ++ Props.scratch_handles p.
Proof.
  unfold Props.is_zombie, Props.pending, Props.scratch_handles, Props.threads_of,
    Props.describes, Props.thread_of, Props.thread_handles, visit,
    UtilityFunctions.GetParentProcessImagePathIfStillRunning.
  assert (Hcl : (if bClosePrevProcess s && negb (hPrevProcess s =? 0)
                 then closed s ++ [hPrevProcess s] else closed s)
                = closed s ++ (if bClosePrevProcess s && negb (hPrevProcess s =? 0)
                               then [hPrevProcess s] else [])).
  { destruct (_ && _); [done | by rewrite app_nil_r]. }
  rewrite Hcl. set (pend := if _ && _ then [hPrevProcess s] else []).
  destruct (ntStat p =? STATUS_SUCCESS); [|done].
  destruct (IsProcessDeleting p); [|done].
  destruct (GetProcessTimes p) as [[c e]|]; [|done].
  destruct (e =? 0); [done|]. cbn [negb andb].
  intros ->. cbn [negb].
  destruct (OpenParent p) as [pq|].
  - destruct (match UtilityFunctions.ftCreateTime pq with
              | Some ulStartTime => _ | None => _ end) as [ok sParent].
    destruct (OpenProcessQI p) as [q|].
    + match goal with |- context [add_threads ?z _ _ _] => set (zi0 := z) end.
      pose proof (add_threads_count zi0 (threads q) (m_ZombieHandleLookup (self s)) 0 eq_refl)
        as Hcount.
      destruct (add_threads zi0 (threads q) _ 0) as [lookup nThreads] eqn:Hadd.
      cbn [snd] in Hcount. rewrite Z.add_0_l in Hcount.
      eexists zi0, _. rewrite Hadd. cbn.
      rewrite length_fmap, <- Hcount, <- !app_assoc.
      refine (conj _ (conj _ (conj eq_refl _))); repeat split.
    + eexists {| ZombieInfo.PID := UniqueProcessId p; ZombieInfo.TID := 0;
                 ZombieInfo.sImagePath :=
                   match ProcessImageFileName p with Some path => path | None => [] end;
                 ZombieInfo.createTime := c; ZombieInfo.exitTime := e;
                 ZombieInfo.nThreads := 0;
                 ZombieInfo.ParentPID := InheritedFromUniqueProcessId p;
                 ZombieInfo.sParentImagePath := [] |}, _.
      cbn. rewrite <- !app_assoc.
      refine (conj _ (conj _ (conj eq_refl _))); repeat split.
  - destruct (OpenProcessQI p) as [q|].
    + match goal with |- context [add_threads ?z _ _ _] => set (zi0 := z) end.
      pose proof (add_threads_count zi0 (threads q) (m_ZombieHandleLookup (self s)) 0 eq_refl)
        as Hcount.
      destruct (add_threads zi0 (threads q) _ 0) as [lookup nThreads] eqn:Hadd.
      cbn [snd] in Hcount. rewrite Z.add_0_l in Hcount.
      eexists zi0, _. rewrite Hadd. cbn.
      rewrite length_fmap, <- Hcount, <- ?app_assoc.
      refine (conj _ (conj _ (conj eq_refl _))); repeat split.
    + eexists {| ZombieInfo.PID := UniqueProcessId p; ZombieInfo.TID := 0;
                 ZombieInfo.sImagePath :=
                   match ProcessImageFileName p with Some path => path | None => [] end;
                 ZombieInfo.createTime := c; ZombieInfo.exitTime := e;
                 ZombieInfo.nThreads := 0;
                 ZombieInfo.ParentPID := InheritedFromUniqueProcessId p;
                 ZombieInfo.sParentImagePath := [] |}, _.
      cbn. rewrite ?app_nil_r.
      refine (conj _ (conj _ (conj eq_refl _))); repeat split.
Qed.

End Enumeration.

(** ** Discovery, over the whole enumeration *)

Section Discovered.

Import ZombieHandles.
Variable F : Formatting.
Variables nAge now : Z.

Lemma wrap64_succ x n : wrap64 (wrap64 (x + 1) + n) = wrap64 (x + (1 + n)).
Proof. unfold wrap64. rewrite Z.add_mod_idemp_l by lia. f_equal. lia. Qed.

Lemma wrap64_idem x : wrap64 (wrap64 x) = wrap64 x.
Proof. unfold wrap64. by rewrite Z.mod_mod by lia. Qed.

Lemma enumeration_counts ps : forall s,
  m_nTotalProcesses (self s) = wrap64 (m_nTotalProcesses (self s)) ->
  m_nZombieProcesses (self s) = wrap64 (m_nZombieProcesses (self s)) ->
  m_nTotalProcesses (self (fold_left (visit F nAge now) ps s))
  = wrap64 (m_nTotalProcesses (self s) + Z.of_nat (length ps))
  /\ m_nZombieProcesses (self (fold_left (visit F nAge now) ps s))
     = wrap64 (m_nZombieProcesses (self s)
               + Z.of_nat (length (List.filter (Props.is_zombie nAge now) ps)))
  /\ length (processEnumErrors (fold_left (visit F nAge now) ps s))
     = (length (processEnumErrors s)
        + length (List.filter Props.query_fails ps))%nat.
Proof.
  induction ps as [|p ps IH]; intros s Ht Hz; cbn [fold_left List.filter length].
  - rewrite !Z.add_0_r. repeat split; [done | done | lia].
  - destruct (Props.is_zombie nAge now p) eqn:Hp.
    + destruct (visit_zombie F nAge now s p Hp)
        as (zi & z & _ & _ & _ & Hnz & Hnt & _ & He & _).
      assert (Hq : Props.query_fails p = false).
      { unfold Props.is_zombie in Hp. unfold Props.query_fails.
        by destruct (ntStat p =? STATUS_SUCCESS). }
      rewrite Hq.
      destruct (IH (visit F nAge now s p)) as (IHt & IHz & IHe).
      { by rewrite Hnt, wrap64_idem. }
      { by rewrite Hnz, wrap64_idem. }
      rewrite IHt, IHz, IHe, Hnt, Hnz, He, !wrap64_succ. cbn [length].
      repeat split; f_equal; lia.
    + destruct (visit_other F nAge now s p Hp)
        as (_ & Hnz & Hnt & _ & He & _).
      destruct (IH (visit F nAge now s p)) as (IHt & IHz & IHe).
      { by rewrite Hnt, wrap64_idem. }
      { by rewrite Hnz. }
      rewrite IHt, IHz, IHe, Hnt, Hnz, He, !wrap64_succ.
      repeat split; [f_equal; lia|].
      destruct (Props.query_fails p); cbn [length]; lia.
Qed.

(** Every record of the PID lookup describes a zombie of the enumeration. *)
Lemma enumeration_pids ps : forall s pid z,
  zombiePidLookup (fold_left (visit F nAge now) ps s) !! pid = Some z ->
  zombiePidLookup s !! pid = Some z
  \/ exists p, p ∈ ps /\ Props.is_zombie nAge now p = true
       /\ UniqueProcessId p = pid /\ Props.describes p z.
Proof.
  induction ps as [|p ps IH]; intros s pid z; cbn [fold_left]; [by left|].
  intros Hz. apply IH in Hz as [Hz|(p' & Hin & Hp')].
  2:{ right. exists p'. split; [by right | done]. }
  destruct (Props.is_zombie nAge now p) eqn:Hp.
  - destruct (visit_zombie F nAge now s p Hp)
      as (zi & z' & Hd & _ & _ & _ & _ & Hq & _).
    rewrite Hq in Hz. destruct (decide (UniqueProcessId p = pid)) as [Heq|Hne].
    + rewrite Heq, lookup_insert_eq in Hz. injection Hz as <-.
      right. exists p. split; [by left | done].
    + rewrite lookup_insert_ne in Hz by done. by left.
  - destruct (visit_other F nAge now s p Hp) as (_ & _ & _ & Hq & _).
    rewrite Hq in Hz. by left.
Qed.

(** Every zombie of the enumeration has a record in the PID lookup. *)
Lemma enumeration_finds ps : forall s pid,
  is_Some (zombiePidLookup s !! pid)
  \/ (exists p, p ∈ ps /\ Props.is_zombie nAge now p = true /\ UniqueProcessId p = pid) ->
  is_Some (zombiePidLookup (fold_left (visit F nAge now) ps s) !! pid).
Proof.
  induction ps as [|p ps IH]; intros s pid; cbn [fold_left].
  - intros [H|(p & Hin & _)]; [done | by apply elem_of_nil in Hin].
  - intros H. apply IH.
    destruct (Props.is_zombie nAge now p) eqn:Hp.
    + destruct (visit_zombie F nAge now s p Hp)
        as (zi & z' & _ & _ & _ & _ & _ & Hq & _).
      rewrite Hq. destruct H as [H|(p' & Hin & Hp' & Hpid)].
      * left. apply lookup_insert_is_Some'. by right.
      * apply elem_of_cons in Hin as [->|Hin].
        -- left. rewrite Hpid, lookup_insert_eq. by eexists.
        -- right. by exists p'.
    + destruct (visit_other F nAge now s p Hp) as (_ & _ & _ & Hq & _).
      rewrite Hq. destruct H as [H|(p' & Hin & Hp' & Hpid)]; [by left|].
      apply elem_of_cons in Hin as [->|Hin]; [congruence|].
      right. by exists p'.
Qed.

Lemma add_threads_entries zi ths : forall lookup n h x,
  (add_threads zi ths lookup n).1 !! h = Some x ->
  lookup !! h = Some x
  \/ exists tid, (h, tid) ∈ ths
       /\ ZombieInfo.PID x = ZombieInfo.PID zi
       /\ ZombieInfo.TID x = tid
       /\ ZombieInfo.ParentPID x = ZombieInfo.ParentPID zi
       /\ ZombieInfo.createTime x = ZombieInfo.createTime zi
       /\ ZombieInfo.exitTime x = ZombieInfo.exitTime zi
       /\ ZombieInfo.nThreads x = ZombieInfo.nThreads zi
       /\ ZombieInfo.sImagePath x = ZombieInfo.sImagePath zi.
Proof.
  unfold add_threads.
  induction ths as [|[hThread tid] ths IH]; intros lookup n h x; cbn [fold_left];
    [by left|].
  intros Hx. apply IH in Hx as [Hx|(tid' & Hin & Hx)].
  2:{ right. exists tid'. split; [by right | done]. }
  destruct (decide (hThread = h)) as [->|Hne].
  - rewrite lookup_insert_eq in Hx. injection Hx as <-.
    right. exists tid. split; [by left | done].
  - rewrite lookup_insert_ne in Hx by done. by left.
Qed.

Lemma add_threads_has zi ths : forall lookup n h,
  h ∈ ths.*1 -> is_Some ((add_threads zi ths lookup n).1 !! h).
Proof.
  induction ths as [|[hThread tid] ths IH]; intros lookup n h Hin.
  - by apply elem_of_nil in Hin.
  - rewrite fmap_cons in Hin. cbn [fst] in Hin.
    destruct (decide (h ∈ ths.*1)) as [Hin'|Hnin].
    + unfold add_threads. cbn [fold_left]. by apply IH.
    + apply elem_of_cons in Hin as [->|Hin]; [|done].
      unfold add_threads. cbn [fold_left].
      apply (add_threads_keeps zi ths). rewrite lookup_insert_eq. by eexists.
Qed.

(** Every entry of the handle lookup is the process handle of a zombie of
    the enumeration, or the handle of one of its threads. *)
Lemma enumeration_handles ps : forall s h x,
  m_ZombieHandleLookup (self (fold_left (visit F nAge now) ps s)) !! h = Some x ->
  m_ZombieHandleLookup (self s) !! h = Some x
  \/ exists p, p ∈ ps /\ Props.is_zombie nAge now p = true
       /\ ((h = hThisProcess p /\ Props.describes p x)
           \/ exists tid, (h, tid) ∈ Props.threads_of p /\ Props.thread_of p tid x).
Proof.
  induction ps as [|p ps IH]; intros s h x; cbn [fold_left]; [by left|].
  intros Hx. apply IH in Hx as [Hx|(p' & Hin & Hp')].
  2:{ right. exists p'. split; [by right | done]. }
  destruct (Props.is_zombie nAge now p) eqn:Hp.
  - destruct (visit_zombie F nAge now s p Hp)
      as (zi & z' & Hd & Hzi & Hl & _).
    rewrite Hl in Hx. destruct (decide (hThisProcess p = h)) as [Heq|Hne].
    + rewrite Heq, lookup_insert_eq in Hx. injection Hx as <-.
      right. exists p. split; [by left|]. split; [done|]. by left.
    + rewrite lookup_insert_ne in Hx by done.
      apply add_threads_entries in Hx
        as [Hx|(tid & Hin & H1 & H2 & H3 & H4 & H5 & H6 & H7)]; [by left|].
      right. exists p. split; [by left|]. split; [done|]. right.
      exists tid. split; [done|].
      destruct Hzi as (Z1 & Z2 & Z3 & Z4 & Z5 & Z6).
      unfold Props.thread_of. rewrite H1, H3, H4, H5, H6, H7. by repeat split.
  - destruct (visit_other F nAge now s p Hp) as (Hl & _).
    rewrite Hl in Hx. by left.
Qed.

(** The handles discovery keeps are keys of the handle lookup. *)
Lemma enumeration_retains ps : forall s h,
  is_Some (m_ZombieHandleLookup (self s) !! h)
  \/ (exists p, p ∈ ps /\ h ∈ Props.retained_by nAge now p) ->
  is_Some (m_ZombieHandleLookup (self (fold_left (visit F nAge now) ps s)) !! h).
Proof.
  induction ps as [|p ps IH]; intros s h; cbn [fold_left].
  - intros [H|(p & Hin & _)]; [done | by apply elem_of_nil in Hin].
  - intros H. apply IH. unfold Props.retained_by in *.
    destruct (Props.is_zombie nAge now p) eqn:Hp.
    + destruct (visit_zombie F nAge now s p Hp) as (zi & z' & _ & _ & Hl & _).
      rewrite Hl.
      assert (Hhere : h ∈ Props.thread_handles p ++ [hThisProcess p] ->
                is_Some (<[hThisProcess p:=z']>
                  (add_threads zi (Props.threads_of p)
                     (m_ZombieHandleLookup (self s)) 0).1 !! h)).
      { intros Hin. apply lookup_insert_is_Some'.
        apply elem_of_app in Hin as [Hin|Hin].
        - right. apply add_threads_has. revert Hin.
          unfold Props.thread_handles, Props.threads_of.
          by destruct (OpenProcessQI p).
        - left. apply list_elem_of_singleton in Hin. done. }
      destruct H as [H|(p' & Hin & Hh)].
      * left. apply lookup_insert_is_Some'. right. by apply add_threads_keeps.
      * apply elem_of_cons in Hin as [->|Hin].
        -- left. rewrite Hp in Hh. by apply Hhere.
        -- right. by exists p'.
    + destruct (visit_other F nAge now s p Hp) as (Hl & _). rewrite Hl.
      destruct H as [H|(p' & Hin & Hh)]; [by left|].
      apply elem_of_cons in Hin as [->|Hin].
      * rewrite Hp in Hh. by apply elem_of_nil in Hh.
      * right. by exists p'.
Qed.

(** The loop only ever appends to the log of closed handles. *)
Lemma enumeration_closed ps : forall s,
  exists cl, closed (fold_left (visit F nAge now) ps s) = closed s ++ cl.
Proof.
  induction ps as [|p ps IH]; intros s; cbn [fold_left].
  { exists []. by rewrite app_nil_r. }
  destruct (IH (visit F nAge now s p)) as [cl Hcl]. rewrite Hcl.
  destruct (Props.is_zombie nAge now p) eqn:Hp.
  - destruct (visit_zombie F nAge now s p Hp)
      as (zi & z' & _ & _ & _ & _ & _ & _ & _ & _ & _ & Hc).
    rewrite Hc, <- !app_assoc. by eexists.
  - destruct (visit_other F nAge now s p Hp) as (_ & _ & _ & _ & _ & _ & _ & Hc).
    rewrite Hc, <- !app_assoc. by eexists.
Qed.

(** The books of the enumeration loop: the handles it was given are those it
    has closed, the one it will close next, and the keys it added. *)
Lemma enumeration_balance ps : forall s,
  Forall (fun p => hThisProcess p <> 0) ps ->
  NoDup ((map_to_list (m_ZombieHandleLookup (self s))).*1
         ++ concat (Props.retained_by nAge now <$> ps)) ->
  exists cl,
    closed (fold_left (visit F nAge now) ps s) = closed s ++ cl
    /\ (map_to_list (m_ZombieHandleLookup
                       (self (fold_left (visit F nAge now) ps s)))).*1
       ≡ₚ (map_to_list (m_ZombieHandleLookup (self s))).*1
           ++ concat (Props.retained_by nAge now <$> ps)
    /\ Props.pending s ++ concat (Props.opened_by nAge now <$> ps)
       ≡ₚ cl ++ Props.pending (fold_left (visit F nAge now) ps s)
           ++ concat (Props.retained_by nAge now <$> ps).
Proof.
  induction ps as [|p ps IH]; intros s Hnz Hnd; cbn [fold_left fmap concat].
  { exists []. rewrite !app_nil_r. by repeat split. }
  rewrite fmap_cons in Hnd |- *. rewrite fmap_cons. cbn [concat] in Hnd |- *.
  apply Forall_cons in Hnz as [Hp0 Hnz].
  unfold Props.opened_by at 1. unfold Props.retained_by at 1 in Hnd.
  unfold Props.retained_by at 1 3.
  destruct (Props.is_zombie nAge now p) eqn:Hp.
  - destruct (visit_zombie F nAge now s p Hp)
      as (zi & z' & _ & _ & Hl & _ & _ & _ & _ & Hprev & Hb & Hc).
    assert (Hth : Props.thread_handles p = (Props.threads_of p).*1).
    { unfold Props.thread_handles, Props.threads_of. by destruct (OpenProcessQI p). }
    assert (Hkeys : (map_to_list (m_ZombieHandleLookup (self (visit F nAge now s p)))).*1
                    ≡ₚ (map_to_list (m_ZombieHandleLookup (self s))).*1
                        ++ Props.thread_handles p ++ [hThisProcess p]).
    { rewrite Hl. rewrite !app_assoc in Hnd.
      apply NoDup_app in Hnd as (Hnd & _ & _).
      apply NoDup_app in Hnd as (Hnd & Hfresh & _).
      apply NoDup_app in Hnd as (Hk & Hdisj & Hts).
      rewrite map_to_list_insert.
      - rewrite fmap_cons. cbn [fst].
        rewrite add_threads_keys.
        + rewrite <- Hth. rewrite (app_assoc _ _ [_]).
          by rewrite <- Permutation_cons_append.
        + by rewrite <- Hth.
        + intros h Hh. rewrite <- Hth in Hh.
          destruct (m_ZombieHandleLookup (self s) !! h) as [x|] eqn:Hx; [|done].
          exfalso. apply (Hdisj h); [|done].
          apply list_elem_of_fmap. exists (h, x). split; [done|].
          by apply elem_of_map_to_list.
      - destruct ((add_threads zi (Props.threads_of p)
                     (m_ZombieHandleLookup (self s)) 0).1 !! hThisProcess p)
          as [x|] eqn:Hx; [|done].
        exfalso. apply (Hfresh (hThisProcess p)); [|by left].
        apply add_threads_entries in Hx as [Hx|(tid & Hin & _)].
        + apply elem_of_app. left. apply list_elem_of_fmap.
          exists (hThisProcess p, x). split; [done|]. by apply elem_of_map_to_list.
        + apply elem_of_app. right. rewrite Hth. apply list_elem_of_fmap.
          by exists (hThisProcess p, tid). }
    destruct (IH (visit F nAge now s p)) as (cl & Hcl & Hk & Hperm); [done| |].
    { rewrite Hkeys, <- !app_assoc. by rewrite <- !app_assoc in Hnd. }
    exists (Props.pending s ++ Props.scratch_handles p ++ cl).
    split; [by rewrite Hcl, Hc, <- !app_assoc|].
    split; [by rewrite Hk, Hkeys, <- !app_assoc|].
    assert (Hpend : Props.pending (visit F nAge now s p) = []).
    { unfold Props.pending. by rewrite Hb. }
    rewrite Hpend in Hperm. cbn [app] in Hperm. rewrite Hperm.
    cbn [app]. solve_Permutation.
  - destruct (visit_other F nAge now s p Hp)
      as (Hl & _ & _ & _ & _ & Hprev & Hb & Hc).
    cbn [app] in Hnd |- *.
    destruct (IH (visit F nAge now s p)) as (cl & Hcl & Hk & Hperm); [done| |].
    { by rewrite Hl. }
    exists (Props.pending s ++ cl).
    split; [by rewrite Hcl, Hc, <- !app_assoc|].
    split; [by rewrite Hk, Hl|].
    assert (Hpend : Props.pending (visit F nAge now s p) = [hThisProcess p]).
    { unfold Props.pending. rewrite Hb, Hprev.
      destruct (Z.eqb_spec (hThisProcess p) 0); done. }
    rewrite Hpend in Hperm. cbn [app] in Hperm.
    rewrite <- app_assoc, <- Hperm. solve_Permutation.
Qed.

End Discovered.

(** ** A whole call of AcquireNewHandlesToExistingZombies *)

Section Acquisition.

Import ZombieHandles.
Variable F : Formatting.
Variable k : Kernel.
Variable nAge : Z.
Variable z : t.
Variable c : list Z.

Local Abbreviation acq := (AcquireNewHandlesToExistingZombies F k nAge z c).

(** A call first releases what the object holds, then only appends to the
    log of closed handles. *)
Lemma Acquire_closed :
  exists cl, out_closed acq = (ReleaseAcquiredHandles z c).2 ++ cl.
Proof.
  unfold AcquireNewHandlesToExistingZombies, ReleaseAcquiredHandles.
  cbn [m_ZombieHandleLookup m_nZombieProcesses m_nTotalProcesses snd].
  destruct (negb (ntdll k)); [exists []; cbn; by rewrite app_nil_r|].
  destruct (negb _); [exists []; cbn; by rewrite app_nil_r|].
  cbn [out_closed].
  match goal with |- context [fold_left ?f ?ps ?s0] =>
    destruct (enumeration_closed F nAge (ulNow k) ps s0) as [cl Hcl];
    set (s' := fold_left f ps s0) in *
  end.
  cbn [closed] in Hcl.
  destruct (bClosePrevProcess s' && negb (hPrevProcess s' =? 0)).
  - exists (cl ++ [hPrevProcess s']). by rewrite Hcl, app_assoc.
  - by exists cl.
Qed.

(** A call that fails has opened nothing and holds nothing. *)
Lemma Acquire_failure :
  retval acq = false ->
  out_closed acq = (ReleaseAcquiredHandles z c).2
  /\ m_ZombieHandleLookup (object acq) = ∅
  /\ out_zombiePidLookup acq = ∅
  /\ out_processEnumErrors acq = []
  /\ m_nTotalProcesses (object acq) = 0
  /\ m_nZombieProcesses (object acq) = 0.
Proof.
  unfold AcquireNewHandlesToExistingZombies, ReleaseAcquiredHandles.
  cbn [m_ZombieHandleLookup m_nZombieProcesses m_nTotalProcesses snd].
  destruct (negb (ntdll k)); [done|].
  destruct (negb _); [done|].
  cbn [retval]. done.
Qed.

(** The books of a successful call: the keys of the lookup are the handles
    retained, and the handles given are those closed and those retained. *)
Lemma Acquire_books :
  retval acq = true ->
  Forall (fun p => hThisProcess p <> 0) (processes k) ->
  NoDup (concat (Props.retained_by nAge (ulNow k) <$> processes k)) ->
  exists cl,
    out_closed acq = (ReleaseAcquiredHandles z c).2 ++ cl
    /\ (map_to_list (m_ZombieHandleLookup (object acq))).*1
       ≡ₚ concat (Props.retained_by nAge (ulNow k) <$> processes k)
    /\ concat (Props.opened_by nAge (ulNow k) <$> processes k)
       ≡ₚ cl ++ (map_to_list (m_ZombieHandleLookup (object acq))).*1.
Proof.
  unfold AcquireNewHandlesToExistingZombies, ReleaseAcquiredHandles.
  cbn [m_ZombieHandleLookup m_nZombieProcesses m_nTotalProcesses snd].
  destruct (negb (ntdll k)); [done|].
  destruct (negb _); [done|].
  cbn [retval out_closed object]. intros _ Hnz Hnd.
  match goal with |- context [fold_left ?f ?ps ?s0] =>
    destruct (enumeration_balance F nAge (ulNow k) ps s0 Hnz)
      as (cl & Hcl & Hkeys & Hperm);
    [cbn [self m_ZombieHandleLookup]; by rewrite map_to_list_empty|];
    set (s' := fold_left f ps s0) in *
  end.
  cbn [closed self m_ZombieHandleLookup] in Hcl, Hkeys, Hperm.
  rewrite map_to_list_empty in Hkeys. cbn [fmap list_fmap app] in Hkeys.
  unfold Props.pending at 1 in Hperm.
  cbn [bClosePrevProcess andb app] in Hperm.
  exists (cl ++ Props.pending s').
  split; [|split; [done|]].
  - unfold Props.pending.
    destruct (bClosePrevProcess s' && negb (hPrevProcess s' =? 0));
      rewrite Hcl, <- ?app_assoc, ?app_nil_r; done.
  - rewrite Hperm, Hkeys. by rewrite <- app_assoc.
Qed.

End Acquisition.

(** C9.  ReleaseAcquiredHandles closes each handle of the handle lookup, once
    each, and empties the lookup, and so does the destructor.  Run again on
    the result, from the destructor or at the start of the next
    AcquireNewHandlesToExistingZombies, it closes nothing.  A call that fails
    holds nothing.  After a successful call whose process handles are
    non-null and whose retained handles (the process handle of each zombie
    and the handles of its threads, open at the same time) are pairwise
    distinct: the keys of the lookup are the retained handles; the handles
    the call was given are, counted with multiplicity, those it closed and
    those it holds, so that none of the latter was closed on the way;
    discarding the result, by the destructor or by the next call, closes
    exactly the handles held; over the call and the discard the handles
    closed are the handles given, and none is closed twice where the handles
    given are pairwise distinct. *)
Theorem handles_released_once (F : Formatting) (k : ZombieHandles.Kernel)
    (nAgeInSeconds : Z) (z : ZombieHandles.t) (closed : list Z) :
  let r := ZombieHandles.ReleaseAcquiredHandles z closed in
  let acq :=
    ZombieHandles.AcquireNewHandlesToExistingZombies F k nAgeInSeconds z closed in
  let given :=
    concat (Props.opened_by nAgeInSeconds (ZombieHandles.ulNow k)
              <$> ZombieHandles.processes k) in
  let retained :=
    concat (Props.retained_by nAgeInSeconds (ZombieHandles.ulNow k)
              <$> ZombieHandles.processes k) in
  (exists hs,
      r.2 = closed ++ hs
      /\ NoDup hs
      /\ forall h, h ∈ hs <-> is_Some (ZombieHandles.m_ZombieHandleLookup z !! h))
  /\ ZombieHandles.m_ZombieHandleLookup r.1 = ∅
  /\ ZombieHandles.ReleaseAcquiredHandles r.1 r.2 = r
  /\ ZombieHandles.destroy z closed = r.2
  /\ ZombieHandles.destroy r.1 r.2 = r.2
  /\ ZombieHandles.AcquireNewHandlesToExistingZombies F k nAgeInSeconds r.1 r.2
     = ZombieHandles.AcquireNewHandlesToExistingZombies F k nAgeInSeconds
         ZombieHandles.fresh r.2
  /\ (ZombieHandles.retval acq = false ->
      ZombieHandles.out_closed acq = r.2
      /\ ZombieHandles.m_ZombieHandleLookup (ZombieHandles.object acq) = ∅)
  /\ (ZombieHandles.retval acq = true ->
      Forall (fun p => ZombieHandles.hThisProcess p <> 0) (ZombieHandles.processes k) ->
      NoDup retained ->
      exists cl hs,
        ZombieHandles.out_closed acq = r.2 ++ cl
        /\ NoDup hs
        /\ (forall h,
              h ∈ hs
              <-> is_Some (ZombieHandles.m_ZombieHandleLookup
                             (ZombieHandles.object acq) !! h))
        /\ hs ≡ₚ retained
        /\ given ≡ₚ cl ++ hs
        /\ ZombieHandles.destroy (ZombieHandles.object acq) (ZombieHandles.out_closed acq)
           = r.2 ++ cl ++ hs
        /\ (forall F' k' nAge', exists cl',
              ZombieHandles.out_closed
                (ZombieHandles.AcquireNewHandlesToExistingZombies F' k' nAge'
                   (ZombieHandles.object acq) (ZombieHandles.out_closed acq))
              = (r.2 ++ cl ++ hs) ++ cl')
        /\ (NoDup given -> NoDup (cl ++ hs))).
Proof.
  cbv zeta.
  assert (Hkeys : forall m : ZombieHandleLookup_t, forall h,
            h ∈ (map_to_list m).*1 <-> is_Some (m !! h)).
  { intros m h. rewrite list_elem_of_fmap. split.
    - intros ([h' x] & -> & Hin). apply elem_of_map_to_list in Hin. by exists x.
    - intros [x Hx]. exists (h, x). split; [done|]. by apply elem_of_map_to_list. }
  split.
  { exists ((map_to_list (ZombieHandles.m_ZombieHandleLookup z)).*1).
    split; [done|]. split; [apply NoDup_fst_map_to_list | apply Hkeys]. }
  split; [done|].
  split.
  { unfold ZombieHandles.ReleaseAcquiredHandles.
    cbn [fst snd ZombieHandles.m_ZombieHandleLookup ZombieHandles.m_nZombieProcesses
         ZombieHandles.m_nTotalProcesses].
    by rewrite map_to_list_empty, fmap_nil, app_nil_r. }
  split; [done|].
  split.
  { unfold ZombieHandles.destroy, ZombieHandles.ReleaseAcquiredHandles.
    cbn [fst snd ZombieHandles.m_ZombieHandleLookup].
    by rewrite map_to_list_empty, fmap_nil, app_nil_r. }
  split.
  { unfold ZombieHandles.AcquireNewHandlesToExistingZombies,
      ZombieHandles.ReleaseAcquiredHandles.
    cbn [fst snd ZombieHandles.m_ZombieHandleLookup ZombieHandles.fresh].
    by rewrite map_to_list_empty. }
  split.
  { intros Hfail.
    destruct (Acquire_failure F k nAgeInSeconds z closed Hfail) as (Hc & Hl & _).
    by split. }
  intros Hok Hnz Hnd.
  destruct (Acquire_books F k nAgeInSeconds z closed Hok Hnz Hnd)
    as (cl & Hcl & Hret & Hperm).
  exists cl, (map_to_list (ZombieHandles.m_ZombieHandleLookup
                (ZombieHandles.object
                   (ZombieHandles.AcquireNewHandlesToExistingZombies
                      F k nAgeInSeconds z closed)))).*1.
  split; [done|]. split; [apply NoDup_fst_map_to_list|].
  split; [apply Hkeys|]. split; [done|]. split; [done|].
  assert (Hdestroy :
    ZombieHandles.destroy
      (ZombieHandles.object
         (ZombieHandles.AcquireNewHandlesToExistingZombies F k nAgeInSeconds z closed))
      (ZombieHandles.out_closed
         (ZombieHandles.AcquireNewHandlesToExistingZombies F k nAgeInSeconds z closed))
    = (ZombieHandles.ReleaseAcquiredHandles z closed).2 ++ cl
      ++ (map_to_list (ZombieHandles.m_ZombieHandleLookup
            (ZombieHandles.object
               (ZombieHandles.AcquireNewHandlesToExistingZombies
                  F k nAgeInSeconds z closed)))).*1).
  { unfold ZombieHandles.destroy. rewrite Hcl.
    unfold ZombieHandles.ReleaseAcquiredHandles at 1. cbn [snd].
    by rewrite <- app_assoc. }
  split; [done|]. split.
  - intros F' k' nAge'.
    destruct (Acquire_closed F' k' nAge'
                (ZombieHandles.object
                   (ZombieHandles.AcquireNewHandlesToExistingZombies
                      F k nAgeInSeconds z closed))
                (ZombieHandles.out_closed
                   (ZombieHandles.AcquireNewHandlesToExistingZombies
                      F k nAgeInSeconds z closed))) as [cl' Hcl'].
    exists cl'. rewrite Hcl'. f_equal. exact Hdestroy.
  - intros Hgiven. by rewrite <- Hperm.
Qed.

Lemma handles_released_once_witness :
  ZombieHandles.retval
    (ZombieHandles.AcquireNewHandlesToExistingZombies Samples.plain
       (Samples.enumeration Samples.three_processes) 3 ZombieHandles.fresh []) = true
  /\ Forall (fun p => ZombieHandles.hThisProcess p <> 0) Samples.three_processes
  /\ NoDup (concat (Props.retained_by 3 Samples.now <$> Samples.three_processes))
  /\ exists cl hs,
       ZombieHandles.out_closed
         (ZombieHandles.AcquireNewHandlesToExistingZombies Samples.plain
            (Samples.enumeration Samples.three_processes) 3 ZombieHandles.fresh [])
       = [] ++ cl
       /\ hs ≡ₚ [0x20; 0x24; 0x10]
       /\ [0xC; 0x10; 0x18; 0x14; 0x20; 0x24; 0x30] ≡ₚ cl ++ hs
       /\ ZombieHandles.destroy
            (ZombieHandles.object
               (ZombieHandles.AcquireNewHandlesToExistingZombies Samples.plain
                  (Samples.enumeration Samples.three_processes) 3 ZombieHandles.fresh []))
            (ZombieHandles.out_closed
               (ZombieHandles.AcquireNewHandlesToExistingZombies Samples.plain
                  (Samples.enumeration Samples.three_processes) 3 ZombieHandles.fresh []))
          = [] ++ cl ++ hs
       /\ NoDup (cl ++ hs).
Proof.
  assert (H1 : ZombieHandles.retval
    (ZombieHandles.AcquireNewHandlesToExistingZombies Samples.plain
       (Samples.enumeration Samples.three_processes) 3 ZombieHandles.fresh []) = true).
  { vm_compute. reflexivity. }
  assert (H2 : Forall (fun p => ZombieHandles.hThisProcess p <> 0)
                 Samples.three_processes).
  { repeat constructor; cbn; lia. }
  assert (H3 : NoDup (concat (Props.retained_by 3 Samples.now
                                <$> Samples.three_processes))).
  { assert (E : concat (Props.retained_by 3 Samples.now <$> Samples.three_processes)
                = [0x20; 0x24; 0x10]) by (vm_compute; reflexivity).
    rewrite E. repeat constructor; rewrite ?elem_of_cons, ?elem_of_nil; lia. }
  assert (H4 : NoDup (concat (Props.opened_by 3 Samples.now
                                <$> Samples.three_processes))).
  { assert (E : concat (Props.opened_by 3 Samples.now <$> Samples.three_processes)
                = [0xC; 0x10; 0x18; 0x14; 0x20; 0x24; 0x30]) by (vm_compute; reflexivity).
    rewrite E. repeat constructor; rewrite ?elem_of_cons, ?elem_of_nil; lia. }
  split; [exact H1|]. split; [exact H2|]. split; [exact H3|].
  destruct (proj2 (proj2 (proj2 (proj2 (proj2 (proj2 (proj2
              (handles_released_once Samples.plain
                 (Samples.enumeration Samples.three_processes) 3
                 ZombieHandles.fresh []))))))) H1 H2 H3)
    as (cl & hs & Hcl & _ & _ & Hret & Hperm & Hdestroy & _ & Hnd).
  exists cl, hs. split; [exact Hcl|]. split; [exact Hret|]. split; [exact Hperm|].
  split; [exact Hdestroy | exact (Hnd H4)].
Defined.

(** ** Correlation *)

Section Correlation.

Import ZombieOwners.
Variable F : Formatting.
Variable sys : System.

Lemma attribute_delete e z owners zpl :
  (attribute F sys e z (owners, zpl)).2 = delete (ZombieInfo.PID z) zpl.
Proof. done. Qed.

(** Attributing an entry adds exactly one pair, under the entry's owner. *)
Lemma attribute_holds e z owners zpl owner i :
  Props.holds (attribute F sys e z (owners, zpl)).1 owner i
  <-> Props.holds owners owner i
      \/ (owner = NtInternal.UniqueProcessId e /\ i = Props.pair_of e z).
Proof.
  unfold attribute, Props.holds. cbn [fst].
  set (pid := NtInternal.UniqueProcessId e).
  destruct (decide (owner = pid)) as [->|Hne].
  - rewrite lookup_alter_eq.
    destruct (owners !! pid) as [o|] eqn:Ho.
    + rewrite Ho. simpl. split.
      * intros (o' & [= <-] & Hi). simpl in Hi.
        apply elem_of_app in Hi as [Hi|Hi]; [left; eauto|].
        apply list_elem_of_singleton in Hi. by right.
      * intros [(o' & [= <-] & Hi)|[_ ->]]; eexists; (split; [done|]); simpl;
          apply elem_of_app; [by left | right; by apply list_elem_of_singleton].
    + rewrite lookup_insert_eq. simpl. split.
      * intros (o' & [= <-] & Hi). simpl in Hi.
        apply list_elem_of_singleton in Hi. by right.
      * intros [(o' & [=] & _)|[_ ->]]. eexists; split; [done|]. simpl.
        by apply list_elem_of_singleton.
  - rewrite lookup_alter_ne by done.
    destruct (owners !! pid); [|rewrite lookup_insert_ne by done];
      (split; [by left|]; by intros [?|[? _]]).
Qed.

Variable a : AllHandlesSystemwide.t.
Variable dwCurrPID : Z.
Variables zhl addr : gmap Z ZombieProcessThreadInfo.

Local Abbreviation step := (attribution_step F sys a dwCurrPID zhl addr).

(** One step of pass 2 either changes nothing, or attributes the entry at
    its index. *)
Lemma attribution_step_cases st ix :
  (step st ix = st
   /\ forall e z, ~ Props.kept_entry a dwCurrPID zhl addr [ix] e z)
  \/ exists e z, Props.kept_entry a dwCurrPID zhl addr [ix] e z
       /\ step st ix = attribute F sys e z st.
Proof.
  unfold attribution_step, Props.kept_entry.
  destruct (AllHandlesSystemwide.read a ix) as [e|] eqn:He.
  2:{ left. split; [done|]. intros e z (ix' & Hin & He' & _).
      apply list_elem_of_singleton in Hin as ->. congruence. }
  destruct (addr !! NtInternal.Object e) as [z|] eqn:Hz.
  2:{ left. split; [done|]. intros e' z (ix' & Hin & He' & Hz' & _).
      apply list_elem_of_singleton in Hin as ->. congruence. }
  destruct (kept dwCurrPID zhl e) eqn:Hk.
  - right. exists e, z. split; [|done]. exists ix.
    split; [by apply list_elem_of_singleton | done].
  - left. split; [done|]. intros e' z' (ix' & Hin & He' & _ & Hk').
    apply list_elem_of_singleton in Hin as ->. congruence.
Qed.

Lemma kept_entry_cons ix ixs e z :
  Props.kept_entry a dwCurrPID zhl addr (ix :: ixs) e z
  <-> Props.kept_entry a dwCurrPID zhl addr [ix] e z
      \/ Props.kept_entry a dwCurrPID zhl addr ixs e z.
Proof.
  unfold Props.kept_entry. split.
  - intros (ix' & Hin & H). apply elem_of_cons in Hin as [->|Hin].
    + left. exists ix. split; [by apply list_elem_of_singleton | done].
    + right. by exists ix'.
  - intros [(ix' & Hin & H)|(ix' & Hin & H)]; exists ix'; (split; [|done]).
    + apply list_elem_of_singleton in Hin as ->. by left.
    + by right.
Qed.

(** The pairs held after pass 2 has run over the indices [ixs]. *)
Lemma attribution_holds ixs : forall st owner i,
  Props.holds (fold_left step ixs st).1 owner i
  <-> Props.holds st.1 owner i
      \/ exists e z, Props.kept_entry a dwCurrPID zhl addr ixs e z
           /\ owner = NtInternal.UniqueProcessId e /\ i = Props.pair_of e z.
Proof.
  induction ixs as [|ix ixs IH]; intros st owner i; cbn [fold_left].
  - split; [by left|]. intros [?|(e & z & (ix & Hin & _) & _)]; [done|].
    by apply elem_of_nil in Hin.
  - rewrite IH.
    destruct (attribution_step_cases st ix)
      as [[-> Hnone]|(e & z & Hk & ->)].
    + split.
      * intros [?|(e & z & Hk & ?)]; [by left|]. right. exists e, z.
        split; [|done]. apply kept_entry_cons. by right.
      * intros [?|(e & z & Hk & ?)]; [by left|]. right. exists e, z.
        split; [|done]. apply kept_entry_cons in Hk as [Hk|Hk]; [|done].
        by destruct (Hnone e z).
    + destruct st as [owners zpl]. rewrite attribute_holds. cbn [fst]. split.
      * intros [[?|[-> ->]]|(e' & z' & Hk' & ?)]; [by left| |].
        -- right. exists e, z. split; [|done]. apply kept_entry_cons. by left.
        -- right. exists e', z'. split; [|done]. apply kept_entry_cons. by right.
      * intros [?|(e' & z' & Hk' & -> & ->)]; [by left; left|].
        apply kept_entry_cons in Hk' as [Hk'|Hk'].
        -- left. right.
           destruct Hk as (ix1 & Hin1 & He1 & Hz1 & _).
           destruct Hk' as (ix2 & Hin2 & He2 & Hz2 & _).
           apply list_elem_of_singleton in Hin1 as ->.
           apply list_elem_of_singleton in Hin2 as ->.
           assert (e' = e) as -> by congruence.
           assert (z' = z) as -> by congruence. done.
        -- right. by exists e', z'.
Qed.

(** The pending set after pass 2: nothing is added to it, and exactly the
    process ids of attributed zombies are removed from it. *)
Lemma attribution_pending ixs : forall st,
  let st' := fold_left step ixs st in
  (forall k z, st'.2 !! k = Some z -> st.2 !! k = Some z)
  /\ (forall k z, st.2 !! k = Some z ->
        st'.2 !! k = Some z
        \/ exists e z', Props.kept_entry a dwCurrPID zhl addr ixs e z'
             /\ ZombieInfo.PID z' = k)
  /\ (forall e z', Props.kept_entry a dwCurrPID zhl addr ixs e z' ->
        st'.2 !! ZombieInfo.PID z' = None).
Proof.
  induction ixs as [|ix ixs IH]; intros st; cbn zeta; cbn [fold_left].
  - split; [done|]. split; [by left|].
    intros e z (ix & Hin & _). by apply elem_of_nil in Hin.
  - destruct (IH (step st ix)) as (Hsub & Hcov & Hgone).
    destruct (attribution_step_cases st ix)
      as [[Heq Hnone]|(e & z & Hk & Heq)]; rewrite Heq in *.
    + split; [done|]. split.
      * intros k z Hz. destruct (Hcov k z Hz) as [?|(e & z' & Hk & ?)]; [by left|].
        right. exists e, z'. split; [|done]. apply kept_entry_cons. by right.
      * intros e z' Hk. apply kept_entry_cons in Hk as [Hk|Hk]; [|by eapply Hgone].
        by destruct (Hnone e z').
    + destruct st as [owners zpl]. rewrite attribute_delete in *. cbn [snd].
      split; [|split].
      * intros k z0 Hz. apply Hsub in Hz.
        by apply lookup_delete_Some in Hz as [_ ?].
      * intros k z0 Hz.
        destruct (decide (ZombieInfo.PID z = k)) as [<-|Hne].
        -- right. exists e, z. split; [|done]. apply kept_entry_cons. by left.
        -- destruct (Hcov k z0) as [?|(e' & z' & Hk' & ?)]; [|by left|].
           { by rewrite lookup_delete_ne. }
           right. exists e', z'. split; [|done]. apply kept_entry_cons. by right.
      * intros e' z' Hk'. apply kept_entry_cons in Hk' as [Hk'|Hk']; [|by eapply Hgone].
        destruct Hk as (ix1 & Hin1 & He1 & Hz1 & _).
        destruct Hk' as (ix2 & Hin2 & He2 & Hz2 & _).
        apply list_elem_of_singleton in Hin1 as ->.
        apply list_elem_of_singleton in Hin2 as ->.
        assert (e' = e) as -> by congruence.
        assert (z' = z) as -> by congruence.
        match goal with
        | |- ?m !! ?k = None => destruct (m !! k) as [z0|] eqn:Hz0; [|done]
        end.
        apply Hsub in Hz0. by rewrite lookup_delete_eq in Hz0.
Qed.

(** Every record in the address lookup of pass 1 comes from discovery's
    handle lookup. *)
Lemma self_resolution_values obj z :
  self_resolution a dwCurrPID zhl !! obj = Some z -> exists h, zhl !! h = Some z.
Proof.
  unfold self_resolution.
  generalize (seqZ 0 (AllHandlesSystemwide.NumberOfHandles a)).
  assert (Hgen : forall ixs m,
    (forall o x, m !! o = Some x -> exists h, zhl !! h = Some x) ->
    fold_left (self_resolution_step a dwCurrPID zhl) ixs m !! obj = Some z ->
    exists h, zhl !! h = Some z).
  { induction ixs as [|ix ixs IH]; intros m Hm; cbn [fold_left]; [by apply Hm|].
    apply IH. unfold self_resolution_step.
    destruct (AllHandlesSystemwide.read a ix) as [e|]; [|done].
    destruct (NtInternal.UniqueProcessId e =? dwCurrPID); [|done].
    destruct (zhl !! NtInternal.HandleValue e) as [x|] eqn:Hx; [|done].
    intros o y. destruct (decide (NtInternal.Object e = o)) as [<-|Hne].
    - rewrite lookup_insert_eq. intros [= <-]. eauto.
    - rewrite lookup_insert_ne by done. apply Hm. }
  intros ixs. apply Hgen. intros o x. by rewrite lookup_empty.
Qed.

End Correlation.

Section Runs.

Import ZombieOwners.
Variable F : Formatting.
Variable sys : System.
Variable nAgeInSeconds : Z.

(** What discovery finds in this system. *)
Local Abbreviation acq :=
  (ZombieHandles.AcquireNewHandlesToExistingZombies F (zombies sys) nAgeInSeconds
     ZombieHandles.fresh []).

Lemma Acquire_keyed :
  (forall pid z, ZombieHandles.out_zombiePidLookup acq !! pid = Some z ->
     ZombieInfo.PID z = pid)
  /\ (forall h z,
        ZombieHandles.m_ZombieHandleLookup (ZombieHandles.object acq) !! h = Some z ->
        is_Some (ZombieHandles.out_zombiePidLookup acq !! ZombieInfo.PID z)).
Proof.
  unfold ZombieHandles.AcquireNewHandlesToExistingZombies,
    ZombieHandles.ReleaseAcquiredHandles.
  cbn [ZombieHandles.m_ZombieHandleLookup ZombieHandles.fresh].
  destruct (negb (ZombieHandles.ntdll (zombies sys)));
    [split; intros ? ? Hz; simpl in Hz; by rewrite lookup_empty in Hz|].
  destruct (negb _);
    [split; intros ? ? Hz; simpl in Hz; by rewrite lookup_empty in Hz|].
  cbn [ZombieHandles.out_zombiePidLookup ZombieHandles.object].
  apply (enumeration_keyed F).
  split; intros ? ? Hz; simpl in Hz; by rewrite lookup_empty in Hz.
Qed.

Local Abbreviation correlated := (Props.correlated F sys nAgeInSeconds).

(** A successful Update_Impl, taken apart. *)
Lemma Update_Impl_success sDiag o th r :
  Update_Impl F sys nAgeInSeconds sDiag o th = Some r ->
  retval r = true ->
  exists a e qs,
    ZombieHandles.retval acq = true
    /\ AllHandlesSystemwide.Update F (handles sys) AllHandlesSystemwide.fresh
       = Some (true, e, a, qs)
    /\ m_owners (object r) = (correlated a).1
    /\ m_unexplained (object r) = (map_to_list (correlated a).2).*2
    /\ m_ownersSorted (object r)
       = std_sort (ZombieOwnerComparator (towlower sys))
           (m_ownersSorted o ++ (map_to_list (correlated a).1).*2).
Proof.
  unfold Update_Impl, Props.correlated.
  destruct (Acquire_fresh F (zombies sys) nAgeInSeconds ZombieHandles.fresh
              (SecurityUtils.closed th)) as (-> & -> & -> & ->).
  destruct (negb (ZombieHandles.retval acq)) eqn:Hacq.
  { intros [= <-]. discriminate. }
  apply negb_false_iff in Hacq.
  destruct (AllHandlesSystemwide.Update F (handles sys) AllHandlesSystemwide.fresh)
    as [[[[[] e] a] qs]|]; [| |discriminate].
  2:{ intros [= <-]. discriminate. }
  unfold ZombieHandles.ZombieHandleLookup.
  destruct (attribution _ _ _ _ _ _ _) as [owners zpl] eqn:Hatt.
  intros [= <-] _. exists a, e, qs. rewrite Hatt.
  cbn [object m_owners m_unexplained m_ownersSorted fst snd].
  repeat split; try done.
  destruct (Z.of_nat (size zpl) >? 0) eqn:Hsize; [done|].
  assert (zpl = ∅) as ->; [|by rewrite map_to_list_empty].
  apply map_size_empty_iff. lia.
Qed.

(** Update succeeds only through a successful Update_Impl. *)
Lemma Update_success sDiag o th r :
  Update F sys nAgeInSeconds sDiag o th = Some r ->
  retval r = true ->
  exists th' r', Update_Impl F sys nAgeInSeconds sDiag o th' = Some r'
    /\ retval r' = true /\ object r = object r'.
Proof.
  unfold Update. destruct (ImpersonateSelf sys); [intros [= <-]; discriminate|].
  destruct (SecurityUtils.EnablePrivilege _ _ _) as [[[] e] th'];
    [|intros [= <-]; discriminate].
  destruct (Update_Impl _ _ _ _ _ _) as [r'|] eqn:Himpl; [|discriminate].
  intros [= <-] Hret. by exists th', r'.
Qed.

End Runs.

(** C2.  In pass 2, take a snapshot entry whose object address is in the
    address lookup.  If it is discovery's own reference (owned by the
    discovery process, under a handle value that is in discovery's handle
    lookup), no owner record gets a pair for that process and handle value.
    Otherwise, including when it is in the discovery process under a handle
    value discovery does not hold, its pair is in the record of its owning
    process.  The pairs held at the end are exactly those of the entries
    kept. *)
Theorem own_references_not_attributed (F : Formatting) (sys : ZombieOwners.System)
    (a : AllHandlesSystemwide.t) (dwCurrPID : Z)
    (zombieHandleLookup zombieObjectAddrLookup zombiePidLookup :
       gmap Z ZombieProcessThreadInfo)
    (ix : Z) (e : SYSTEM_HANDLE_TABLE_ENTRY_INFO_EX) (z : ZombieProcessThreadInfo) :
  0 <= ix < AllHandlesSystemwide.NumberOfHandles a ->
  AllHandlesSystemwide.read a ix = Some e ->
  zombieObjectAddrLookup !! NtInternal.Object e = Some z ->
  let owners :=
    (ZombieOwners.attribution F sys a dwCurrPID zombieHandleLookup
       zombieObjectAddrLookup (∅, zombiePidLookup)).1 in
  (Props.own_reference dwCurrPID zombieHandleLookup e ->
   forall i, Props.holds owners (NtInternal.UniqueProcessId e) i ->
     ZombieOwners.handleValue i <> NtInternal.HandleValue e)
  /\ (~ Props.own_reference dwCurrPID zombieHandleLookup e ->
      Props.holds owners (NtInternal.UniqueProcessId e) (Props.pair_of e z))
  /\ (forall owner i,
        Props.holds owners owner i
        <-> exists e' z',
              Props.kept_entry a dwCurrPID zombieHandleLookup zombieObjectAddrLookup
                (seqZ 0 (AllHandlesSystemwide.NumberOfHandles a)) e' z'
              /\ owner = NtInternal.UniqueProcessId e' /\ i = Props.pair_of e' z').
Proof.
  intros Hix He Hz owners.
  assert (Hall : forall owner i,
    Props.holds owners owner i
    <-> exists e' z',
          Props.kept_entry a dwCurrPID zombieHandleLookup zombieObjectAddrLookup
            (seqZ 0 (AllHandlesSystemwide.NumberOfHandles a)) e' z'
          /\ owner = NtInternal.UniqueProcessId e' /\ i = Props.pair_of e' z').
  { intros owner i. unfold owners, ZombieOwners.attribution.
    rewrite attribution_holds. cbn [fst]. split; [|by right].
    intros [(o & Ho & _)|?]; [|done]. by rewrite lookup_empty in Ho. }
  split; [|split; [|exact Hall]].
  - intros [Hpid Hown] i Hi. apply Hall in Hi as (e' & z' & Hk & Hp & ->).
    destruct Hk as (_ & _ & _ & _ & Hkept). cbn [Props.pair_of ZombieOwners.handleValue].
    intros Hh. unfold ZombieOwners.kept in Hkept.
    rewrite <- Hp, Hpid, Z.eqb_refl in Hkept. cbn [negb orb] in Hkept.
    apply bool_decide_eq_true in Hkept. rewrite Hh in Hkept.
    rewrite Hkept in Hown. by destruct Hown.
  - intros Hnot. apply Hall. exists e, z. split; [|done].
    exists ix. split; [apply elem_of_seqZ; lia|]. split; [done|]. split; [done|].
    unfold ZombieOwners.kept.
    destruct (NtInternal.UniqueProcessId e =? dwCurrPID) eqn:Hp; [|done].
    apply Z.eqb_eq in Hp. cbn [negb orb]. apply bool_decide_eq_true.
    destruct (zombieHandleLookup !! NtInternal.HandleValue e) eqn:Hl; [|done].
    destruct Hnot. split; [done|]. by rewrite Hl.
Qed.

Lemma own_references_not_attributed_witness :
  Props.holds
    (ZombieOwners.attribution Samples.plain Samples.one_owner Samples.held_two 7
       Samples.lookup100 Samples.addr100 (∅, ∅)).1
    200 (Props.pair_of (Samples.entry 200 0x44 0xAAAA) (Samples.zombie100 10)).
Proof.
  refine (proj1 (proj2 (own_references_not_attributed Samples.plain Samples.one_owner
    Samples.held_two 7 Samples.lookup100 Samples.addr100 ∅
    1 (Samples.entry 200 0x44 0xAAAA) (Samples.zombie100 10) _ _ _)) _).
  - vm_compute. split; congruence.
  - reflexivity.
  - reflexivity.
  - intros [H _]. vm_compute in H. discriminate.
Defined.

(** The entry (7, 0x10, 0xAAAA) of the same snapshot is discovery's own
    reference; process 7 gets no owner record at all. *)
Example own_reference_run :
  (ZombieOwners.attribution Samples.plain Samples.one_owner Samples.held_two 7
     Samples.lookup100 Samples.addr100 (∅, ∅)).1 !! 7 = None.
Proof. vm_compute. reflexivity. Qed.

(** C1.  After a successful Update, each zombie process id that discovery
    found is either the zombie of a pair of some owner record or the id of a
    record in the unexplained list, and not both; and every process id that
    occurs in either place is one that discovery found. *)
Theorem zombies_partitioned (F : Formatting) (sys : ZombieOwners.System)
    (nAgeInSeconds : Z) (sDiagDirectory : list Z) (o : ZombieOwners.t)
    (th : SecurityUtils.Thread) (r : ZombieOwners.Outcome) :
  ZombieOwners.Update F sys nAgeInSeconds sDiagDirectory o th = Some r ->
  ZombieOwners.retval r = true ->
  (forall pid, pid ∈ Props.discovered F sys nAgeInSeconds ->
     (Props.attributed (ZombieOwners.OwnersCollection (ZombieOwners.object r)) pid
      \/ Props.unexplained (ZombieOwners.UnexplainedZombies (ZombieOwners.object r)) pid)
     /\ ~ (Props.attributed (ZombieOwners.OwnersCollection (ZombieOwners.object r)) pid
           /\ Props.unexplained
                (ZombieOwners.UnexplainedZombies (ZombieOwners.object r)) pid))
  /\ (forall pid,
        Props.attributed (ZombieOwners.OwnersCollection (ZombieOwners.object r)) pid
        \/ Props.unexplained (ZombieOwners.UnexplainedZombies (ZombieOwners.object r)) pid ->
        pid ∈ Props.discovered F sys nAgeInSeconds).
Proof.
  intros Hrun Hret.
  destruct (Update_success F sys nAgeInSeconds _ _ _ _ Hrun Hret) as (th' & r' & Himpl & Hret' & ->).
  destruct (Update_Impl_success F sys nAgeInSeconds _ _ _ _ Himpl Hret')
    as (a & e0 & qs & _ & _ & Howners & Hunex & _).
  unfold ZombieOwners.OwnersCollection, ZombieOwners.UnexplainedZombies, Props.discovered.
  rewrite Howners, Hunex. clear Hrun Himpl Howners Hunex Hret Hret' r'.
  destruct (Acquire_keyed F sys nAgeInSeconds) as [Hkey Hhandles].
  unfold Props.correlated, ZombieOwners.attribution.
  set (acq := ZombieHandles.AcquireNewHandlesToExistingZombies F _ _ _ _) in *.
  set (zhl := ZombieHandles.m_ZombieHandleLookup (ZombieHandles.object acq)) in *.
  set (curr := ZombieOwners.GetCurrentProcessId sys).
  set (addr := ZombieOwners.self_resolution a curr zhl).
  set (ixs := seqZ 0 (AllHandlesSystemwide.NumberOfHandles a)).
  set (zpl0 := ZombieHandles.out_zombiePidLookup acq) in *.
  destruct (attribution_pending F sys a curr zhl addr ixs (∅, zpl0)) as (Hsub & Hcov & Hgone).
  cbn [snd] in Hsub, Hcov.
  set (st := fold_left _ ixs (∅, zpl0)) in *.
  assert (Hatt : forall pid, Props.attributed st.1 pid
    <-> exists e z, Props.kept_entry a curr zhl addr ixs e z /\ ZombieInfo.PID z = pid).
  { intros pid. unfold Props.attributed, st. split.
    - intros (owner & i & Hi & Hp). apply attribution_holds in Hi as [(x & Hx & _)|Hi].
      { cbn [fst] in Hx. by rewrite lookup_empty in Hx. }
      destruct Hi as (e & z & Hk & _ & ->). by exists e, z.
    - intros (e & z & Hk & Hp). exists (NtInternal.UniqueProcessId e), (Props.pair_of e z).
      split; [|done]. apply attribution_holds. right. by exists e, z. }
  assert (Hun : forall pid, Props.unexplained (map_to_list st.2).*2 pid
    <-> is_Some (st.2 !! pid)).
  { intros pid. unfold Props.unexplained. split.
    - intros (z & Hin & Hp). apply list_elem_of_fmap in Hin as ([k z'] & -> & Hin).
      apply elem_of_map_to_list in Hin. cbn [snd] in Hp.
      pose proof (Hkey _ _ (Hsub _ _ Hin)) as Hk. rewrite Hp in Hk. subst k. eauto.
    - intros [z Hz]. exists z. split.
      + apply list_elem_of_fmap. exists (pid, z). split; [done|].
        by apply elem_of_map_to_list.
      + by apply (Hkey pid), Hsub. }
  split.
  - intros pid Hpid. apply elem_of_dom in Hpid as [z Hz]. split.
    + destruct (Hcov pid z Hz) as [Hstill|Hgot].
      * right. apply Hun. eauto.
      * left. by apply Hatt.
    + intros [Ha Hu]. apply Hatt in Ha as (e & z' & Hk & <-).
      apply Hun in Hu as [z'' Hu]. by rewrite (Hgone e z' Hk) in Hu.
  - intros pid [Ha|Hu]; apply elem_of_dom.
    + apply Hatt in Ha as (e & z & (ix & _ & _ & Haddr & _) & <-).
      apply self_resolution_values in Haddr as [h Hh]. by eapply Hhandles.
    + apply Hun in Hu as [z Hz]. apply Hsub in Hz. eauto.
Qed.

Lemma zombies_partitioned_witness :
  exists r,
    ZombieOwners.Update Samples.plain Samples.one_owner 3 [] ZombieOwners.fresh
      Samples.thread0 = Some r
    /\ ZombieOwners.retval r = true
    /\ 100 ∈ Props.discovered Samples.plain Samples.one_owner 3
    /\ (Props.attributed (ZombieOwners.OwnersCollection (ZombieOwners.object r)) 100
        \/ Props.unexplained (ZombieOwners.UnexplainedZombies (ZombieOwners.object r)) 100).
Proof.
  eexists. split; [vm_compute; reflexivity|]. split; [reflexivity|].
  assert (H : 100 ∈ Props.discovered Samples.plain Samples.one_owner 3).
  { apply elem_of_dom. vm_compute. eauto. }
  split; [exact H|].
  refine (proj1 (proj1 (zombies_partitioned Samples.plain Samples.one_owner 3 []
    ZombieOwners.fresh Samples.thread0 _ _ _) 100 H)).
  - vm_compute. reflexivity.
  - reflexivity.
Defined.

(** ** The sorted view *)

Section Sorting.

Import ZombieOwners.
Variable lower : Z -> Z.
Hypothesis lower_nul : lower 0 = 0.

Lemma wcsicmp_antisym a : forall b, _wcsicmp lower a b = - _wcsicmp lower b a.
Proof.
  induction a as [|c a IH]; intros [|d b]; cbn [_wcsicmp c_char hd List.tl];
    rewrite ?lower_nul.
  - lia.
  - destruct (lower d =? 0); cbn [orb negb]; lia.
  - destruct (lower c =? 0); cbn [orb negb]; lia.
  - rewrite (Z.eqb_sym (lower d) (lower c)).
    destruct (lower c =? lower d) eqn:Hcd; cbn [negb]; rewrite ?orb_true_r; [|lia].
    apply Z.eqb_eq in Hcd. rewrite Hcd, !orb_false_r.
    destruct (lower d =? 0); [lia|]. apply IH.
Qed.






End Sorting.




(** ** Exit paths of Update *)

Section Exits.

Import ZombieOwners.
Variable F : Formatting.
Variable sys : System.
Variable nAgeInSeconds : Z.

Local Abbreviation acq :=
  (ZombieHandles.AcquireNewHandlesToExistingZombies F (zombies sys) nAgeInSeconds
     ZombieHandles.fresh []).

(** Update_Impl does not touch the thread's token. *)
Lemma Update_Impl_thread sDiag o th r :
  Update_Impl F sys nAgeInSeconds sDiag o th = Some r ->
  SecurityUtils.impersonating (thread r) = SecurityUtils.impersonating th
  /\ SecurityUtils.debug_enabled (thread r) = SecurityUtils.debug_enabled th.
Proof.
  unfold Update_Impl.
  destruct (negb (ZombieHandles.retval _)); [by intros [= <-]|].
  destruct (AllHandlesSystemwide.Update _ _ _) as [[[[[] e] a] qs]|];
    [|by intros [= <-]|discriminate].
  destruct (attribution _ _ _ _ _ _ _). by intros [= <-].
Qed.

(** Where Update reverts: whenever it got as far as Update_Impl.  Where it
    does not: when ImpersonateSelf succeeded and the privilege could not be
    enabled. *)
Lemma Update_thread sDiag o th r :
  Update F sys nAgeInSeconds sDiag o th = Some r ->
  match ImpersonateSelf sys with
  | Some _ => thread r = th
  | None =>
      if (SecurityUtils.EnablePrivilege F (token sys) (SecurityUtils.ImpersonateSelf th)).1.1
      then SecurityUtils.impersonating (thread r) = false
           /\ SecurityUtils.debug_enabled (thread r) = false
      else SecurityUtils.impersonating (thread r) = true
  end.
Proof.
  unfold Update. destruct (ImpersonateSelf sys); [by intros [= <-]|].
  destruct (SecurityUtils.EnablePrivilege _ _ _) as [[[] e] th'] eqn:Hpriv; cbn [fst].
  - destruct (Update_Impl _ _ _ _ _ _); [|discriminate]. by intros [= <-].
  - intros [= <-]. cbn [thread]. revert Hpriv. unfold SecurityUtils.EnablePrivilege.
    destruct (SecurityUtils.OpenThreadToken (token sys)); [|by intros [= <- <-]].
    destruct (if (SecurityUtils.LookupPrivilegeValueW (token sys)).1 then _ else _)
      as [ret err].
    destruct (negb ret || negb (err =? ERROR_SUCCESS)); [|discriminate].
    by intros [= <- <-].
Qed.

(** A failed Update_Impl, taken apart. *)
Lemma Update_Impl_failure sDiag o th r :
  Update_Impl F sys nAgeInSeconds sDiag o th = Some r ->
  retval r = false ->
  m_owners (object r) = ∅
  /\ m_unexplained (object r) = []
  /\ m_ownersSorted (object r) = m_ownersSorted o
  /\ ((ZombieHandles.retval acq = false
       /\ m_nTotalProcesses (object r) = 0
       /\ m_nZombieProcesses (object r) = 0
       /\ m_nZombieProcessesAndThreads (object r) = 0)
      \/ (ZombieHandles.retval acq = true
          /\ m_nTotalProcesses (object r)
             = ZombieHandles.TotalProcessCount (ZombieHandles.object acq)
          /\ m_nZombieProcesses (object r)
             = ZombieHandles.ZombieProcessCount (ZombieHandles.object acq)
          /\ m_nZombieProcessesAndThreads (object r)
             = Z.of_nat (size (ZombieHandles.ZombieHandleLookup (ZombieHandles.object acq))))).
Proof.
  unfold Update_Impl.
  destruct (Acquire_fresh F (zombies sys) nAgeInSeconds ZombieHandles.fresh
              (SecurityUtils.closed th)) as (-> & -> & -> & ->).
  destruct (negb (ZombieHandles.retval acq)) eqn:Hacq.
  { apply negb_true_iff in Hacq. intros [= <-] _. cbn. repeat split. by left. }
  apply negb_false_iff in Hacq.
  destruct (AllHandlesSystemwide.Update _ _ _) as [[[[[] e] a] qs]|]; [| |discriminate].
  { destruct (attribution _ _ _ _ _ _ _). intros [= <-]. discriminate. }
  intros [= <-] _. cbn. repeat split. by right.
Qed.

End Exits.

(** C3.  ZombieOwners::Update does not revert on every exit path.  When
    ImpersonateSelf succeeds and the Debug Programs privilege cannot be
    enabled (here AdjustTokenPrivileges answers ERROR_NOT_ALL_ASSIGNED),
    Update returns false while the thread is still impersonating. *)
Theorem privilege_failure_keeps_impersonating :
  exists r,
    ZombieOwners.Update Samples.plain Samples.not_admin 3 [] ZombieOwners.fresh
      Samples.thread0 = Some r
    /\ ZombieOwners.retval r = false
    /\ SecurityUtils.impersonating Samples.thread0 = false
    /\ SecurityUtils.impersonating (ZombieOwners.thread r) = true.
Proof. eexists. split; [vm_compute; reflexivity|]. by repeat split. Qed.

(** C4, as the code has it.  When Update fails before Update_Impl starts
    (ImpersonateSelf or the privilege), the object is left as it was.  When
    it fails later, the owners collection and the unexplained list are
    empty; the three counters are zero if discovery failed, and are
    discovery's counts if discovery succeeded and the handle snapshot failed.
    On a newly constructed object all three collections are empty after any
    failure. *)
Theorem failed_update_results (F : Formatting) (sys : ZombieOwners.System)
    (nAgeInSeconds : Z) (sDiagDirectory : list Z) (o : ZombieOwners.t)
    (th : SecurityUtils.Thread) (r : ZombieOwners.Outcome) :
  ZombieOwners.Update F sys nAgeInSeconds sDiagDirectory o th = Some r ->
  ZombieOwners.retval r = false ->
  let acq :=
    ZombieHandles.AcquireNewHandlesToExistingZombies F (ZombieOwners.zombies sys)
      nAgeInSeconds ZombieHandles.fresh [] in
  let started :=
    bool_decide (ZombieOwners.ImpersonateSelf sys = None)
    && (SecurityUtils.EnablePrivilege F (ZombieOwners.token sys)
          (SecurityUtils.ImpersonateSelf th)).1.1 in
  (started = false -> ZombieOwners.object r = o)
  /\ (started = true ->
      ZombieOwners.OwnersCollection (ZombieOwners.object r) = ∅
      /\ ZombieOwners.UnexplainedZombies (ZombieOwners.object r) = []
      /\ (ZombieHandles.retval acq = false ->
          ZombieOwners.TotalProcessCount (ZombieOwners.object r) = 0
          /\ ZombieOwners.ZombieProcessCount (ZombieOwners.object r) = 0
          /\ ZombieOwners.ZombieProcessAndThreadCount (ZombieOwners.object r) = 0)
      /\ (ZombieHandles.retval acq = true ->
          ZombieOwners.TotalProcessCount (ZombieOwners.object r)
          = ZombieHandles.TotalProcessCount (ZombieHandles.object acq)
          /\ ZombieOwners.ZombieProcessCount (ZombieOwners.object r)
             = ZombieHandles.ZombieProcessCount (ZombieHandles.object acq)
          /\ ZombieOwners.ZombieProcessAndThreadCount (ZombieOwners.object r)
             = Z.of_nat (size (ZombieHandles.ZombieHandleLookup (ZombieHandles.object acq)))))
  /\ (o = ZombieOwners.fresh ->
      ZombieOwners.OwnersCollection (ZombieOwners.object r) = ∅
      /\ ZombieOwners.OwnersCollectionSorted (ZombieOwners.object r) = []
      /\ ZombieOwners.UnexplainedZombies (ZombieOwners.object r) = []).
Proof.
  intros Hrun Hret acq started.
  unfold ZombieOwners.OwnersCollection, ZombieOwners.OwnersCollectionSorted,
    ZombieOwners.UnexplainedZombies, ZombieOwners.TotalProcessCount,
    ZombieOwners.ZombieProcessCount, ZombieOwners.ZombieProcessAndThreadCount.
  unfold ZombieOwners.Update in Hrun. subst started.
  destruct (ZombieOwners.ImpersonateSelf sys) as [err|].
  { injection Hrun as <-. cbn. split; [done|]. split; [done|]. by intros ->. }
  rewrite bool_decide_eq_true_2 by done. cbn [andb].
  destruct (SecurityUtils.EnablePrivilege _ _ _) as [[[] e] th'] eqn:Hpriv; cbn [fst].
  2:{ injection Hrun as <-. cbn. split; [done|]. split; [done|]. by intros ->. }
  destruct (ZombieOwners.Update_Impl _ _ _ _ _ _) as [r'|] eqn:Himpl; [|discriminate].
  injection Hrun as <-. cbn [ZombieOwners.object ZombieOwners.retval] in *.
  destruct (Update_Impl_failure F sys nAgeInSeconds _ _ _ _ Himpl Hret)
    as (Ho & Hu & Hs & Hcounts).
  split; [done|]. split.
  - intros _. split; [done|]. split; [done|].
    fold acq in Hcounts. split; intros Hacq; destruct Hcounts as [(Hf & ?)|(Ht & ?)];
      try done; congruence.
  - intros ->. rewrite Hs. done.
Qed.

Lemma failed_update_results_witness :
  exists r,
    ZombieOwners.Update Samples.plain Samples.snapshot_fails 3 [] ZombieOwners.fresh
      Samples.thread0 = Some r
    /\ ZombieOwners.retval r = false
    /\ ZombieOwners.OwnersCollection (ZombieOwners.object r) = ∅
    /\ ZombieOwners.OwnersCollectionSorted (ZombieOwners.object r) = []
    /\ ZombieOwners.UnexplainedZombies (ZombieOwners.object r) = [].
Proof.
  eexists. split; [vm_compute; reflexivity|]. split; [reflexivity|].
  refine (proj2 (proj2 (failed_update_results Samples.plain Samples.snapshot_fails 3 []
    ZombieOwners.fresh Samples.thread0 _ _ _)) eq_refl).
  - vm_compute. reflexivity.
  - reflexivity.
Defined.

(** C4, as stated, fails: discovery counts three processes (one of them a
    zombie), the handle snapshot then fails, Update returns false, and the
    counters still read 3, 1 and 1. *)
Lemma failed_update_keeps_counts :
  exists r,
    ZombieOwners.Update Samples.plain Samples.snapshot_fails 3 [] ZombieOwners.fresh
      Samples.thread0 = Some r
    /\ ZombieOwners.retval r = false
    /\ ZombieOwners.TotalProcessCount (ZombieOwners.object r) = 3
    /\ ZombieOwners.ZombieProcessCount (ZombieOwners.object r) = 1
    /\ ZombieOwners.ZombieProcessAndThreadCount (ZombieOwners.object r) = 1
    /\ ~ Props.no_results (ZombieOwners.object r).
Proof.
  eexists. split; [vm_compute; reflexivity|]. repeat split.
  intros (_ & _ & _ & H & _). vm_compute in H. discriminate.
Qed.

(** C5.  The sorted view is not rebuilt from scratch: Update_Impl clears
    m_owners and m_unexplained but appends to m_ownersSorted.  After a second
    successful Update on the same object, with one owner found in each run,
    the owners collection has one entry and the sorted view has two. *)
Theorem sorted_view_keeps_earlier_run :
  exists r1 r2,
    ZombieOwners.Update Samples.plain Samples.one_owner 3 [] ZombieOwners.fresh
      Samples.thread0 = Some r1
    /\ ZombieOwners.retval r1 = true
    /\ ZombieOwners.Update Samples.plain Samples.one_owner 3 []
         (ZombieOwners.object r1) (ZombieOwners.thread r1) = Some r2
    /\ ZombieOwners.retval r2 = true
    /\ size (ZombieOwners.OwnersCollection (ZombieOwners.object r2)) = 1%nat
    /\ length (ZombieOwners.OwnersCollectionSorted (ZombieOwners.object r2)) = 2%nat.
Proof.
  eexists _, _. split; [vm_compute; reflexivity|]. split; [reflexivity|].
  split; [vm_compute; reflexivity|]. by repeat split.
Qed.



(** One zombie, one holder: a single owner record for process 200 with a
    single pair for process 100, and nothing unexplained. *)
Example one_owner_run :
  exists r,
    ZombieOwners.Update Samples.plain Samples.one_owner 3 [] ZombieOwners.fresh
      Samples.thread0 = Some r
    /\ ZombieOwners.retval r = true
    /\ ((fun p => (p.1, ZombieOwners.zombieOwningInfo p.2))
          <$> map_to_list (ZombieOwners.OwnersCollection (ZombieOwners.object r)))
       = [(200, [Props.pair_of (Samples.entry 200 0x44 0xAAAA) (Samples.zombie100 10)])]
    /\ ZombieOwners.UnexplainedZombies (ZombieOwners.object r) = [].
Proof. eexists. split; [vm_compute; reflexivity|]. by repeat split. Qed.

(** The same zombie with no holder in the snapshot: no owner record, and the
    zombie is unexplained. *)
Example no_owner_run :
  exists r,
    ZombieOwners.Update Samples.plain Samples.no_owner 3 [] ZombieOwners.fresh
      Samples.thread0 = Some r
    /\ ZombieOwners.retval r = true
    /\ ZombieOwners.OwnersCollection (ZombieOwners.object r) = ∅
    /\ ZombieOwners.UnexplainedZombies (ZombieOwners.object r) = [Samples.zombie100 10].
Proof. eexists. split; [vm_compute; reflexivity|]. by repeat split. Qed.

(** * Further properties *)

(** ** HeapMem *)

(** HeapMem::Alloc.  It returns true exactly when the process heap is
    available, the block held before (if any) could be freed, and HeapAlloc
    delivers; the object then holds the new block with the requested size.
    When it returns false the object holds no block and size 0, except that
    the old block stays in place when the process heap cannot be had.  In
    every case a missing block goes with size 0. *)
Theorem HeapMem_Alloc_outcome (F : Formatting) (h : HeapMem.Heap)
    (HeapAlloc : option SYSTEM_HANDLE_INFORMATION_EX) (nBytes : Z) (m : HeapMem.t) :
  Props.tidy m ->
  let r := HeapMem.Alloc F h HeapAlloc nBytes m in
  Props.tidy r.2
  /\ (r.1.1 = true
      <-> HeapMem.GetProcessHeap h = None
          /\ (HeapMem.m_pMem m = None \/ HeapMem.HeapFree h = None)
          /\ HeapAlloc <> None)
  /\ (r.1.1 = true -> HeapMem.Get r.2 = HeapAlloc /\ HeapMem.Size r.2 = nBytes)
  /\ (r.1.1 = false ->
      (r.2 = m /\ is_Some (HeapMem.m_pMem m) /\ is_Some (HeapMem.GetProcessHeap h))
      \/ (HeapMem.Get r.2 = None /\ HeapMem.Size r.2 = 0)).
Proof.
  intros Htidy. cbv zeta.
  unfold HeapMem.Alloc, HeapMem.Dealloc, HeapMem.ProcessHeap, HeapMem.Get, HeapMem.Size,
    Props.tidy in *.
  destruct (HeapMem.m_pMem m) as [b|] eqn:Hm;
    destruct (HeapMem.GetProcessHeap h) as [e|] eqn:Hheap;
    destruct (HeapMem.HeapFree h) as [e'|] eqn:Hfree;
    destruct HeapAlloc as [blk|]; cbn;
    rewrite ?Hm; cbn;
    (split; [try done; by auto|]);
    (split; [split; [try done; intros _; repeat split; eauto; done
                    | try done; intros (? & [?|?] & ?); done]|]);
    (split; [try done|]); try done; intros _; eauto.
Qed.

Lemma HeapMem_Alloc_outcome_witness :
  Props.tidy HeapMem.fresh
  /\ HeapMem.Size (HeapMem.Alloc Samples.plain Samples.heap_ok
                     (Some (Samples.table [])) 500 HeapMem.fresh).2 = 500.
Proof.
  assert (H : Props.tidy HeapMem.fresh) by done.
  split; [exact H|].
  refine (proj2 (proj1 (proj2 (proj2 (HeapMem_Alloc_outcome Samples.plain Samples.heap_ok
    (Some (Samples.table [])) 500 HeapMem.fresh H))) _)).
  reflexivity.
Defined.

(** HeapMem::Dealloc.  With no block held it succeeds and changes nothing.
    With a block held it keeps the block (and fails) only when the process
    heap cannot be had; otherwise it forgets the block, also when HeapFree
    fails and Dealloc returns false, so that a further Dealloc succeeds
    without touching the heap again. *)
Theorem HeapMem_Dealloc_outcome (F : Formatting) (h : HeapMem.Heap) (m : HeapMem.t) :
  let r := HeapMem.Dealloc F h m in
  (HeapMem.Get m = None -> r = (true, [], m))
  /\ (is_Some (HeapMem.Get m) ->
      match HeapMem.GetProcessHeap h with
      | Some _ => r.1.1 = false /\ r.2 = m
      | None =>
          r.2 = HeapMem.fresh
          /\ (r.1.1 = true <-> HeapMem.HeapFree h = None)
          /\ HeapMem.Dealloc F h r.2 = (true, [], r.2)
      end).
Proof.
  cbv zeta. unfold HeapMem.Dealloc, HeapMem.ProcessHeap, HeapMem.Get.
  destruct (HeapMem.m_pMem m) as [b|] eqn:Hm.
  - split; [discriminate|]. intros _.
    destruct (HeapMem.GetProcessHeap h); [done|].
    destruct (HeapMem.HeapFree h); cbn; repeat split; done.
  - split; [done|]. by intros [? ?].
Qed.

(** ** AllHandlesSystemwide::Update, outcome by outcome *)

Section SnapshotOutcomes.

Import AllHandlesSystemwide.
Variable F : Formatting.

Lemma Alloc_succeeds_quietly h ha n m e m' :
  HeapMem.Alloc F h ha n m = (true, e, m') -> e = [].
Proof.
  unfold HeapMem.Alloc, HeapMem.Dealloc, HeapMem.ProcessHeap.
  destruct (HeapMem.m_pMem m); destruct (HeapMem.GetProcessHeap h);
    destruct (HeapMem.HeapFree h); destruct ha; cbn; congruence.
Qed.

Lemma Alloc_fails_empty h ha n m e m' :
  HeapMem.GetProcessHeap h = None ->
  HeapMem.Alloc F h ha n m = (false, e, m') -> HeapMem.m_pMem m' = None.
Proof.
  intros Hheap. unfold HeapMem.Alloc, HeapMem.Dealloc, HeapMem.ProcessHeap.
  rewrite Hheap.
  destruct (HeapMem.m_pMem m) eqn:Hm; destruct (HeapMem.HeapFree h); destruct ha; cbn;
    intros H; inversion H; subst; done.
Qed.

Lemma Clear_empties h a :
  HeapMem.GetProcessHeap h = None -> Get (Clear F h a) = None.
Proof.
  intros Hheap. unfold Get, Clear, HeapMem.Get, HeapMem.Dealloc, HeapMem.ProcessHeap.
  rewrite Hheap. cbn [m_Mem].
  destruct (HeapMem.m_pMem (m_Mem a)) eqn:Hm; [|done].
  by destruct (HeapMem.HeapFree h).
Qed.

Lemma Update_loop_outcome h calls : forall r a qs ret e a' qs',
  Update_loop F h calls r a qs = Some (ret, e, a', qs') ->
  (ret = true ->
   exists n call,
     calls !! n = Some call
     /\ q_status call = STATUS_SUCCESS
     /\ (forall i c, (i < n)%nat -> calls !! i = Some c ->
           q_status c = STATUS_INFO_LENGTH_MISMATCH)
     /\ Get a' = Some (q_written call)
     /\ length qs' = (length qs + S n)%nat
     /\ e = [])
  /\ (ret = false -> HeapMem.GetProcessHeap h = None ->
      Get a' = None
      \/ exists call,
           call ∈ calls
           /\ q_status call <> STATUS_SUCCESS
           /\ q_status call <> STATUS_INFO_LENGTH_MISMATCH
           /\ Get a' = Some (q_written call)).
Proof.
  induction calls as [|call calls IH]; intros r a qs ret e a' qs'; cbn [Update_loop].
  - destruct (wrap32 (r + r / 4) <? r); [|discriminate].
    intros [= <- <- <- <-]. split; [discriminate|]. intros _ Hheap. left.
    by apply Clear_empties.
  - destruct (wrap32 (r + r / 4) <? r).
    { intros [= <- <- <- <-]. split; [discriminate|]. intros _ Hheap. left.
      by apply Clear_empties. }
    destruct (HeapMem.Alloc F h (q_HeapAlloc call) (wrap32 (r + r / 4))
                (m_Mem (Clear F h a))) as [[[] e0] m] eqn:Halloc.
    2:{ intros [= <- <- <- <-]. split; [discriminate|]. intros _ Hheap. left.
        unfold Get, HeapMem.Get. cbn [m_Mem]. by eapply Alloc_fails_empty. }
    apply Alloc_succeeds_quietly in Halloc as ->.
    destruct (Z.eqb_spec (q_status call) STATUS_SUCCESS) as [Hs|Hs].
    { intros [= <- <- <- <-]. split; [|discriminate]. intros _.
      exists 0%nat, call. repeat split; try done.
      - intros i c Hi. lia.
      - rewrite length_app. cbn. lia. }
    destruct (Z.eqb_spec (q_status call) STATUS_INFO_LENGTH_MISMATCH) as [Hm|Hm].
    2:{ intros [= <- <- <- <-]. split; [discriminate|]. intros _ _. right.
        exists call. repeat split; try done. by left. }
    intros Hloop. destruct (IH _ _ _ _ _ _ _ Hloop) as [Hok Hfail]. split.
    + intros Hret. destruct (Hok Hret) as (n & c & Hn & Hc & Hbefore & Hget & Hlen & He).
      exists (S n), c. repeat split; try done.
      * intros [|i] c' Hi Hc'; [by injection Hc' as <-|].
        apply (Hbefore i); [lia | done].
      * rewrite Hlen, length_app. cbn. lia.
    + intros Hret Hheap. destruct (Hfail Hret Hheap) as [?|(c & Hin & ?)]; [by left|].
      right. exists c. split; [by right | done].
Qed.

End SnapshotOutcomes.

(** A successful AllHandlesSystemwide::Update: the size probe answered
    STATUS_INFO_LENGTH_MISMATCH, every data query before the last answered
    the same, the last one answered STATUS_SUCCESS, and the object holds what
    that query wrote; sErrorInfo is empty. *)
Theorem snapshot_success (F : Formatting) (k : AllHandlesSystemwide.Kernel)
    (a : AllHandlesSystemwide.t) e a' qs :
  AllHandlesSystemwide.Update F k a = Some (true, e, a', qs) ->
  AllHandlesSystemwide.ntdll k = true
  /\ AllHandlesSystemwide.NtQuerySystemInformation k = true
  /\ AllHandlesSystemwide.first_status k = STATUS_INFO_LENGTH_MISMATCH
  /\ e = []
  /\ exists n call,
       AllHandlesSystemwide.data_calls k !! n = Some call
       /\ AllHandlesSystemwide.q_status call = STATUS_SUCCESS
       /\ (forall i c, (i < n)%nat -> AllHandlesSystemwide.data_calls k !! i = Some c ->
             AllHandlesSystemwide.q_status c = STATUS_INFO_LENGTH_MISMATCH)
       /\ AllHandlesSystemwide.Get a' = Some (AllHandlesSystemwide.q_written call)
       /\ length qs = S n.
Proof.
  unfold AllHandlesSystemwide.Update.
  destruct (AllHandlesSystemwide.ntdll k); [|discriminate].
  destruct (AllHandlesSystemwide.NtQuerySystemInformation k); [|discriminate].
  destruct (Z.eqb_spec (AllHandlesSystemwide.first_status k) STATUS_INFO_LENGTH_MISMATCH)
    as [Hfirst|Hfirst]; [|discriminate].
  cbn [negb]. intros Hloop.
  destruct (Update_loop_outcome F _ _ _ _ _ _ _ _ _ Hloop) as [Hok _].
  destruct (Hok eq_refl) as (n & call & ? & ? & ? & ? & Hlen & ?).
  repeat split; try done. by exists n, call.
Qed.

Lemma snapshot_success_witness :
  AllHandlesSystemwide.first_status Samples.snapshot_growing = STATUS_INFO_LENGTH_MISMATCH.
Proof.
  refine (proj1 (proj2 (proj2 (snapshot_success Samples.plain Samples.snapshot_growing
    AllHandlesSystemwide.fresh _ _ _ _)))).
  vm_compute. reflexivity.
Defined.

(** A failed AllHandlesSystemwide::Update, the process heap being available:
    the object holds no buffer, whatever it held before the call, unless the
    failure is a data query answering a status other than success and length
    mismatch, in which case it holds the buffer of that query. *)
Theorem snapshot_failure (F : Formatting) (k : AllHandlesSystemwide.Kernel)
    (a : AllHandlesSystemwide.t) e a' qs :
  HeapMem.GetProcessHeap (AllHandlesSystemwide.heap k) = None ->
  AllHandlesSystemwide.Update F k a = Some (false, e, a', qs) ->
  AllHandlesSystemwide.Get a' = None
  \/ exists call,
       call ∈ AllHandlesSystemwide.data_calls k
       /\ AllHandlesSystemwide.q_status call <> STATUS_SUCCESS
       /\ AllHandlesSystemwide.q_status call <> STATUS_INFO_LENGTH_MISMATCH
       /\ AllHandlesSystemwide.Get a' = Some (AllHandlesSystemwide.q_written call).
Proof.
  intros Hheap. unfold AllHandlesSystemwide.Update.
  destruct (negb (AllHandlesSystemwide.ntdll k));
    [intros [= <- <- <-]; left; by apply Clear_empties|].
  destruct (negb (AllHandlesSystemwide.NtQuerySystemInformation k));
    [intros [= <- <- <-]; left; by apply Clear_empties|].
  destruct (negb (AllHandlesSystemwide.first_status k =? STATUS_INFO_LENGTH_MISMATCH));
    [intros [= <- <- <-]; left; by apply Clear_empties|].
  intros Hloop.
  destruct (Update_loop_outcome F _ _ _ _ _ _ _ _ _ Hloop) as [_ Hfail]. by apply Hfail.
Qed.

Lemma snapshot_failure_witness :
  AllHandlesSystemwide.Get AllHandlesSystemwide.fresh = None
  \/ exists call,
       call ∈ AllHandlesSystemwide.data_calls Samples.snapshot_huge
       /\ AllHandlesSystemwide.q_status call <> STATUS_SUCCESS
       /\ AllHandlesSystemwide.q_status call <> STATUS_INFO_LENGTH_MISMATCH
       /\ AllHandlesSystemwide.Get AllHandlesSystemwide.fresh
          = Some (AllHandlesSystemwide.q_written call).
Proof.
  refine (snapshot_failure Samples.plain Samples.snapshot_huge Samples.held
            _ AllHandlesSystemwide.fresh _ _ _).
  - reflexivity.
  - vm_compute. reflexivity.
Defined.

(** ** EnablePrivilege *)

(** EnablePrivilege returns true exactly when the thread token could be
    opened, the privilege name resolved, and AdjustTokenPrivileges returned
    TRUE with last error ERROR_SUCCESS (TRUE with ERROR_NOT_ALL_ASSIGNED is a
    failure).  It never changes whether the thread impersonates; it closes
    the token handle exactly when it opened one; and the privilege is enabled
    afterwards if it returns true, unchanged if it returns false. *)
Theorem EnablePrivilege_outcome (F : Formatting) (tk : SecurityUtils.Token)
    (th : SecurityUtils.Thread) :
  let r := SecurityUtils.EnablePrivilege F tk th in
  (r.1.1 = true
   <-> exists hToken,
         SecurityUtils.OpenThreadToken tk = inl hToken
         /\ (SecurityUtils.LookupPrivilegeValueW tk).1 = true
         /\ (SecurityUtils.AdjustTokenPrivileges tk).1 = true
         /\ (SecurityUtils.AdjustTokenPrivileges tk).2 = ERROR_SUCCESS)
  /\ SecurityUtils.impersonating r.2 = SecurityUtils.impersonating th
  /\ SecurityUtils.closed r.2
     = SecurityUtils.closed th
       ++ match SecurityUtils.OpenThreadToken tk with inl hToken => [hToken] | inr _ => [] end
  /\ SecurityUtils.debug_enabled r.2
     = (if r.1.1 then true else SecurityUtils.debug_enabled th).
Proof.
  cbv zeta. unfold SecurityUtils.EnablePrivilege.
  destruct (SecurityUtils.OpenThreadToken tk) as [hToken|err].
  2:{ cbn. split; [|by rewrite app_nil_r]. split; [done|]. by intros (? & ? & _). }
  destruct (SecurityUtils.LookupPrivilegeValueW tk) as [[] e1];
    destruct (SecurityUtils.AdjustTokenPrivileges tk) as [[] e2]; cbn [fst snd andb negb orb].
  - destruct (Z.eqb_spec e2 ERROR_SUCCESS) as [->|Hne]; cbn.
    + rewrite orb_true_r. repeat split; eauto.
    + rewrite orb_false_r. repeat split; try done. by intros (? & _ & _ & _ & ?).
  - cbn. rewrite orb_false_r. repeat split; try done. by intros (? & _ & _ & ? & _).
  - destruct (e1 =? ERROR_SUCCESS); cbn; rewrite orb_false_r;
      (repeat split; try done); by intros (? & _ & ? & _).
  - destruct (e1 =? ERROR_SUCCESS); cbn; rewrite orb_false_r;
      (repeat split; try done); by intros (? & _ & ? & _).
Qed.


(** ** What discovery reports *)

(** AcquireNewHandlesToExistingZombies succeeds exactly when ntdll.dll and
    its three entry points are found.  When it fails it reports a message,
    counts nothing and fills nothing.  When it succeeds, TotalProcessCount is
    the number of processes enumerated and ZombieProcessCount the number of
    them taken for zombies (both as 64-bit counters), and there is one
    enumeration error per process whose basic-information query failed, plus
    one if the enumeration ended on a status other than
    STATUS_NO_MORE_ENTRIES: such errors never make the call fail. *)
Theorem discovery_counts (F : Formatting) (k : ZombieHandles.Kernel)
    (nAgeInSeconds : Z) (z : ZombieHandles.t) (closed : list Z) :
  let acq :=
    ZombieHandles.AcquireNewHandlesToExistingZombies F k nAgeInSeconds z closed in
  let ps := ZombieHandles.processes k in
  ZombieHandles.retval acq
  = ZombieHandles.ntdll k
    && (ZombieHandles.NtGetNextProcess k && ZombieHandles.NtGetNextThread k
        && ZombieHandles.NtQueryInformationProcess k)
  /\ (ZombieHandles.retval acq = false ->
      ZombieHandles.sErrorInfo acq <> []
      /\ ZombieHandles.ZombieHandleLookup (ZombieHandles.object acq) = ∅
      /\ ZombieHandles.out_zombiePidLookup acq = ∅
      /\ ZombieHandles.out_processEnumErrors acq = []
      /\ ZombieHandles.TotalProcessCount (ZombieHandles.object acq) = 0
      /\ ZombieHandles.ZombieProcessCount (ZombieHandles.object acq) = 0)
  /\ (ZombieHandles.retval acq = true ->
      ZombieHandles.sErrorInfo acq = []
      /\ ZombieHandles.TotalProcessCount (ZombieHandles.object acq)
         = wrap64 (Z.of_nat (length ps))
      /\ ZombieHandles.ZombieProcessCount (ZombieHandles.object acq)
         = wrap64 (Z.of_nat (length
             (List.filter (Props.is_zombie nAgeInSeconds (ZombieHandles.ulNow k)) ps)))
      /\ length (ZombieHandles.out_processEnumErrors acq)
         = (length (List.filter Props.query_fails ps)
            + if (ZombieHandles.ntGNP k =? STATUS_NO_MORE_ENTRIES)%Z then 0 else 1)%nat).
Proof.
  cbv zeta.
  unfold ZombieHandles.ZombieHandleLookup, ZombieHandles.TotalProcessCount,
    ZombieHandles.ZombieProcessCount.
  unfold ZombieHandles.AcquireNewHandlesToExistingZombies,
    ZombieHandles.ReleaseAcquiredHandles.
  cbn [ZombieHandles.m_ZombieHandleLookup ZombieHandles.m_nZombieProcesses
       ZombieHandles.m_nTotalProcesses].
  destruct (ZombieHandles.ntdll k); cbn [negb andb]; [|by repeat split].
  destruct (_ && _); cbn [negb]; [|by repeat split].
  cbn [ZombieHandles.retval ZombieHandles.sErrorInfo ZombieHandles.object
       ZombieHandles.out_processEnumErrors].
  split; [done|]. split; [done|]. intros _.
  match goal with |- context [fold_left ?f ?ps ?s0] =>
    destruct (enumeration_counts F nAgeInSeconds (ZombieHandles.ulNow k) ps s0)
      as (Ht & Hz & He); [done | done |];
    set (s' := fold_left f ps s0) in *
  end.
  cbn [ZombieHandles.self ZombieHandles.m_nTotalProcesses
       ZombieHandles.m_nZombieProcesses ZombieHandles.processEnumErrors length] in *.
  rewrite Z.add_0_l in Ht, Hz.
  split; [done|]. split; [done|]. split; [done|].
  destruct (ZombieHandles.ntGNP k =? STATUS_NO_MORE_ENTRIES); cbn [negb].
  - rewrite He. lia.
  - rewrite length_app, He. cbn [length]. lia.
Qed.

(** After a successful discovery the PID lookup has a record for a PID
    exactly when the enumeration yielded a zombie with that PID, and each
    record describes such a zombie: its PID and parent PID, its creation and
    exit times, its image path (empty if the query failed) and the number of
    thread handles obtained for it. *)
Theorem discovery_pid_lookup (F : Formatting) (k : ZombieHandles.Kernel)
    (nAgeInSeconds : Z) (z : ZombieHandles.t) (closed : list Z) (pid : Z) :
  let acq :=
    ZombieHandles.AcquireNewHandlesToExistingZombies F k nAgeInSeconds z closed in
  ZombieHandles.retval acq = true ->
  (is_Some (ZombieHandles.out_zombiePidLookup acq !! pid)
   <-> exists p, p ∈ ZombieHandles.processes k
         /\ Props.is_zombie nAgeInSeconds (ZombieHandles.ulNow k) p = true
         /\ ZombieHandles.UniqueProcessId p = pid)
  /\ forall x, ZombieHandles.out_zombiePidLookup acq !! pid = Some x ->
       exists p, p ∈ ZombieHandles.processes k
         /\ Props.is_zombie nAgeInSeconds (ZombieHandles.ulNow k) p = true
         /\ ZombieHandles.UniqueProcessId p = pid
         /\ Props.describes p x.
Proof.
  cbv zeta.
  unfold ZombieHandles.AcquireNewHandlesToExistingZombies,
    ZombieHandles.ReleaseAcquiredHandles.
  cbn [ZombieHandles.m_ZombieHandleLookup ZombieHandles.m_nZombieProcesses
       ZombieHandles.m_nTotalProcesses].
  destruct (negb (ZombieHandles.ntdll k)); [done|].
  destruct (negb _); [done|].
  cbn [ZombieHandles.retval ZombieHandles.out_zombiePidLookup]. intros _.
  assert (Hrec : forall x,
    ZombieHandles.zombiePidLookup
      (fold_left (ZombieHandles.visit F nAgeInSeconds (ZombieHandles.ulNow k))
         (ZombieHandles.processes k)
         {| ZombieHandles.self :=
              {| ZombieHandles.m_ZombieHandleLookup := ∅;
                 ZombieHandles.m_nZombieProcesses := 0;
                 ZombieHandles.m_nTotalProcesses := 0 |};
            ZombieHandles.zombiePidLookup := ∅;
            ZombieHandles.processEnumErrors := [];
            ZombieHandles.hPrevProcess := 0;
            ZombieHandles.bClosePrevProcess := false;
            ZombieHandles.closed :=
              closed ++ (map_to_list (ZombieHandles.m_ZombieHandleLookup z)).*1 |})
      !! pid = Some x ->
    exists p, p ∈ ZombieHandles.processes k
      /\ Props.is_zombie nAgeInSeconds (ZombieHandles.ulNow k) p = true
      /\ ZombieHandles.UniqueProcessId p = pid
      /\ Props.describes p x).
  { intros x Hx. apply enumeration_pids in Hx as [Hx|Hx]; [|done].
    cbn [ZombieHandles.zombiePidLookup] in Hx. by rewrite lookup_empty in Hx. }
  split; [|exact Hrec]. split.
  - intros [x Hx]. destruct (Hrec x Hx) as (p & Hin & Hp & Hpid & _). by exists p.
  - intros Hp. apply enumeration_finds. by right.
Qed.

Lemma discovery_pid_lookup_witness :
  ZombieHandles.retval
    (ZombieHandles.AcquireNewHandlesToExistingZombies Samples.plain
       (Samples.enumeration Samples.three_processes) 3 ZombieHandles.fresh []) = true
  /\ (is_Some
        (ZombieHandles.out_zombiePidLookup
           (ZombieHandles.AcquireNewHandlesToExistingZombies Samples.plain
              (Samples.enumeration Samples.three_processes) 3 ZombieHandles.fresh [])
         !! 100)
      <-> exists p, p ∈ Samples.three_processes
            /\ Props.is_zombie 3 Samples.now p = true
            /\ ZombieHandles.UniqueProcessId p = 100).
Proof.
  assert (H : ZombieHandles.retval
    (ZombieHandles.AcquireNewHandlesToExistingZombies Samples.plain
       (Samples.enumeration Samples.three_processes) 3 ZombieHandles.fresh []) = true).
  { vm_compute. reflexivity. }
  split; [exact H|].
  exact (proj1 (discovery_pid_lookup Samples.plain
                  (Samples.enumeration Samples.three_processes) 3
                  ZombieHandles.fresh [] 100 H)).
Defined.

(** After a successful discovery every entry of the handle lookup is either
    the process handle of a zombie of the enumeration, with the record that
    describes the zombie, or a handle of one of that zombie's threads, with
    the zombie's PID, times and paths, the thread's ID, and a thread count
    of 0; and every process handle of a zombie and every handle of its
    threads is a key of the lookup. *)
Theorem discovery_handle_lookup (F : Formatting) (k : ZombieHandles.Kernel)
    (nAgeInSeconds : Z) (z : ZombieHandles.t) (closed : list Z) :
  let acq :=
    ZombieHandles.AcquireNewHandlesToExistingZombies F k nAgeInSeconds z closed in
  ZombieHandles.retval acq = true ->
  (forall h x,
     ZombieHandles.ZombieHandleLookup (ZombieHandles.object acq) !! h = Some x ->
     exists p, p ∈ ZombieHandles.processes k
       /\ Props.is_zombie nAgeInSeconds (ZombieHandles.ulNow k) p = true
       /\ ((h = ZombieHandles.hThisProcess p /\ Props.describes p x)
           \/ exists tid, (h, tid) ∈ Props.threads_of p /\ Props.thread_of p tid x))
  /\ (forall p h,
        p ∈ ZombieHandles.processes k ->
        Props.is_zombie nAgeInSeconds (ZombieHandles.ulNow k) p = true ->
        h = ZombieHandles.hThisProcess p \/ h ∈ Props.thread_handles p ->
        is_Some (ZombieHandles.ZombieHandleLookup (ZombieHandles.object acq) !! h)).
Proof.
  cbv zeta. unfold ZombieHandles.ZombieHandleLookup.
  unfold ZombieHandles.AcquireNewHandlesToExistingZombies,
    ZombieHandles.ReleaseAcquiredHandles.
  cbn [ZombieHandles.m_ZombieHandleLookup ZombieHandles.m_nZombieProcesses
       ZombieHandles.m_nTotalProcesses].
  destruct (negb (ZombieHandles.ntdll k)); [done|].
  destruct (negb _); [done|].
  cbn [ZombieHandles.retval ZombieHandles.object]. intros _. split.
  - intros h x Hx. apply enumeration_handles in Hx as [Hx|Hx]; [|done].
    cbn [ZombieHandles.self ZombieHandles.m_ZombieHandleLookup] in Hx.
    by rewrite lookup_empty in Hx.
  - intros p h Hin Hp Hh. apply enumeration_retains. right. exists p.
    split; [done|]. unfold Props.retained_by. rewrite Hp.
    apply elem_of_app. destruct Hh as [->|Hh]; [right | by left].
    by apply list_elem_of_singleton.
Qed.

Lemma discovery_handle_lookup_witness :
  ZombieHandles.retval
    (ZombieHandles.AcquireNewHandlesToExistingZombies Samples.plain
       (Samples.enumeration Samples.three_processes) 3 ZombieHandles.fresh []) = true
  /\ forall p h,
       p ∈ Samples.three_processes ->
       Props.is_zombie 3 Samples.now p = true ->
       h = ZombieHandles.hThisProcess p \/ h ∈ Props.thread_handles p ->
       is_Some
         (ZombieHandles.ZombieHandleLookup
            (ZombieHandles.object
               (ZombieHandles.AcquireNewHandlesToExistingZombies Samples.plain
                  (Samples.enumeration Samples.three_processes) 3
                  ZombieHandles.fresh [])) !! h).
Proof.
  assert (H : ZombieHandles.retval
    (ZombieHandles.AcquireNewHandlesToExistingZombies Samples.plain
       (Samples.enumeration Samples.three_processes) 3 ZombieHandles.fresh []) = true).
  { vm_compute. reflexivity. }
  split; [exact H|].
  exact (proj2 (discovery_handle_lookup Samples.plain
                  (Samples.enumeration Samples.three_processes) 3
                  ZombieHandles.fresh [] H)).
Defined.

(** ** Correlation: pass 1 and the owner records *)

Section Passes.

Import ZombieOwners.
Variable F : Formatting.
Variable sys : System.
Variable a : AllHandlesSystemwide.t.
Variable dwCurrPID : Z.
Variable zhl : gmap Z ZombieProcessThreadInfo.

Lemma self_resolution_from ixs : forall m obj z,
  fold_left (self_resolution_step a dwCurrPID zhl) ixs m !! obj = Some z ->
  m !! obj = Some z
  \/ exists ix e, ix ∈ ixs
       /\ AllHandlesSystemwide.read a ix = Some e
       /\ NtInternal.UniqueProcessId e = dwCurrPID
       /\ NtInternal.Object e = obj
       /\ zhl !! NtInternal.HandleValue e = Some z.
Proof.
  induction ixs as [|ix ixs IH]; intros m obj z; cbn [fold_left]; [by left|].
  intros Hz. apply IH in Hz as [Hz|(ix' & e & Hin & H)].
  2:{ right. exists ix', e. split; [by right | done]. }
  unfold self_resolution_step in Hz.
  destruct (AllHandlesSystemwide.read a ix) as [e|] eqn:He; [|by left].
  destruct (Z.eqb_spec (NtInternal.UniqueProcessId e) dwCurrPID) as [Hpid|]; [|by left].
  destruct (zhl !! NtInternal.HandleValue e) as [x|] eqn:Hx; [|by left].
  destruct (decide (NtInternal.Object e = obj)) as [Hobj|Hne].
  - rewrite Hobj, lookup_insert_eq in Hz. injection Hz as <-.
    right. exists ix, e. split; [by left | done].
  - rewrite lookup_insert_ne in Hz by done. by left.
Qed.

Lemma self_resolution_to ixs : forall m obj,
  is_Some (m !! obj)
  \/ (exists ix e z, ix ∈ ixs
        /\ AllHandlesSystemwide.read a ix = Some e
        /\ NtInternal.UniqueProcessId e = dwCurrPID
        /\ NtInternal.Object e = obj
        /\ zhl !! NtInternal.HandleValue e = Some z) ->
  is_Some (fold_left (self_resolution_step a dwCurrPID zhl) ixs m !! obj).
Proof.
  induction ixs as [|ix ixs IH]; intros m obj; cbn [fold_left].
  - intros [H|(ix & e & z & Hin & _)]; [done | by apply elem_of_nil in Hin].
  - intros H. apply IH.
    assert (Hkeep : is_Some (m !! obj) ->
              is_Some (self_resolution_step a dwCurrPID zhl m ix !! obj)).
    { intros Hm. unfold self_resolution_step.
      destruct (AllHandlesSystemwide.read a ix) as [e|]; [|done].
      destruct (NtInternal.UniqueProcessId e =? dwCurrPID); [|done].
      destruct (zhl !! NtInternal.HandleValue e); [|done].
      apply lookup_insert_is_Some'. by right. }
    destruct H as [H|(ix' & e & z & Hin & He & Hpid & Hobj & Hz)]; [left; by apply Hkeep|].
    apply elem_of_cons in Hin as [->|Hin].
    + left. unfold self_resolution_step. rewrite He.
      apply Z.eqb_eq in Hpid. rewrite Hpid, Hz, <- Hobj, lookup_insert_eq. by eexists.
    + right. by exists ix', e, z.
Qed.

(** An owner record as pass 2 leaves it. *)
Lemma attribute_owner e z owners zpl :
  (forall pid o, owners !! pid = Some o ->
     Props.owner_of F sys pid o /\ zombieOwningInfo o <> []) ->
  forall pid o, (attribute F sys e z (owners, zpl)).1 !! pid = Some o ->
    Props.owner_of F sys pid o /\ zombieOwningInfo o <> [].
Proof.
  intros Hw pid o. unfold attribute. cbn [fst].
  destruct (decide (pid = NtInternal.UniqueProcessId e)) as [->|Hne].
  - rewrite lookup_alter_eq.
    destruct (owners !! NtInternal.UniqueProcessId e) as [o0|] eqn:Ho.
    + rewrite Ho. cbn. intros [= <-]. destruct (Hw _ _ Ho) as [Hown _].
      split; [exact Hown|]. cbn. by destruct (zombieOwningInfo o0).
    + rewrite lookup_insert_eq. cbn. intros [= <-]. split; [|done].
      unfold Props.owner_of, ServiceLookupByPID.LookupServicesByPID. cbn.
      repeat split. by destruct (services sys !! NtInternal.UniqueProcessId e).
  - rewrite lookup_alter_ne by done.
    destruct (owners !! NtInternal.UniqueProcessId e) as [o0|] eqn:Ho.
    + apply Hw.
    + rewrite lookup_insert_ne by done. apply Hw.
Qed.

Lemma attribution_owner addr ixs : forall st,
  (forall pid o, st.1 !! pid = Some o ->
     Props.owner_of F sys pid o /\ zombieOwningInfo o <> []) ->
  forall pid o,
    (fold_left (attribution_step F sys a dwCurrPID zhl addr) ixs st).1 !! pid = Some o ->
    Props.owner_of F sys pid o /\ zombieOwningInfo o <> [].
Proof.
  induction ixs as [|ix ixs IH]; intros st Hw; cbn [fold_left]; [done|].
  apply IH.
  destruct (attribution_step_cases F sys a dwCurrPID zhl addr st ix)
    as [[-> _]|(e & z & _ & ->)]; [done|].
  destruct st as [owners zpl]. by apply attribute_owner.
Qed.

End Passes.

(** Pass 1 of Update_Impl.  The address lookup maps an object address to a
    record exactly when the snapshot has an entry of the current process
    whose handle value is a key of discovery's handle lookup and whose object
    is at that address; the record is the one discovery filed under such a
    handle. *)
Theorem pass_one_addresses (a : AllHandlesSystemwide.t) (dwCurrPID : Z)
    (zombieHandleLookup : gmap Z ZombieProcessThreadInfo) (obj : Z) :
  (forall z,
     ZombieOwners.self_resolution a dwCurrPID zombieHandleLookup !! obj = Some z ->
     exists ix e,
       0 <= ix < AllHandlesSystemwide.NumberOfHandles a
       /\ AllHandlesSystemwide.read a ix = Some e
       /\ NtInternal.UniqueProcessId e = dwCurrPID
       /\ NtInternal.Object e = obj
       /\ zombieHandleLookup !! NtInternal.HandleValue e = Some z)
  /\ (forall ix e,
        0 <= ix ->
        AllHandlesSystemwide.read a ix = Some e ->
        NtInternal.UniqueProcessId e = dwCurrPID ->
        NtInternal.Object e = obj ->
        is_Some (zombieHandleLookup !! NtInternal.HandleValue e) ->
        is_Some (ZombieOwners.self_resolution a dwCurrPID zombieHandleLookup !! obj)).
Proof.
  unfold ZombieOwners.self_resolution. split.
  - intros z Hz. apply self_resolution_from in Hz as [Hz|(ix & e & Hin & H)].
    { by rewrite lookup_empty in Hz. }
    exists ix, e. split; [|done]. apply elem_of_seqZ in Hin. lia.
  - intros ix e Hix He Hpid Hobj [z Hz]. apply self_resolution_to. right.
    exists ix, e, z. split; [|done]. apply elem_of_seqZ. split; [done|].
    unfold AllHandlesSystemwide.read, AllHandlesSystemwide.HandleInfo,
      AllHandlesSystemwide.NumberOfHandles in *.
    destruct (AllHandlesSystemwide.Get a) as [b|]; [|done].
    destruct (Z.geb_spec ix (NtInternal.NumberOfHandles b)); [done | lia].
Qed.

(** Pass 2 of Update_Impl.  Every owner record is filed under its own PID,
    carries the image path, exe name and service list looked up for that
    PID, and holds at least one pair; and its PID is that of an entry of the
    snapshot. *)
Theorem owner_records (F : Formatting) (sys : ZombieOwners.System)
    (a : AllHandlesSystemwide.t) (dwCurrPID : Z)
    (zombieHandleLookup zombieObjectAddrLookup zombiePidLookup
       : gmap Z ZombieProcessThreadInfo)
    (pid : Z) (o : ZombieOwners.ZombieOwner_t) :
  (ZombieOwners.attribution F sys a dwCurrPID zombieHandleLookup zombieObjectAddrLookup
     (∅, zombiePidLookup)).1 !! pid = Some o ->
  Props.owner_of F sys pid o
  /\ ZombieOwners.zombieOwningInfo o <> []
  /\ exists ix e,
       0 <= ix < AllHandlesSystemwide.NumberOfHandles a
       /\ AllHandlesSystemwide.read a ix = Some e
       /\ NtInternal.UniqueProcessId e = pid.
Proof.
  intros Ho. unfold ZombieOwners.attribution in Ho.
  destruct (attribution_owner F sys a dwCurrPID zombieHandleLookup
              zombieObjectAddrLookup
              (seqZ 0 (AllHandlesSystemwide.NumberOfHandles a))
              (∅, zombiePidLookup)) with (pid := pid) (o := o)
    as [Hown Hne]; [|done|].
  { intros pid' o'. cbn [fst]. by rewrite lookup_empty. }
  split; [done|]. split; [done|].
  destruct (ZombieOwners.zombieOwningInfo o) as [|i l] eqn:Hl; [done|].
  assert (Hholds : Props.holds
    (fold_left (ZombieOwners.attribution_step F sys a dwCurrPID zombieHandleLookup
                  zombieObjectAddrLookup)
       (seqZ 0 (AllHandlesSystemwide.NumberOfHandles a)) (∅, zombiePidLookup)).1 pid i).
  { exists o. split; [done|]. rewrite Hl. by left. }
  apply attribution_holds in Hholds as [(o' & Ho' & _)|(e & z & Hk & -> & _)].
  { cbn [fst] in Ho'. by rewrite lookup_empty in Ho'. }
  destruct Hk as (ix & Hin & He & _). exists ix, e.
  split; [|done]. apply elem_of_seqZ in Hin. lia.
Qed.

Lemma owner_records_witness :
  exists o,
    (ZombieOwners.attribution Samples.plain Samples.one_owner Samples.held_two 7
       Samples.lookup100 Samples.addr100 (∅, ∅)).1 !! 200 = Some o
    /\ Props.owner_of Samples.plain Samples.one_owner 200 o
    /\ ZombieOwners.zombieOwningInfo o <> [].
Proof.
  eexists. split; [vm_compute; reflexivity|].
  split.
  - refine (proj1 (owner_records Samples.plain Samples.one_owner Samples.held_two 7
                     Samples.lookup100 Samples.addr100 ∅ 200 _ _)).
    vm_compute. reflexivity.
  - refine (proj1 (proj2 (owner_records Samples.plain Samples.one_owner Samples.held_two 7
                     Samples.lookup100 Samples.addr100 ∅ 200 _ _))).
    vm_compute. reflexivity.
Defined.

(** ** UtilityFunctions *)

(** GetParentProcessImagePathIfStillRunning returns true exactly when the
    parent could be opened, its times could be read and it started strictly
    before the child: a process that started at the same instant or later
    has only reused the parent's PID.  The path is empty unless it returns
    true, and also when the path query fails.  The handle is closed exactly
    when it was opened, whatever the outcome. *)
Theorem parent_path_outcome (parent : option UtilityFunctions.ParentQuery)
    (ftChildStartTime : Z) (closed : list Z) :
  let r :=
    UtilityFunctions.GetParentProcessImagePathIfStillRunning
      parent ftChildStartTime closed in
  (r.1.1 = true
   <-> exists q ulStartTime,
         parent = Some q
         /\ UtilityFunctions.ftCreateTime q = Some ulStartTime
         /\ ulStartTime < ftChildStartTime)
  /\ (r.1.1 = false -> r.1.2 = [])
  /\ (forall q, parent = Some q -> r.1.1 = true ->
        r.1.2 = match UtilityFunctions.szImagePath q with
                | Some path => path
                | None => []
                end)
  /\ r.2 = closed ++ match parent with
                     | Some q => [UtilityFunctions.hProcess q]
                     | None => []
                     end.
Proof.
  cbv zeta. unfold UtilityFunctions.GetParentProcessImagePathIfStillRunning.
  destruct parent as [q|]; cbn.
  2:{ rewrite app_nil_r. repeat split; try done. by intros (? & ? & ? & _). }
  destruct (UtilityFunctions.ftCreateTime q) as [t|] eqn:Ht; cbn.
  2:{ repeat split; try done. intros (? & ? & [= <-] & ? & _). congruence. }
  destruct (Z.ltb_spec t ftChildStartTime); cbn.
  - repeat split; try done.
    + intros _. by exists q, t.
    + by intros ? [= <-] _.
  - repeat split; try done.
    intros (q' & t' & [= <-] & Ht' & Hlt). rewrite Ht in Ht'. injection Ht' as <-. lia.
Qed.

(** ** The comparator of the sorted view *)

Section Ordering.

Import ZombieOwners.
Variable lower : Z -> Z.
Hypothesis lower_nul : lower 0 = 0.

Lemma wcsicmp_trans a : forall b c,
  (_wcsicmp lower a b <= 0 -> _wcsicmp lower b c <= 0 -> _wcsicmp lower a c <= 0)
  /\ (_wcsicmp lower a b < 0 -> _wcsicmp lower b c <= 0 -> _wcsicmp lower a c < 0)
  /\ (_wcsicmp lower a b <= 0 -> _wcsicmp lower b c < 0 -> _wcsicmp lower a c < 0).
Proof.
  induction a as [|x a IH]; intros [|y b] [|w c];
    cbn [_wcsicmp c_char hd List.tl]; rewrite ?lower_nul;
    repeat match goal with
           | |- context [?u =? ?v] => destruct (Z.eqb_spec u v)
           end;
    cbn [orb negb]; try lia; apply IH.
Qed.

Lemma wcsicmp_refl a : _wcsicmp lower a a = 0.
Proof. pose proof (wcsicmp_antisym lower lower_nul a a). lia. Qed.

Lemma ZombieOwnerComparator_spec pA pB :
  ZombieOwnerComparator lower pA pB = true
  <-> held pA > held pB
      \/ (held pA = held pB
          /\ (_wcsicmp lower (sExeName pA) (sExeName pB) < 0
              \/ (_wcsicmp lower (sExeName pA) (sExeName pB) = 0 /\ PID pA < PID pB))).
Proof.
  unfold ZombieOwnerComparator. rewrite Z.gtb_ltb.
  destruct (Z.eqb_spec (held pA) (held pB)).
  - destruct (Z.eqb_spec (_wcsicmp lower (sExeName pA) (sExeName pB)) 0);
      rewrite Z.ltb_lt; lia.
  - rewrite Z.ltb_lt. lia.
Qed.

End Ordering.

(** ZombieOwnerComparator is a strict weak ordering, as std::sort requires of
    its comparator: no owner is put before itself, being put before is
    transitive, and so is being tied.  Two owners are tied only when they
    hold equally many handles, their exe names compare equal ignoring case,
    and they have the same PID. *)
Theorem ZombieOwnerComparator_strict_weak_order (towlower : Z -> Z) :
  towlower 0 = 0 ->
  (forall pA, ZombieOwners.ZombieOwnerComparator towlower pA pA = false)
  /\ (forall pA pB pC,
        ZombieOwners.ZombieOwnerComparator towlower pA pB = true ->
        ZombieOwners.ZombieOwnerComparator towlower pB pC = true ->
        ZombieOwners.ZombieOwnerComparator towlower pA pC = true)
  /\ (forall pA pB pC,
        Props.tied towlower pA pB -> Props.tied towlower pB pC ->
        Props.tied towlower pA pC)
  /\ (forall pA pB,
        Props.tied towlower pA pB
        <-> ZombieOwners.held pA = ZombieOwners.held pB
            /\ _wcsicmp towlower (ZombieOwners.sExeName pA) (ZombieOwners.sExeName pB) = 0
            /\ ZombieOwners.PID pA = ZombieOwners.PID pB).
Proof.
  intros Hnul.
  assert (Htied : forall pA pB,
    Props.tied towlower pA pB
    <-> ZombieOwners.held pA = ZombieOwners.held pB
        /\ _wcsicmp towlower (ZombieOwners.sExeName pA) (ZombieOwners.sExeName pB) = 0
        /\ ZombieOwners.PID pA = ZombieOwners.PID pB).
  { intros pA pB. unfold Props.tied.
    rewrite <- !not_true_iff_false, !(ZombieOwnerComparator_spec towlower).
    pose proof (wcsicmp_antisym towlower Hnul (ZombieOwners.sExeName pA)
                  (ZombieOwners.sExeName pB)).
    lia. }
  split; [|split; [|split]].
  - intros pA. apply not_true_iff_false.
    rewrite (ZombieOwnerComparator_spec towlower).
    pose proof (wcsicmp_refl towlower Hnul (ZombieOwners.sExeName pA)). lia.
  - intros pA pB pC. rewrite !(ZombieOwnerComparator_spec towlower).
    pose proof (wcsicmp_trans towlower Hnul (ZombieOwners.sExeName pA)
                  (ZombieOwners.sExeName pB) (ZombieOwners.sExeName pC)).
    pose proof (wcsicmp_trans towlower Hnul (ZombieOwners.sExeName pC)
                  (ZombieOwners.sExeName pB) (ZombieOwners.sExeName pA)).
    pose proof (wcsicmp_antisym towlower Hnul (ZombieOwners.sExeName pA)
                  (ZombieOwners.sExeName pB)).
    pose proof (wcsicmp_antisym towlower Hnul (ZombieOwners.sExeName pB)
                  (ZombieOwners.sExeName pC)).
    pose proof (wcsicmp_antisym towlower Hnul (ZombieOwners.sExeName pA)
                  (ZombieOwners.sExeName pC)).
    lia.
  - intros pA pB pC. rewrite !Htied.
    pose proof (wcsicmp_trans towlower Hnul (ZombieOwners.sExeName pA)
                  (ZombieOwners.sExeName pB) (ZombieOwners.sExeName pC)).
    pose proof (wcsicmp_trans towlower Hnul (ZombieOwners.sExeName pC)
                  (ZombieOwners.sExeName pB) (ZombieOwners.sExeName pA)).
    pose proof (wcsicmp_antisym towlower Hnul (ZombieOwners.sExeName pA)
                  (ZombieOwners.sExeName pB)).
    pose proof (wcsicmp_antisym towlower Hnul (ZombieOwners.sExeName pB)
                  (ZombieOwners.sExeName pC)).
    pose proof (wcsicmp_antisym towlower Hnul (ZombieOwners.sExeName pA)
                  (ZombieOwners.sExeName pC)).
    lia.
  - exact Htied.
Qed.

Lemma ZombieOwnerComparator_strict_weak_order_witness :
  towlower_C 0 = 0
  /\ forall pA, ZombieOwners.ZombieOwnerComparator towlower_C pA pA = false.
Proof.
  assert (H : towlower_C 0 = 0) by reflexivity.
  split; [exact H|].
  exact (proj1 (ZombieOwnerComparator_strict_weak_order towlower_C H)).
Defined.

(** ** ServiceLookupByPID *)

Section Services.

Import ServiceLookupByPID.

Lemma add_service_fold services : forall lookup pid,
  fold_left add_service services lookup !! pid
  = match lookup !! pid with
    | Some l => Some (l ++ Props.hosted services pid)
    | None =>
        match Props.hosted services pid with
        | [] => None
        | l => Some l
        end
    end.
Proof.
  unfold Props.hosted.
  induction services as [|svc services IH]; intros lookup pid;
    cbn [fold_left List.filter fmap list_fmap].
  - destruct (lookup !! pid); [by rewrite app_nil_r | done].
  - rewrite IH. unfold add_service.
    destruct (Z.eqb_spec (dwProcessId svc) pid) as [->|Hne].
    + destruct (lookup !! pid) as [l|] eqn:Hl; rewrite lookup_insert_eq.
      * by rewrite <- app_assoc.
      * done.
    + destruct (lookup !! dwProcessId svc); by rewrite lookup_insert_ne.
Qed.

End Services.

(** InitializeServiceLookup on the first call.  When the service control
    manager opens, the sizing call ends with ERROR_MORE_DATA and the data
    call, given a buffer half as large again (as a DWORD), succeeds, a later
    lookup of a PID finds exactly the services hosted by that process, in the
    order of the enumeration, and none for a process that hosts no service.
    In every other case the table stays empty: the failure is silent. *)
Theorem service_lookup_groups (scm : ServiceLookupByPID.SCM) :
  let st := ServiceLookupByPID.InitializeServiceLookup scm ServiceLookupByPID.initial in
  let cbBytesNeeded :=
    wrap32 (ServiceLookupByPID.first_cbBytesNeeded scm
            + ServiceLookupByPID.first_cbBytesNeeded scm / 2) in
  (forall services pid,
     ServiceLookupByPID.OpenSCManagerW scm = true ->
     ServiceLookupByPID.first_GetLastError scm = ServiceLookupByPID.ERROR_MORE_DATA ->
     ServiceLookupByPID.EnumServicesStatusExW scm cbBytesNeeded = Some services ->
     ServiceLookupByPID.LookupServicesByPID (ServiceLookupByPID.ServiceLookupByPID st) pid
     = match Props.hosted services pid with
       | [] => (false, None)
       | l => (true, Some l)
       end)
  /\ (ServiceLookupByPID.OpenSCManagerW scm = false
      \/ ServiceLookupByPID.first_GetLastError scm <> ServiceLookupByPID.ERROR_MORE_DATA
      \/ ServiceLookupByPID.EnumServicesStatusExW scm cbBytesNeeded = None ->
      ServiceLookupByPID.ServiceLookupByPID st = ∅).
Proof.
  cbv zeta. unfold ServiceLookupByPID.InitializeServiceLookup, ServiceLookupByPID.initial.
  cbn [ServiceLookupByPID.bInitialized ServiceLookupByPID.ServiceLookupByPID].
  split.
  - intros services pid -> Herr Henum. apply Z.eqb_eq in Herr.
    rewrite Herr, Henum. cbn [negb].
    unfold ServiceLookupByPID.LookupServicesByPID.
    rewrite add_service_fold, lookup_empty.
    by destruct (Props.hosted services pid).
  - intros [->|[Herr|Henum]]; [done| |].
    + apply Z.eqb_neq in Herr. rewrite Herr.
      by destruct (ServiceLookupByPID.OpenSCManagerW scm).
    + rewrite Henum.
      destruct (ServiceLookupByPID.OpenSCManagerW scm); [|done]. cbn [negb].
      by destruct (_ =? _).
Qed.

(** The table is built at most once.  After the first call of
    InitializeServiceLookup, whether it filled the table or failed, a later
    call changes nothing and a lookup gives what the table holds, whatever
    the service control manager would answer by then: a failed
    initialisation is never tried again. *)
Theorem service_lookup_once (scm scm' : ServiceLookupByPID.SCM)
    (st : ServiceLookupByPID.Statics) (pid : Z) :
  let st' := ServiceLookupByPID.InitializeServiceLookup scm st in
  ServiceLookupByPID.bInitialized st' = true
  /\ ServiceLookupByPID.InitializeServiceLookup scm' st' = st'
  /\ ServiceLookupByPID.LookupServicesByPID_call scm' st' pid
     = (ServiceLookupByPID.LookupServicesByPID
          (ServiceLookupByPID.ServiceLookupByPID st') pid, st')
  /\ (ServiceLookupByPID.bInitialized st = true -> st' = st).
Proof.
  cbv zeta.
  assert (Hinit : ServiceLookupByPID.bInitialized
                    (ServiceLookupByPID.InitializeServiceLookup scm st) = true).
  { unfold ServiceLookupByPID.InitializeServiceLookup.
    by destruct (ServiceLookupByPID.bInitialized st) eqn:Hst. }
  assert (Hsame : ServiceLookupByPID.InitializeServiceLookup scm'
                    (ServiceLookupByPID.InitializeServiceLookup scm st)
                  = ServiceLookupByPID.InitializeServiceLookup scm st).
  { unfold ServiceLookupByPID.InitializeServiceLookup at 1. by rewrite Hinit. }
  split; [done|]. split; [done|]. split.
  - unfold ServiceLookupByPID.LookupServicesByPID_call. by rewrite Hsame.
  - intros Hst. unfold ServiceLookupByPID.InitializeServiceLookup. by rewrite Hst.
Qed.

Lemma service_lookup_groups_witness :
  ServiceLookupByPID.LookupServicesByPID
    (ServiceLookupByPID.ServiceLookupByPID
       (ServiceLookupByPID.InitializeServiceLookup Samples.scm ServiceLookupByPID.initial))
    500
  = (true, Some [Samples.names "Dhcp"; Samples.names "Dnscache"]).
Proof.
  exact (proj1 (service_lookup_groups Samples.scm)
           [Samples.service "Dhcp" 500; Samples.service "Spooler" 600;
            Samples.service "Dnscache" 500] 500 eq_refl eq_refl eq_refl).
Defined.

(** ** Update_Impl and the handles of discovery *)



(** ** FullThreadReport *)

Section ThreadReport.

Import FullThreadReport.
Variable F : Formatting.

(** The thread handle the thread loop, or the code after it, closes next. *)
Local Abbreviation pending_thread t :=
  (if negb (hPrevThread t =? 0) then [hPrevThread t] else []).

Local Abbreviation pending_process s :=
  (if negb (hPrevProcess s =? 0) then [hPrevProcess s] else []).

Lemma count_thread_fold ths : forall s,
  nActiveThreads s = wrap64 (nActiveThreads s) ->
  nExitedThreads s = wrap64 (nExitedThreads s) ->
  nTotalThreads s = wrap64 (nTotalThreads s) ->
  nActiveThreads (fold_left count_thread ths s)
  = wrap64 (nActiveThreads s
            + Z.of_nat (length (List.filter (fun t => t.2 =? WAIT_TIMEOUT) ths)))
  /\ nExitedThreads (fold_left count_thread ths s)
     = wrap64 (nExitedThreads s
               + Z.of_nat (length (List.filter (fun t => t.2 =? WAIT_OBJECT_0) ths)))
  /\ nTotalThreads (fold_left count_thread ths s)
     = wrap64 (nTotalThreads s + Z.of_nat (length ths)).
Proof.
  assert (Hidem : forall x, wrap64 (wrap64 x) = wrap64 x).
  { intros x. unfold wrap64. by rewrite Z.mod_mod by lia. }
  assert (Hsucc : forall x n, wrap64 (wrap64 (x + 1) + n) = wrap64 (x + (1 + n))).
  { intros x n. unfold wrap64. rewrite Z.add_mod_idemp_l by lia. f_equal. lia. }
  unfold WAIT_OBJECT_0, WAIT_TIMEOUT.
  induction ths as [|[h w] ths IH]; intros s Ha He Ht; cbn [fold_left List.filter length].
  - rewrite !Z.add_0_r. by repeat split.
  - cbn [snd]. unfold count_thread at 2 4 6. unfold HasExited, WAIT_OBJECT_0, WAIT_TIMEOUT.
    destruct (Z.eqb_spec w 0) as [->|Hw0].
    + cbn [Z.eqb andb negb].
      match goal with |- context [fold_left count_thread ths ?s1] =>
        destruct (IH s1) as (IHa & IHe & IHt); cbn; rewrite ?Hidem; try done
      end.
      cbn in IHa, IHe, IHt. rewrite IHa, IHe, IHt, !Hsucc.
      repeat split; f_equal; lia.
    + destruct (Z.eqb_spec w 258) as [->|Hw1].
      * cbn [andb negb].
        match goal with |- context [fold_left count_thread ths ?s1] =>
          destruct (IH s1) as (IHa & IHe & IHt); cbn; rewrite ?Hidem; try done
        end.
        cbn in IHa, IHe, IHt. rewrite IHa, IHe, IHt, !Hsucc.
        repeat split; f_equal; lia.
      * cbn [andb negb].
        match goal with |- context [fold_left count_thread ths ?s1] =>
          destruct (IH s1) as (IHa & IHe & IHt); cbn; rewrite ?Hidem; try done
        end.
        cbn in IHa, IHe, IHt. rewrite IHa, IHe, IHt, !Hsucc.
        repeat split; f_equal; lia.
Qed.

Lemma count_thread_closed ths : forall s,
  Forall (fun h => h <> 0) ths.*1 ->
  closed_threads (fold_left count_thread ths s)
    ++ pending_thread (fold_left count_thread ths s)
  = closed_threads s ++ pending_thread s ++ ths.*1.
Proof.
  induction ths as [|[h w] ths IH]; intros s Hnz; cbn [fold_left].
  - by rewrite fmap_nil, app_nil_r.
  - rewrite fmap_cons in Hnz |- *. cbn [fst] in Hnz |- *.
    apply Forall_cons in Hnz as [Hh Hnz]. rewrite IH by done.
    unfold count_thread. destruct (HasExited w false) as [ok ex].
    cbn [closed_threads hPrevThread].
    destruct (Z.eqb_spec h 0) as [|_]; [done|]. cbn [negb].
    destruct (negb (hPrevThread s =? 0)); by rewrite <- ?app_assoc.
Qed.

(** What an iteration of the process loop does. *)
Lemma visit_report s p :
  hPrevProcess (visit F s p) = hThisProcess p
  /\ (exists r,
        Props.row_for p r
        /\ rows (visit F s p)
           = rows s ++ if ntStat p =? STATUS_SUCCESS then [r] else [])
  /\ length (wcerr (visit F s p))
     = (length (wcerr s) + if (ntStat p =? STATUS_SUCCESS)%Z then 0 else 1)%nat
  /\ (Props.report_nonnull p ->
      closed (visit F s p) ++ [hThisProcess p]
      = closed s ++ pending_process s ++ Props.report_handles p).
Proof.
  unfold visit, Props.report_handles, Props.report_nonnull, Props.row_for, Props.counted,
    Props.waiting.
  assert (Hcl : (if negb (hPrevProcess s =? 0) then closed s ++ [hPrevProcess s]
                 else closed s)
                = closed s ++ pending_process s).
  { destruct (negb _); [done | by rewrite app_nil_r]. }
  rewrite Hcl. clear Hcl.
  destruct (ntStat p =? STATUS_SUCCESS); cbn [negb].
  2:{ cbn. split; [done|]. split.
      - exists {| PID := UniqueProcessId p; sExeImagePath := [];
                  bProcessHasExited := WaitForSingleObject p =? WAIT_OBJECT_0;
                  counts :=
                    match OpenProcessQI p with
                    | None => None
                    | Some q =>
                        Some (wrap64 (Z.of_nat (length
                                (List.filter (fun t => t.2 =? WAIT_TIMEOUT) (threads q)))),
                              wrap64 (Z.of_nat (length
                                (List.filter (fun t => t.2 =? WAIT_OBJECT_0) (threads q)))),
                              wrap64 (Z.of_nat (length (threads q))))
                    end;
                  dwHandleCount :=
                    match GetProcessHandleCount p with Some n => n | None => 0 end |}.
        cbn. rewrite app_nil_r. repeat split. by destruct (OpenProcessQI p).
      - split; [by rewrite length_app; cbn; lia|].
        intros _. by rewrite <- !app_assoc. }
  assert (Hex : (HasExited (WaitForSingleObject p) false).2
                = (WaitForSingleObject p =? WAIT_OBJECT_0)).
  { unfold HasExited. destruct (WaitForSingleObject p =? WAIT_OBJECT_0); [done|].
    by destruct (WaitForSingleObject p =? WAIT_TIMEOUT). }
  destruct (OpenProcessQI p) as [q|].
  - match goal with |- context [fold_left count_thread (threads q) ?t0] =>
      destruct (count_thread_fold (threads q) t0 eq_refl eq_refl eq_refl)
        as (Ha & He & Ht);
      pose proof (count_thread_closed (threads q) t0) as Hc;
      set (t := fold_left count_thread (threads q) t0) in *
    end.
    cbn [nActiveThreads nExitedThreads nTotalThreads closed_threads hPrevThread] in *.
    rewrite Z.add_0_l in Ha, He, Ht. cbn [negb Z.eqb app] in Hc.
    cbn [hPrevProcess rows wcerr closed].
    split; [done|]. split.
    + eexists. split; [|reflexivity]. cbn. rewrite Ha, He, Ht, Hex. by repeat split.
    + split; [lia|]. intros [_ Hnz].
      assert (Hcl : (if negb (hPrevThread t =? 0)
                     then closed_threads t ++ [hPrevThread t] else closed_threads t)
                    = closed_threads t ++ pending_thread t).
      { destruct (negb (hPrevThread t =? 0)); [done | by rewrite app_nil_r]. }
      rewrite Hcl, Hc by (by apply Hnz). by rewrite <- !app_assoc.
  - cbn [hPrevProcess rows wcerr closed].
    split; [done|]. split.
    + eexists. split; [|reflexivity]. cbn. rewrite Hex. by repeat split.
    + split; [lia|]. intros _. by rewrite <- !app_assoc.
Qed.

Lemma report_fold ps : forall s,
  exists rs,
    Forall2 Props.row_for (List.filter (fun p => ntStat p =? STATUS_SUCCESS) ps) rs
    /\ rows (fold_left (visit F) ps s) = rows s ++ rs
    /\ length (wcerr (fold_left (visit F) ps s))
       = (length (wcerr s)
          + length (List.filter (fun p => negb (ntStat p =? STATUS_SUCCESS)%Z) ps))%nat
    /\ (Forall Props.report_nonnull ps ->
        closed (fold_left (visit F) ps s) ++ pending_process (fold_left (visit F) ps s)
        = closed s ++ pending_process s ++ concat (Props.report_handles <$> ps)).
Proof.
  induction ps as [|p ps IH]; intros s; cbn [fold_left List.filter].
  { exists []. rewrite !app_nil_r.
    split; [constructor|]. split; [done|]. split; [cbn; lia | done]. }
  destruct (visit_report s p) as (Hprev & (r & Hr & Hrows) & Herr & Hclosed).
  destruct (IH (visit F s p)) as (rs & Hrs & IHrows & IHerr & IHclosed).
  exists ((if ntStat p =? STATUS_SUCCESS then [r] else []) ++ rs).
  split; [|split; [|split]].
  - destruct (ntStat p =? STATUS_SUCCESS); [by constructor | done].
  - by rewrite IHrows, Hrows, <- app_assoc.
  - rewrite IHerr, Herr. destruct (ntStat p =? STATUS_SUCCESS); cbn; lia.
  - intros Hnz. apply Forall_cons in Hnz as [Hp Hnz].
    rewrite IHclosed by done. rewrite Hprev.
    destruct (Z.eqb_spec (hThisProcess p) 0) as [H0|_]; [by destruct Hp|].
    cbn [negb]. rewrite fmap_cons. cbn [concat].
    rewrite (app_assoc (closed (visit F s p))), (Hclosed Hp). by rewrite <- !app_assoc.
Qed.

End ThreadReport.

(** FullThreadReport succeeds exactly when ntdll.dll and its three entry
    points are found; otherwise it writes one message to std::wcerr, no line
    to the report, and closes nothing.  When it succeeds the report has one
    line for each process whose basic-information query succeeded, in the
    order of the enumeration, with the process's PID, whether it has exited,
    its handle count (0 if that query failed), and its thread counts: the
    threads on which the wait timed out, those on which it was satisfied, and
    all of them; the counts are shown as "-" when the process cannot be
    opened for its threads.  Each failed query, and an enumeration ending on
    a status other than STATUS_NO_MORE_ENTRIES, adds one message to
    std::wcerr without failing the call. *)
Theorem thread_report_rows (F : Formatting) (k : FullThreadReport.Kernel)
    (closed : list Z) :
  let rep := FullThreadReport.FullThreadReport F k closed in
  let ps := FullThreadReport.processes k in
  FullThreadReport.retval rep
  = FullThreadReport.ntdll k
    && (FullThreadReport.NtGetNextProcess k && FullThreadReport.NtGetNextThread k
        && FullThreadReport.NtQueryInformationProcess k)
  /\ (FullThreadReport.retval rep = false ->
      FullThreadReport.out_rows rep = []
      /\ FullThreadReport.out_closed rep = closed
      /\ length (FullThreadReport.out_wcerr rep) = 1%nat)
  /\ (FullThreadReport.retval rep = true ->
      Forall2 Props.row_for
        (List.filter (fun p => FullThreadReport.ntStat p =? STATUS_SUCCESS) ps)
        (FullThreadReport.out_rows rep)
      /\ length (FullThreadReport.out_wcerr rep)
         = (length (List.filter
                      (fun p => negb (FullThreadReport.ntStat p =? STATUS_SUCCESS)%Z) ps)
            + if (FullThreadReport.ntGNP k =? STATUS_NO_MORE_ENTRIES)%Z
              then 0 else 1)%nat).
Proof.
  cbv zeta. unfold FullThreadReport.FullThreadReport.
  destruct (FullThreadReport.ntdll k); cbn [negb andb]; [|by repeat split].
  destruct (_ && _); cbn [negb]; [|by repeat split].
  cbn [FullThreadReport.retval FullThreadReport.out_rows FullThreadReport.out_wcerr].
  split; [done|]. split; [done|]. intros _.
  match goal with |- context [fold_left ?f ?ps ?s0] =>
    destruct (report_fold F ps s0) as (rs & Hrs & Hrows & Herr & _);
    set (s' := fold_left f ps s0) in *
  end.
  cbn [FullThreadReport.rows FullThreadReport.wcerr app length] in Hrows, Herr.
  rewrite Hrows. split; [done|].
  destruct (FullThreadReport.ntGNP k =? STATUS_NO_MORE_ENTRIES); cbn [negb].
  - rewrite Herr. lia.
  - rewrite length_app, Herr. cbn [length]. lia.
Qed.

(** FullThreadReport closes every handle it is given: the handles closed
    during a successful call are, in this order for each process in turn,
    the handles of its threads, the handle opened to enumerate them, and the
    process handle itself.  Handles of processes and threads are taken to be
    non-null. *)
Theorem thread_report_closes_handles (F : Formatting) (k : FullThreadReport.Kernel)
    (closed : list Z) :
  FullThreadReport.retval (FullThreadReport.FullThreadReport F k closed) = true ->
  Forall Props.report_nonnull (FullThreadReport.processes k) ->
  FullThreadReport.out_closed (FullThreadReport.FullThreadReport F k closed)
  = closed ++ concat (Props.report_handles <$> FullThreadReport.processes k).
Proof.
  unfold FullThreadReport.FullThreadReport.
  destruct (negb (FullThreadReport.ntdll k)); [done|].
  destruct (negb _); [done|].
  cbn [FullThreadReport.retval FullThreadReport.out_closed]. intros _ Hnz.
  match goal with |- context [fold_left ?f ?ps ?s0] =>
    destruct (report_fold F ps s0) as (rs & _ & _ & _ & Hclosed);
    set (s' := fold_left f ps s0) in *
  end.
  specialize (Hclosed Hnz).
  cbn [FullThreadReport.closed FullThreadReport.hPrevProcess Z.eqb negb app] in Hclosed.
  rewrite <- Hclosed.
  destruct (negb (FullThreadReport.hPrevProcess s' =? 0)); [done | by rewrite app_nil_r].
Qed.

Lemma thread_report_closes_handles_witness :
  FullThreadReport.retval
    (FullThreadReport.FullThreadReport Samples.plain Samples.reported []) = true
  /\ Forall Props.report_nonnull (FullThreadReport.processes Samples.reported)
  /\ FullThreadReport.out_closed
       (FullThreadReport.FullThreadReport Samples.plain Samples.reported [])
     = [0x14; 0x18; 0x10; 0xC; 0x1C].
Proof.
  assert (H1 : FullThreadReport.retval
    (FullThreadReport.FullThreadReport Samples.plain Samples.reported []) = true).
  { reflexivity. }
  assert (H2 : Forall Props.report_nonnull (FullThreadReport.processes Samples.reported)).
  { repeat constructor; cbn; try lia; intros q [= <-]; repeat constructor; cbn; lia. }
  split; [exact H1|]. split; [exact H2|].
  exact (thread_report_closes_handles Samples.plain Samples.reported [] H1 H2).
Defined.

(** ** Runs of Update *)


